(** * Tennis analysis: court-relative projection, shot detection and statistics

    A shallow embedding of the analysis core of the repository
    ([utils/bbox_utils.py], [utils/conversions.py], [trackers/player_tracker.py],
    [trackers/ball_tracker.py], [mini_court/mini_court.py] and the statistics
    loop of [main.py]) together with the properties its specification states.

    Number model.  Detections, keypoints and everything the coordinate mapper,
    the player selector, the interpolator and the shot detector compute are
    modelled over exact rationals [Q] (Python's [int] embeds in them, a [float]
    is idealised as the rational it stands for).  The statistics loop of
    [main.py] is modelled over IEEE binary64 numbers ([PrimFloat]), which is what
    Python and pandas compute with, because its properties are about a numeric
    test vector and about the NaN that pandas uses for a missing value. *)

From Stdlib Require Import ZArith QArith Qabs List Bool Lia Lqa.
From Stdlib Require Import Sorted Permutation.
From Stdlib Require Import Floats.
From Stdlib Require Uint63.
Import ListNotations.

Set Warnings "-inexact-float".
Local Open Scope Z_scope.

(* ================================================================== *)
(** * Python primitives *)
(* ================================================================== *)

Module Py.

(** The exceptions the modelled code can raise. *)
Inductive exn : Type :=
| TypeError
| KeyError
| IndexError
| ValueError
| ZeroDivisionError
| OverflowError.

(** The outcome of running a piece of Python: a value or a raised exception. *)
Inductive result (A : Type) : Type :=
| Ok (a : A)
| Raise (e : exn).

Arguments Ok {A} a.
Arguments Raise {A} e.

Definition bind {A B : Type} (r : result A) (k : A -> result B) : result B :=
  match r with
  | Ok a => k a
  | Raise e => Raise e
  end.

Definition is_ok {A : Type} (r : result A) : bool :=
  match r with Ok _ => true | Raise _ => false end.

(** [for x in l: acc = body(acc, x)], stopping at the first exception. *)
Fixpoint for_each {A S : Type} (body : S -> A -> result S) (l : list A) (acc : S)
  : result S :=
  match l with
  | [] => Ok acc
  | x :: rest => bind (body acc x) (for_each body rest)
  end.

(** [[f(x) for x in l]], evaluated left to right. *)
Fixpoint comprehension {A B : Type} (f : A -> result B) (l : list A) : result (list B) :=
  match l with
  | [] => Ok []
  | x :: rest =>
      bind (f x) (fun y => bind (comprehension f rest) (fun ys => Ok (y :: ys)))
  end.

(** [l[i]] on a list: a negative index counts from the end, an index outside
    the list raises [IndexError]. *)
Definition index {A : Type} (l : list A) (i : Z) : result A :=
  let n := Z.of_nat (length l) in
  let j := if i <? 0 then i + n else i in
  if j <? 0 then Raise IndexError
  else match nth_error l (Z.to_nat j) with
       | Some a => Ok a
       | None => Raise IndexError
       end.

(** [range(lo, hi)]. *)
Definition range (lo hi : Z) : list Z :=
  map (fun k => lo + Z.of_nat k) (seq 0 (Z.to_nat (hi - lo))).

(** [range(lo, hi, 2)]. *)
Definition range2 (lo hi : Z) : list Z :=
  map (fun k => lo + 2 * Z.of_nat k) (seq 0 (Z.to_nat ((hi - lo + 1) / 2))).

(** [enumerate(l)]. *)
Definition enumerate {A : Type} (l : list A) : list (Z * A) :=
  combine (range 0 (Z.of_nat (length l))) l.

(** A [dict] with integer keys, kept in insertion order. *)
Definition dict (A : Type) : Type := list (Z * A).

Fixpoint get_opt {A : Type} (d : dict A) (k : Z) : option A :=
  match d with
  | [] => None
  | (k', v) :: rest => if k' =? k then Some v else get_opt rest k
  end.

(** [d[k]]: raises [KeyError] on a missing key. *)
Definition get {A : Type} (d : dict A) (k : Z) : result A :=
  match get_opt d k with
  | Some v => Ok v
  | None => Raise KeyError
  end.

Definition keys {A : Type} (d : dict A) : list Z := map fst d.

Definition items {A : Type} (d : dict A) : list (Z * A) := d.

(** [d[k] = v]: replaces the value of an existing key in place, appends a new key. *)
Fixpoint set {A : Type} (d : dict A) (k : Z) (v : A) : dict A :=
  match d with
  | [] => [(k, v)]
  | (k', v') :: rest => if k' =? k then (k, v) :: rest else (k', v') :: set rest k v
  end.

(** [min(l, key=f)]: the first element with the smallest key; [ValueError] on
    an empty sequence.  [ltb] is the [<] of the keys. *)
Section MinMax.
Context {A K : Type} (ltb : K -> K -> bool).

Fixpoint min_from (key : A -> result K) (best : A) (kbest : K) (l : list A) : result A :=
  match l with
  | [] => Ok best
  | x :: rest =>
      bind (key x) (fun kx =>
        if ltb kx kbest then min_from key x kx rest else min_from key best kbest rest)
  end.

Definition min_by (key : A -> result K) (l : list A) : result A :=
  match l with
  | [] => Raise ValueError
  | x :: rest => bind (key x) (fun kx => min_from key x kx rest)
  end.

(** [max(l)]: the first largest element; [ValueError] on an empty list. *)
Fixpoint max_from (best : K) (l : list K) : K :=
  match l with
  | [] => best
  | x :: rest => if ltb best x then max_from x rest else max_from best rest
  end.

Definition max (l : list K) : result K :=
  match l with
  | [] => Raise ValueError
  | x :: rest => Ok (max_from x rest)
  end.

(** [l.sort(key=f)]: a stable ascending sort. *)
Fixpoint insert_by (key : A -> K) (x : A) (l : list A) : list A :=
  match l with
  | [] => [x]
  | y :: rest => if ltb (key y) (key x) then y :: insert_by key x rest else x :: y :: rest
  end.

Definition sort_by (key : A -> K) (l : list A) : list A :=
  fold_right (insert_by key) [] l.
End MinMax.

End Py.

Import Py.

Declare Scope py_scope.
Delimit Scope py_scope with py.
Notation "x <- e ;; k" := (Py.bind e (fun x => k))
  (at level 61, e at next level, right associativity) : py_scope.
Notation "' pat <- e ;; k" := (Py.bind e (fun x => match x with pat => k end))
  (at level 61, pat pattern, e at next level, right associativity) : py_scope.
Local Open Scope py_scope.

(* ================================================================== *)
(** * Rational numbers as Python numbers *)
(* ================================================================== *)

(** [a < b] on rationals. *)
Definition Qltb (a b : Q) : bool := negb (Qle_bool b a).

(** [int(x)]: truncation towards zero. *)
Definition Qtrunc (q : Q) : Z := Z.quot (Qnum q) (Z.pos (Qden q)).

Definition py_int (q : Q) : Q := inject_Z (Qtrunc q).

(** [a / b] on Python scalars: [ZeroDivisionError] when the divisor is zero. *)
Definition py_div (a b : Q) : result Q :=
  if Qeq_bool b 0 then Raise ZeroDivisionError else Ok (a / b)%Q.

(** A Euclidean distance is the square root of a non-negative rational.  It is
    kept as its radicand: the code only ever compares the distances it takes on
    detections, and the square root is strictly increasing, so two distances
    compare as their radicands do. *)
Record root : Type := Sqrt { radicand : Q }.

Definition root_ltb (a b : root) : bool := Qltb (radicand a) (radicand b).

(** [float('inf')] next to finite numbers: [None] is infinity. *)
Definition lt_inf {K : Type} (ltb : K -> K -> bool) (a : K) (b : option K) : bool :=
  match b with
  | None => true
  | Some b' => ltb a b'
  end.

(** [a < b] where both may be infinite. *)
Definition inf_ltb {K : Type} (ltb : K -> K -> bool) (a b : option K) : bool :=
  match a with
  | None => false
  | Some a' => lt_inf ltb a' b
  end.

(* ================================================================== *)
(** * utils/bbox_utils.py *)
(* ================================================================== *)

(** A bounding box [[x1, y1, x2, y2]] and a point [(x, y)]. *)
Definition bbox : Type := (Q * Q * Q * Q)%type.
Definition point : Type := (Q * Q)%type.

(** The four coordinates of a box. *)
Inductive channel : Type := X1 | Y1 | X2 | Y2.

Definition coord (ch : channel) (b : bbox) : Q :=
  let '(x1, y1, x2, y2) := b in
  match ch with X1 => x1 | Y1 => y1 | X2 => x2 | Y2 => y2 end.

Definition get_center_of_bbox (b : bbox) : point :=
  let '(x1, y1, x2, y2) := b in
  (py_int ((x1 + x2) / 2), py_int ((y1 + y2) / 2))%Q.

Definition measure_distance (p1 p2 : point) : root :=
  Sqrt ((fst p1 - fst p2) ^ 2 + (snd p1 - snd p2) ^ 2)%Q.

Definition get_foot_position (b : bbox) : point :=
  let '(x1, y1, x2, y2) := b in
  (py_int ((x1 + x2) / 2), y2)%Q.

Definition get_height_of_bbox (b : bbox) : Q :=
  let '(x1, y1, x2, y2) := b in (y2 - y1)%Q.

(** The loop of [get_closest_keypoint_index]: the state is
    [(closest_distance, key_point_ind)]. *)
Definition closest_keypoint_step (pt : point) (keypoints : list Q)
    (st : option Q * Z) (keypoint_indix : Z) : result (option Q * Z) :=
  kx <- index keypoints (keypoint_indix * 2) ;;
  ky <- index keypoints (keypoint_indix * 2 + 1) ;;
  let distance := Qabs (snd pt - ky) in
  if lt_inf Qltb distance (fst st)
  then Ok (Some distance, keypoint_indix)
  else Ok st.

Definition get_closest_keypoint_index (pt : point) (keypoints : list Q)
    (keypoint_indices : list Z) : result Z :=
  key_point_ind <- index keypoint_indices 0 ;;
  st <- for_each (closest_keypoint_step pt keypoints) keypoint_indices
          (None, key_point_ind) ;;
  Ok (snd st).

(* ================================================================== *)
(** * utils/conversions.py *)
(* ================================================================== *)

Definition convert_pixel_distance_to_meters
    (pixel_distance refrence_height_in_meters refrence_height_in_pixels : Q) : result Q :=
  py_div (pixel_distance * refrence_height_in_meters) refrence_height_in_pixels.

Definition convert_meters_to_pixel_distance
    (meters refrence_height_in_meters refrence_height_in_pixels : Q) : result Q :=
  py_div (meters * refrence_height_in_pixels) refrence_height_in_meters.

(* ================================================================== *)
(** * The constants module *)
(* ================================================================== *)

(** The module [constants] is imported by the code; its source is not among
    the modelled files and its values are taken as a parameter. *)
Record constants : Type := {
  DOUBLE_LINE_WIDTH : Q;
  HALF_COURT_LINE_HEIGHT : Q;
  DOUBLE_ALLY_DIFFERENCE : Q;
  SINGLE_LINE_WIDTH : Q;
  NO_MANS_LAND_HEIGHT : Q;
  PLAYER_1_HEIGHT_METERS : Q;
  PLAYER_2_HEIGHT_METERS : Q
}.

(** The double-line width is the 10.97 m of the specification; the other
    values are those of a standard court and of two players, for examples. *)
Definition court_constants : constants := {|
  DOUBLE_LINE_WIDTH := 1097 # 100;
  HALF_COURT_LINE_HEIGHT := 1188 # 100;
  DOUBLE_ALLY_DIFFERENCE := 137 # 100;
  SINGLE_LINE_WIDTH := 823 # 100;
  NO_MANS_LAND_HEIGHT := 548 # 100;
  PLAYER_1_HEIGHT_METERS := 188 # 100;
  PLAYER_2_HEIGHT_METERS := 191 # 100
|}.

(* ================================================================== *)
(** * trackers/player_tracker.py *)
(* ================================================================== *)

(** The inner loop of [choose_players]: the state is [min_distance]. *)
Definition min_distance_step (player_center : point) (court_keypoints : list Q)
    (min_distance : option root) (i : Z) : result (option root) :=
  kx <- index court_keypoints i ;;
  ky <- index court_keypoints (i + 1) ;;
  let distance := measure_distance player_center (kx, ky) in
  if lt_inf root_ltb distance min_distance then Ok (Some distance) else Ok min_distance.

(** The outer loop of [choose_players]: the state is the list [distances]. *)
Definition distances_step (court_keypoints : list Q)
    (distances : list (Z * option root)) (item : Z * bbox)
  : result (list (Z * option root)) :=
  let '(track_id, b) := item in
  let player_center := get_center_of_bbox b in
  min_distance <- for_each (min_distance_step player_center court_keypoints)
                    (range2 0 (Z.of_nat (length court_keypoints))) None ;;
  Ok (distances ++ [(track_id, min_distance)]).

Definition choose_players (court_keypoints : list Q) (player_dict : dict bbox)
  : result (list Z) :=
  distances <- for_each (distances_step court_keypoints) (items player_dict) [] ;;
  let distances := sort_by (inf_ltb root_ltb) snd distances in
  d0 <- index distances 0 ;;
  d1 <- index distances 1 ;;
  Ok [fst d0; fst d1].

Definition choose_and_filter_players (court_keypoints : list Q)
    (player_detections : list (dict bbox)) : result (list (dict bbox)) :=
  player_detections_first_frame <- index player_detections 0 ;;
  chosen_player <- choose_players court_keypoints player_detections_first_frame ;;
  Ok (map (fun player_dict =>
             filter (fun item => existsb (Z.eqb (fst item)) chosen_player)
                    (items player_dict))
          player_detections).

(* ================================================================== *)
(** * mini_court/mini_court.py *)
(* ================================================================== *)

(** The attributes of a [MiniCourt] object once [__init__] has run. *)
Record mini_court : Type := {
  drawing_rectangle_width : Z;
  drawing_rectangle_height : Z;
  buffer : Z;
  padding_court : Z;
  start_x : Z;
  start_y : Z;
  end_x : Z;
  end_y : Z;
  court_start_x : Z;
  court_start_y : Z;
  court_end_x : Z;
  court_end_y : Z;
  court_drawing_width : Z;
  drawing_key_points : list Q;
  lines : list (Z * Z)
}.

(** [set_canvas_background_box_position] and [set_mini_court_position]: the
    frame enters through its width, [frame.shape[1]], only. *)
Definition canvas_end_x (frame_width buffer : Z) : Z := frame_width - buffer.
Definition canvas_end_y (buffer drawing_rectangle_height : Z) : Z :=
  buffer + drawing_rectangle_height.
Definition canvas_start_x (end_x drawing_rectangle_width : Z) : Z :=
  end_x - drawing_rectangle_width.
Definition canvas_start_y (end_y drawing_rectangle_height : Z) : Z :=
  end_y - drawing_rectangle_height.

Definition court_lines : list (Z * Z) :=
  [(0, 2); (4, 5); (6, 7); (1, 3); (0, 1); (8, 9); (10, 11); (10, 11); (2, 3)].

Section Geometry.
Variable c : constants.

(** [MiniCourt.convert_meters_to_pixels], on the court drawing width. *)
Definition meters_to_pixels (width : Z) (meters : Q) : result Q :=
  convert_meters_to_pixel_distance meters (DOUBLE_LINE_WIDTH c) (inject_Z width).

(** [set_court_drawing_key_points]: the 28 coordinates, in the order in which
    the method assigns them. *)
Definition set_court_drawing_key_points
    (court_start_x court_start_y court_end_x court_drawing_width : Z)
  : result (list Q) :=
  let m2p := meters_to_pixels court_drawing_width in
  let k0 := inject_Z court_start_x in
  let k1 := inject_Z court_start_y in
  let k2 := inject_Z court_end_x in
  let k3 := inject_Z court_start_y in
  let k4 := inject_Z court_start_x in
  d5 <- m2p (HALF_COURT_LINE_HEIGHT c * 2)%Q ;;
  let k5 := (inject_Z court_start_y + d5)%Q in
  let k6 := (k0 + inject_Z court_drawing_width)%Q in
  let k7 := k5 in
  d8 <- m2p (DOUBLE_ALLY_DIFFERENCE c) ;;
  let k8 := (k0 + d8)%Q in
  let k9 := k1 in
  d10 <- m2p (DOUBLE_ALLY_DIFFERENCE c) ;;
  let k10 := (k4 + d10)%Q in
  let k11 := k5 in
  d12 <- m2p (DOUBLE_ALLY_DIFFERENCE c) ;;
  let k12 := (k2 - d12)%Q in
  let k13 := k3 in
  d14 <- m2p (DOUBLE_ALLY_DIFFERENCE c) ;;
  let k14 := (k6 - d14)%Q in
  let k15 := k7 in
  let k16 := k8 in
  d17 <- m2p (NO_MANS_LAND_HEIGHT c) ;;
  let k17 := (k9 + d17)%Q in
  d18 <- m2p (SINGLE_LINE_WIDTH c) ;;
  let k18 := (k16 + d18)%Q in
  let k19 := k17 in
  let k20 := k10 in
  d21 <- m2p (NO_MANS_LAND_HEIGHT c) ;;
  let k21 := (k11 - d21)%Q in
  d22 <- m2p (SINGLE_LINE_WIDTH c) ;;
  let k22 := (k20 + d22)%Q in
  let k23 := k21 in
  let k24 := py_int ((k16 + k18) / 2)%Q in
  let k25 := k17 in
  let k26 := py_int ((k20 + k22) / 2)%Q in
  let k27 := k21 in
  Ok [k0; k1; k2; k3; k4; k5; k6; k7; k8; k9; k10; k11; k12; k13;
      k14; k15; k16; k17; k18; k19; k20; k21; k22; k23; k24; k25; k26; k27].

(** [MiniCourt(frame)]. *)
Definition MiniCourt (frame_width : Z) : result mini_court :=
  let drawing_rectangle_width := 250 in
  let drawing_rectangle_height := 500 in
  let buffer := 50 in
  let padding_court := 20 in
  let end_x := canvas_end_x frame_width buffer in
  let end_y := canvas_end_y buffer drawing_rectangle_height in
  let start_x := canvas_start_x end_x drawing_rectangle_width in
  let start_y := canvas_start_y end_y drawing_rectangle_height in
  let court_start_x := start_x + padding_court in
  let court_start_y := start_y + padding_court in
  let court_end_x := end_x - padding_court in
  let court_end_y := end_y - padding_court in
  let court_drawing_width := court_end_x - court_start_x in
  kps <- set_court_drawing_key_points court_start_x court_start_y court_end_x
           court_drawing_width ;;
  Ok {| drawing_rectangle_width := drawing_rectangle_width;
        drawing_rectangle_height := drawing_rectangle_height;
        buffer := buffer;
        padding_court := padding_court;
        start_x := start_x; start_y := start_y; end_x := end_x; end_y := end_y;
        court_start_x := court_start_x; court_start_y := court_start_y;
        court_end_x := court_end_x; court_end_y := court_end_y;
        court_drawing_width := court_drawing_width;
        drawing_key_points := kps;
        lines := court_lines |}.

Definition get_width_of_mini_court (mc : mini_court) : Z := court_drawing_width mc.

Definition convert_meters_to_pixels (mc : mini_court) (meters : Q) : result Q :=
  meters_to_pixels (court_drawing_width mc) meters.

End Geometry.

(** ** Arguments as Python passes them

    [get_mini_court_coordinates] receives its arguments by position and puts no
    type on them.  An argument is an [int], a [float] or a pair of numbers. *)
Inductive value : Type :=
| VInt (n : Z)
| VFloat (q : Q)
| VTuple (x y : Q).

(** [v[i]]: only a tuple can be subscripted. *)
Definition subscript (v : value) (i : Z) : result Q :=
  match v with
  | VTuple x y => index [x; y] i
  | VInt _ | VFloat _ => Raise TypeError
  end.

(** A value used as an operand of [*] and [/] with a number. *)
Definition number (v : value) : result Q :=
  match v with
  | VInt n => Ok (inject_Z n)
  | VFloat q => Ok q
  | VTuple _ _ => Raise TypeError
  end.

(** A value used to compute a list index: only an [int] will do. *)
Definition list_index (v : value) : result Z :=
  match v with
  | VInt n => Ok n
  | VFloat _ | VTuple _ _ => Raise TypeError
  end.

(** [measure_xy_distance] of [utils/bbox_utils.py]. *)
Definition measure_xy_distance (p1 p2 : value) : result (Q * Q) :=
  a0 <- subscript p1 0 ;;
  b0 <- subscript p2 0 ;;
  a1 <- subscript p1 1 ;;
  b1 <- subscript p2 1 ;;
  Ok (Qabs (a0 - b0), Qabs (a1 - b1)).

(** [convert_pixel_distance_to_meters] on reference heights passed as values. *)
Definition pixel_distance_to_meters (pixel_distance : Q)
    (refrence_height_in_meters refrence_height_in_pixels : value) : result Q :=
  m <- number refrence_height_in_meters ;;
  p <- number refrence_height_in_pixels ;;
  convert_pixel_distance_to_meters pixel_distance m p.

Section Mapper.
Variable c : constants.

(** [MiniCourt.get_mini_court_coordinates]; the parameters are in the order of
    the [def]. *)
Definition get_mini_court_coordinates (mc : mini_court)
    (player_height_in_meters object_position closest_key_point
     closest_key_point_index player_height_in_pixels : value) : result point :=
  '(distance_from_keypoint_x_pixels, distance_from_keypoint_y_pixels) <-
     measure_xy_distance object_position closest_key_point ;;
  distance_from_keypoint_x_meters <-
     pixel_distance_to_meters distance_from_keypoint_x_pixels
       player_height_in_meters player_height_in_pixels ;;
  distance_from_keypoint_y_meters <-
     pixel_distance_to_meters distance_from_keypoint_y_pixels
       player_height_in_meters player_height_in_pixels ;;
  mini_court_x_distance_pixels <-
     convert_meters_to_pixels c mc distance_from_keypoint_x_meters ;;
  mini_court_y_distance_pixels <-
     convert_meters_to_pixels c mc distance_from_keypoint_y_meters ;;
  i <- list_index closest_key_point_index ;;
  kx <- index (drawing_key_points mc) (i * 2) ;;
  ky <- index (drawing_key_points mc) (i * 2 + 1) ;;
  Ok (kx + mini_court_x_distance_pixels, ky + mini_court_y_distance_pixels)%Q.

Definition player_heights : dict Q :=
  [(1, PLAYER_1_HEIGHT_METERS c); (2, PLAYER_2_HEIGHT_METERS c)].

(** A callee taking the five positional arguments of the two call sites of
    [convert_bounding_boxes_to_mini_court_coordinates]. *)
Definition mapper : Type := value -> value -> value -> value -> value -> result point.

Section Convert.
Variable project : mapper.
Variable player_boxes : list (dict bbox).
Variable ball_boxes : list (dict bbox).
Variable original_court_key_points : list Q.

(** The closest keypoint among the four anchor candidates, with its position
    in the original frame. *)
Definition closest_key_point_of (position : point) : result (Z * point) :=
  closest_key_point_index <-
    get_closest_keypoint_index position original_court_key_points [0; 2; 12; 13] ;;
  kx <- index original_court_key_points (closest_key_point_index * 2) ;;
  ky <- index original_court_key_points (closest_key_point_index * 2 + 1) ;;
  Ok (closest_key_point_index, (kx, ky)).

(** [get_height_of_bbox(player_boxes[i][player_id])]. *)
Definition player_height_at (player_id i : Z) : result Q :=
  d <- index player_boxes i ;;
  b <- get d player_id ;;
  Ok (get_height_of_bbox b).

(** "Get Player height in pixels": the largest height of the player's boxes
    over [range(frame_index_min, frame_index_max)]. *)
Definition max_player_height_in_pixels (frame_num player_id : Z) : result Q :=
  let frame_index_min := Z.max 0 (frame_num - 20) in
  let frame_index_max := Z.min (Z.of_nat (length player_boxes)) (frame_num + 50) in
  bboxes_heights_in_pixels <-
    comprehension (player_height_at player_id) (range frame_index_min frame_index_max) ;;
  Py.max Qltb bboxes_heights_in_pixels.

(** The body of the loop over the players of one frame.  The state is
    [(output_player_bboxes_dict, output_ball_boxes)]. *)
Definition player_step (frame_num : Z) (ball_position : point)
    (closest_player_id_to_ball : Z)
    (st : dict point * list (dict point)) (item : Z * bbox)
  : result (dict point * list (dict point)) :=
  let '(player_id, b) := item in
  let foot_position := get_foot_position b in
  '(closest_key_point_index, closest_key_point) <- closest_key_point_of foot_position ;;
  max_height <- max_player_height_in_pixels frame_num player_id ;;
  height_m <- get player_heights player_id ;;
  mini_court_player_position <-
    project (VTuple (fst foot_position) (snd foot_position))
            (VTuple (fst closest_key_point) (snd closest_key_point))
            (VInt closest_key_point_index)
            (VFloat max_height)
            (VFloat height_m) ;;
  let output_player_bboxes_dict := set (fst st) player_id mini_court_player_position in
  if closest_player_id_to_ball =? player_id then
    '(closest_key_point_index, closest_key_point) <- closest_key_point_of ball_position ;;
    height_m <- get player_heights player_id ;;
    mini_court_player_position <-
      project (VTuple (fst ball_position) (snd ball_position))
              (VTuple (fst closest_key_point) (snd closest_key_point))
              (VInt closest_key_point_index)
              (VFloat max_height)
              (VFloat height_m) ;;
    Ok (output_player_bboxes_dict, snd st ++ [[(1, mini_court_player_position)]])
  else Ok (output_player_bboxes_dict, snd st).

(** The body of the loop over the frames.  The state is
    [(output_player_boxes, output_ball_boxes)]. *)
Definition frame_step (st : list (dict point) * list (dict point))
    (item : Z * dict bbox) : result (list (dict point) * list (dict point)) :=
  let '(frame_num, player_bbox) := item in
  ball_dict <- index ball_boxes frame_num ;;
  ball_box <- get ball_dict 1 ;;
  let ball_position := get_center_of_bbox ball_box in
  closest_player_id_to_ball <-
    min_by root_ltb
      (fun x => b <- get player_bbox x ;;
                Ok (measure_distance ball_position (get_center_of_bbox b)))
      (keys player_bbox) ;;
  '(output_player_bboxes_dict, output_ball_boxes) <-
    for_each (player_step frame_num ball_position closest_player_id_to_ball)
             (items player_bbox) ([], snd st) ;;
  Ok (fst st ++ [output_player_bboxes_dict], output_ball_boxes).

(** [convert_bounding_boxes_to_mini_court_coordinates] with the callee as a
    parameter. *)
Definition convert_bounding_boxes_with
  : result (list (dict point) * list (dict point)) :=
  for_each frame_step (enumerate player_boxes) ([], []).

End Convert.

(** [MiniCourt.convert_bounding_boxes_to_mini_court_coordinates]: the callee is
    [self.get_mini_court_coordinates], its arguments passed by position. *)
Definition convert_bounding_boxes_to_mini_court_coordinates (mc : mini_court)
    (player_boxes ball_boxes : list (dict bbox)) (original_court_key_points : list Q)
  : result (list (dict point) * list (dict point)) :=
  convert_bounding_boxes_with (get_mini_court_coordinates mc)
    player_boxes ball_boxes original_court_key_points.

(** The mapper with each argument of the call sites bound to the parameter of
    the same name: position, keypoint, keypoint index, height in pixels, height
    in meters. *)
Definition get_mini_court_coordinates_by_name (mc : mini_court) : mapper :=
  fun object_position closest_key_point closest_key_point_index
      player_height_in_pixels player_height_in_meters =>
    get_mini_court_coordinates mc player_height_in_meters object_position
      closest_key_point closest_key_point_index player_height_in_pixels.

End Mapper.

(* ================================================================== *)
(** * pandas: the operations the trackers use *)
(* ================================================================== *)

Module Pandas.

(** A column of numbers; [None] is the missing value NaN. *)
Definition series : Type := list (option Q).

Definition is_none {A : Type} (x : option A) : bool :=
  match x with None => true | Some _ => false end.

(** ** [pd.DataFrame(rows, columns=['x1','y1','x2','y2'])]

    Each row is a list of four numbers or the empty list.  A short row is
    filled with NaN; when there are rows and all of them are empty the frame has
    no column to label and the constructor raises [ValueError]. *)
Record frame : Type := { x1 : series; y1 : series; x2 : series; y2 : series }.

Definition DataFrame (rows : list (option bbox)) : result frame :=
  match rows with
  | [] => Ok {| x1 := []; y1 := []; x2 := []; y2 := [] |}
  | _ :: _ =>
      if forallb is_none rows then Raise ValueError
      else Ok {| x1 := map (option_map (coord X1)) rows;
                 y1 := map (option_map (coord Y1)) rows;
                 x2 := map (option_map (coord X2)) rows;
                 y2 := map (option_map (coord Y2)) rows |}
  end.

Definition column (ch : channel) (df : frame) : series :=
  match ch with X1 => x1 df | Y1 => y1 df | X2 => x2 df | Y2 => y2 df end.

(** ** [Series.interpolate()]

    The default is linear interpolation over equally spaced rows, filling
    forward: a missing value between two known ones lies on the line through
    them, one after the last known value repeats it, one before the first known
    value stays missing. *)
Fixpoint known_from (t : Z) (s : series) : list (Z * Q) :=
  match s with
  | [] => []
  | Some v :: rest => (t, v) :: known_from (t + 1) rest
  | None :: rest => known_from (t + 1) rest
  end.

Definition known (s : series) : list (Z * Q) := known_from 0 s.

Fixpoint interp_at (prev : option (Z * Q)) (xp : list (Z * Q)) (t : Z) : option Q :=
  match xp with
  | [] => option_map snd prev
  | (b, vb) :: rest =>
      if t <? b then
        match prev with
        | None => None
        | Some (a, va) =>
            Some ((vb - va) / inject_Z (b - a) * inject_Z (t - a) + va)%Q
        end
      else interp_at (Some (b, vb)) rest t
  end.

Definition interpolate (s : series) : series :=
  map (fun '(t, x) => match x with
                      | Some v => Some v
                      | None => interp_at None (known s) t
                      end)
      (enumerate s).

(** ** [Series.bfill()]: a missing value takes the next known one. *)
Fixpoint bfill (s : series) : series :=
  match s with
  | [] => []
  | x :: rest =>
      let r := bfill rest in
      match x with
      | Some v => Some v :: r
      | None => hd None r :: r
      end
  end.

(** ** Arithmetic on columns: NaN propagates. *)
Definition lift2 (f : Q -> Q -> Q) (a b : option Q) : option Q :=
  match a, b with
  | Some x, Some y => Some (f x y)
  | _, _ => None
  end.

Definition add (a b : series) : series := map (fun '(x, y) => lift2 Qplus x y) (combine a b).

Definition div_scalar (a : series) (k : Q) : series :=
  map (option_map (fun x => x / k)%Q) a.

(** ** [Series.rolling(window=w, min_periods=1, center=False).mean()]

    Row [t] holds the mean of the known values among the [w] rows that end at
    [t]; fewer at the start; NaN when none is known. *)
Definition window {A : Type} (w : nat) (s : list A) (t : nat) : list A :=
  skipn (t + 1 - w) (firstn (t + 1) s).

Fixpoint valid (s : series) : list Q :=
  match s with
  | [] => []
  | Some v :: rest => v :: valid rest
  | None :: rest => valid rest
  end.

Definition Qsum (l : list Q) : Q := fold_left Qplus l 0%Q.

Definition mean (l : list Q) : option Q :=
  match l with
  | [] => None
  | _ :: _ => Some (Qsum l / inject_Z (Z.of_nat (length l)))%Q
  end.

Definition rolling_mean (w : nat) (s : series) : series :=
  map (fun t => mean (valid (window w s t))) (seq 0 (length s)).

(** ** [Series.diff()]: row [t] minus row [t-1]; the first row is NaN. *)
Definition diff (s : series) : series :=
  match s with
  | [] => []
  | _ :: rest => None :: map (fun '(x, y) => lift2 Qminus x y) (combine rest s)
  end.

(** ** Comparisons of a cell with zero: false on NaN. *)
Definition gt0 (x : option Q) : bool :=
  match x with Some q => Qltb 0 q | None => false end.

Definition lt0 (x : option Q) : bool :=
  match x with Some q => Qltb q 0 | None => false end.

(** ** [df.loc[i, col] = v] on a row [i] of the index. *)
Fixpoint set_loc {A : Type} (col : list A) (i : nat) (v : A) : list A :=
  match col, i with
  | [], _ => []
  | _ :: rest, O => v :: rest
  | x :: rest, S i' => x :: set_loc rest i' v
  end.

End Pandas.

(* ================================================================== *)
(** * trackers/ball_tracker.py *)
(* ================================================================== *)

(** A row of four cells is a box when none of its cells is missing. *)
Definition box_of_cells (a b c d : option Q) : option bbox :=
  match a, b, c, d with
  | Some a', Some b', Some c', Some d' => Some (a', b', c', d')
  | _, _, _, _ => None
  end.

Fixpoint rows_of_frame (a b c d : Pandas.series) : list (option bbox) :=
  match a, b, c, d with
  | x :: a', y :: b', z :: c', w :: d' =>
      box_of_cells x y z w :: rows_of_frame a' b' c' d'
  | _, _, _, _ => []
  end.

(** [BallTracker.interpolate_ball_positions].  A frame that could be built has
    a known value in every column, so no cell is missing after the two fills;
    the last line's [ValueError] stands for a NaN coordinate and is never
    reached. *)
Definition interpolate_ball_positions (ball_positions : list (dict bbox))
  : result (list (dict bbox)) :=
  let ball_positions := map (fun x => get_opt x 1) ball_positions in
  df_ball_positions <- Pandas.DataFrame ball_positions ;;
  let fill := fun s => Pandas.bfill (Pandas.interpolate s) in
  let rows := rows_of_frame (fill (Pandas.x1 df_ball_positions))
                            (fill (Pandas.y1 df_ball_positions))
                            (fill (Pandas.x2 df_ball_positions))
                            (fill (Pandas.y2 df_ball_positions)) in
  comprehension (fun x => match x with
                          | Some b => Ok [(1, b)]
                          | None => Raise ValueError
                          end) rows.

(** [int(minimum_change_frames_for_hit*1.2)] with
    [minimum_change_frames_for_hit = 25]. *)
Definition minimum_change_frames_for_hit : Z := 25.
Definition lookahead : Z := 30.

(** The inner loop of [get_ball_shot_frames]: the state is [change_count]. *)
Definition change_step (delta_y : Pandas.series) (i : Z)
    (negative_position_change positive_position_change : bool)
    (change_count : Z) (change_frame : Z) : result Z :=
  di <- index delta_y i ;;
  negative_position_change_following_frame <-
    (if Pandas.gt0 di then dc <- index delta_y change_frame ;; Ok (Pandas.lt0 dc)
     else Ok false) ;;
  di' <- index delta_y i ;;
  positive_position_change_following_frame <-
    (if Pandas.lt0 di' then dc <- index delta_y change_frame ;; Ok (Pandas.gt0 dc)
     else Ok false) ;;
  if negative_position_change && negative_position_change_following_frame
  then Ok (change_count + 1)
  else if positive_position_change && positive_position_change_following_frame
  then Ok (change_count + 1)
  else Ok change_count.

(** The outer loop of [get_ball_shot_frames]: the state is the column
    [ball_hit]. *)
Definition hit_step (delta_y : Pandas.series) (ball_hit : list Z) (i : Z)
  : result (list Z) :=
  di <- index delta_y i ;;
  negative_position_change <-
    (if Pandas.gt0 di then dn <- index delta_y (i + 1) ;; Ok (Pandas.lt0 dn)
     else Ok false) ;;
  di' <- index delta_y i ;;
  positive_position_change <-
    (if Pandas.lt0 di' then dn <- index delta_y (i + 1) ;; Ok (Pandas.gt0 dn)
     else Ok false) ;;
  if negative_position_change || positive_position_change then
    change_count <-
      for_each (change_step delta_y i negative_position_change positive_position_change)
               (range (i + 1) (i + lookahead + 1)) 0 ;;
    if minimum_change_frames_for_hit - 1 <? change_count
    then Ok (Pandas.set_loc ball_hit (Z.to_nat i) 1)
    else Ok ball_hit
  else Ok ball_hit.

(** The column [delta_y] of [get_ball_shot_frames]. *)
Definition delta_y_of (df : Pandas.frame) : Pandas.series :=
  let mid_y := Pandas.div_scalar (Pandas.add (Pandas.y1 df) (Pandas.y2 df)) 2 in
  let mid_y_rolling_mean := Pandas.rolling_mean 5 mid_y in
  Pandas.diff mid_y_rolling_mean.

(** [BallTracker.get_ball_shot_frames]. *)
Definition get_ball_shot_frames (ball_positions : list (dict bbox)) : result (list Z) :=
  let ball_positions := map (fun x => get_opt x 1) ball_positions in
  df_ball_positions <- Pandas.DataFrame ball_positions ;;
  let len := Z.of_nat (length ball_positions) in
  let ball_hit := map (fun _ => 0) ball_positions in
  let delta_y := delta_y_of df_ball_positions in
  ball_hit <- for_each (hit_step delta_y) (range 1 (len - lookahead)) ball_hit ;;
  Ok (map fst (filter (fun '(_, h) => h =? 1) (enumerate ball_hit))).

(* ================================================================== *)
(** * main.py: the statistics of the shots *)
(* ================================================================== *)

Module Main.

Local Open Scope float_scope.

(** A position on the mini court, as the statistics loop reads it. *)
Definition position : Type := (float * float)%type.

(** An [int] used in float arithmetic. *)
Definition Z_to_float (z : Z) : float :=
  match z with
  | Z0 => 0
  | Zpos p => PrimFloat.of_uint63 (Uint63.of_pos p)
  | Zneg p => - PrimFloat.of_uint63 (Uint63.of_pos p)
  end.

(** A decimal constant read as the nearest binary64 number. *)
Definition Q_to_float (q : Q) : float :=
  Z_to_float (Qnum q) / Z_to_float (Z.pos (Qden q)).

(** [x ** 2] on a float: the product, [OverflowError] when it leaves the range. *)
Definition pow2 (x : float) : result float :=
  let r := x * x in
  if PrimFloat.is_infinity r && negb (PrimFloat.is_infinity x)
  then Raise OverflowError
  else Ok r.

(** [a / b] on Python scalars. *)
Definition scalar_div (a b : float) : result float :=
  if b =? 0 then Raise ZeroDivisionError else Ok (a / b).

(** [measure_distance] of [utils/bbox_utils.py]; [s ** 0.5] of a sum of squares
    is its square root. *)
Definition measure_distance (p1 p2 : position) : result float :=
  dx2 <- pow2 (fst p1 - fst p2) ;;
  dy2 <- pow2 (snd p1 - snd p2) ;;
  Ok (PrimFloat.sqrt (dx2 + dy2)).

(** [convert_pixel_distance_to_meters] of [utils/conversions.py]. *)
Definition convert_pixel_distance_to_meters
    (pixel_distance refrence_height_in_meters refrence_height_in_pixels : float)
  : result float :=
  scalar_div (pixel_distance * refrence_height_in_meters) refrence_height_in_pixels.

(** The numbers kept for one player in a row of [player_stats_data]. *)
Record player_stats : Type := {
  number_of_shots : Z;
  total_shot_speed : float;
  last_shot_speed : float;
  total_player_speed : float;
  last_player_speed : float
}.

(** The cells of a row other than [frame_num]: the keys [player_1_...] and
    [player_2_...]. *)
Record cells : Type := { player_1 : player_stats; player_2 : player_stats }.

(** A row of [player_stats_data]: [frame_num] and the cells. *)
Definition snapshot : Type := (Z * cells)%type.

Definition zero_stats : player_stats :=
  {| number_of_shots := 0; total_shot_speed := 0; last_shot_speed := 0;
     total_player_speed := 0; last_player_speed := 0 |}.

Definition initial_snapshot : snapshot :=
  (0%Z, {| player_1 := zero_stats; player_2 := zero_stats |}).

(** [d[f'player_{player_id}_...']]: only [1] and [2] name a key. *)
Definition get_player (player_id : Z) (cs : cells) : result player_stats :=
  if (player_id =? 1)%Z then Ok (player_1 cs)
  else if (player_id =? 2)%Z then Ok (player_2 cs)
  else Raise KeyError.

Definition set_player (player_id : Z) (ps : player_stats) (cs : cells) : result cells :=
  if (player_id =? 1)%Z then Ok {| player_1 := ps; player_2 := player_2 cs |}
  else if (player_id =? 2)%Z then Ok {| player_1 := player_1 cs; player_2 := ps |}
  else Raise KeyError.

(** What one pass of the loop computes before it updates the statistics. *)
Record shot : Type := {
  shot_frame : Z;
  player_shot_ball : Z;
  opponent_player_id : Z;
  speed_of_ball_shot : float;
  speed_of_opponent : float
}.

Section Aggregator.
Variable c : constants.
Variable mini_court_width : Z.
Variable player_mini_court_detections : list (dict position).
Variable ball_mini_court_detections : list (dict position).

(** Pixels on the mini court to meters. *)
Definition mini_court_meters (pixels : float) : result float :=
  convert_pixel_distance_to_meters pixels (Q_to_float (DOUBLE_LINE_WIDTH c))
    (Z_to_float mini_court_width).

(** The speed in km/h of something that covers [distance_pixels] on the mini
    court in [seconds]. *)
Definition speed_kmh (distance_pixels seconds : float) : result float :=
  meters <- mini_court_meters distance_pixels ;;
  v <- scalar_div meters seconds ;;
  Ok (v * 3.6).

Definition ball_at (frame : Z) : result position :=
  d <- index ball_mini_court_detections frame ;;
  get d 1%Z.

(** Lines 89 to 118 of [main.py]: the measurements of one shot. *)
Definition measure_shot (start_frame end_frame : Z) : result shot :=
  let ball_shot_time_in_seconds := Z_to_float (end_frame - start_frame) / 24 in
  ball_start <- ball_at start_frame ;;
  ball_end <- ball_at end_frame ;;
  distance_covered_by_ball_pixels <- measure_distance ball_start ball_end ;;
  speed_of_ball_shot <- speed_kmh distance_covered_by_ball_pixels ball_shot_time_in_seconds ;;
  player_positions <- index player_mini_court_detections start_frame ;;
  player_shot_ball <-
    min_by PrimFloat.ltb
      (fun player_id => p <- get player_positions player_id ;;
                        b <- ball_at start_frame ;;
                        measure_distance p b)
      (keys player_positions) ;;
  let opponent_player_id := if (player_shot_ball =? 2)%Z then 1%Z else 2%Z in
  opponent_start <- get player_positions opponent_player_id ;;
  end_positions <- index player_mini_court_detections end_frame ;;
  opponent_end <- get end_positions opponent_player_id ;;
  distance_covered_by_opponent_pixels <- measure_distance opponent_start opponent_end ;;
  speed_of_opponent <- speed_kmh distance_covered_by_opponent_pixels ball_shot_time_in_seconds ;;
  Ok {| shot_frame := start_frame;
        player_shot_ball := player_shot_ball;
        opponent_player_id := opponent_player_id;
        speed_of_ball_shot := speed_of_ball_shot;
        speed_of_opponent := speed_of_opponent |}.

(** Lines 120 to 129: the new row of [player_stats_data]. *)
Definition update_stats (previous : snapshot) (s : shot) : result snapshot :=
  let current := snd previous in
  striker <- get_player (player_shot_ball s) current ;;
  current <- set_player (player_shot_ball s)
    {| number_of_shots := number_of_shots striker + 1;
       total_shot_speed := total_shot_speed striker + speed_of_ball_shot s;
       last_shot_speed := speed_of_ball_shot s;
       total_player_speed := total_player_speed striker;
       last_player_speed := last_player_speed striker |} current ;;
  opponent <- get_player (opponent_player_id s) current ;;
  current <- set_player (opponent_player_id s)
    {| number_of_shots := number_of_shots opponent;
       total_shot_speed := total_shot_speed opponent;
       last_shot_speed := last_shot_speed opponent;
       total_player_speed := total_player_speed opponent + speed_of_opponent s;
       last_player_speed := speed_of_opponent s |} current ;;
  Ok (shot_frame s, current).

(** The body of the loop over the shots: the state is [player_stats_data],
    whose last row is kept apart. *)
Definition shot_step (ball_shot_frames : list Z)
    (st : list snapshot * snapshot) (ball_shot_ind : Z)
  : result (list snapshot * snapshot) :=
  start_frame <- index ball_shot_frames ball_shot_ind ;;
  end_frame <- index ball_shot_frames (ball_shot_ind + 1) ;;
  s <- measure_shot start_frame end_frame ;;
  current_player_stats <- update_stats (snd st) s ;;
  Ok (fst st ++ [snd st], current_player_stats).

(** [player_stats_data] after the loop. *)
Definition player_stats_data (ball_shot_frames : list Z) : result (list snapshot) :=
  st <- for_each (shot_step ball_shot_frames)
          (range 0 (Z.of_nat (length ball_shot_frames) - 1))
          ([], initial_snapshot) ;;
  Ok (fst st ++ [snd st]).

End Aggregator.

(** ** The table of the frames

    [pd.merge(frames_df, player_stats_data_df, on='frame_num', how='left')]: a
    row for every frame and every row of the statistics with that frame number,
    in this order; a frame without one gets a row of NaN. *)
Definition merge_left (frame_count : Z) (rows : list snapshot) : list (Z * option cells) :=
  flat_map
    (fun f =>
       match filter (fun r => (fst r =? f)%Z) rows with
       | [] => [(f, None)]
       | matched => map (fun r => (f, Some (snd r))) matched
       end)
    (range 0 frame_count).

(** [DataFrame.ffill()]: a NaN cell takes the last value above it that is not
    NaN.  The number of shots is never NaN in a row of the statistics. *)
Definition fill (above cell : float) : float :=
  if PrimFloat.is_nan cell then above else cell.

Definition fill_player (above p : player_stats) : player_stats :=
  {| number_of_shots := number_of_shots p;
     total_shot_speed := fill (total_shot_speed above) (total_shot_speed p);
     last_shot_speed := fill (last_shot_speed above) (last_shot_speed p);
     total_player_speed := fill (total_player_speed above) (total_player_speed p);
     last_player_speed := fill (last_player_speed above) (last_player_speed p) |}.

Definition fill_cells (above : option cells) (row : option cells) : option cells :=
  match row, above with
  | None, _ => above
  | Some r, None => Some r
  | Some r, Some a =>
      Some {| player_1 := fill_player (player_1 a) (player_1 r);
              player_2 := fill_player (player_2 a) (player_2 r) |}
  end.

Fixpoint ffill_from (above : option cells) (rows : list (Z * option cells))
  : list (Z * option cells) :=
  match rows with
  | [] => []
  | (f, r) :: rest =>
      let filled := fill_cells above r in
      (f, filled) :: ffill_from filled rest
  end.

Definition ffill (rows : list (Z * option cells)) : list (Z * option cells) :=
  ffill_from None rows.

(** Division of one column by another: IEEE division, nothing is raised. *)
Definition column_div (total : float) (count : Z) : float := total / Z_to_float count.

(** A row of the final table: the frame, the filled cells and the four
    averages of lines 137 to 140. *)
Record table_row : Type := {
  frame_num : Z;
  stats : option cells;
  player_1_average_shot_speed : float;
  player_2_average_shot_speed : float;
  player_1_average_player_speed : float;
  player_2_average_player_speed : float
}.

Definition add_averages (row : Z * option cells) : table_row :=
  match snd row with
  | Some cs =>
      {| frame_num := fst row;
         stats := Some cs;
         player_1_average_shot_speed :=
           column_div (total_shot_speed (player_1 cs)) (number_of_shots (player_1 cs));
         player_2_average_shot_speed :=
           column_div (total_shot_speed (player_2 cs)) (number_of_shots (player_2 cs));
         player_1_average_player_speed :=
           column_div (total_player_speed (player_1 cs)) (number_of_shots (player_2 cs));
         player_2_average_player_speed :=
           column_div (total_player_speed (player_2 cs)) (number_of_shots (player_1 cs)) |}
  | None =>
      {| frame_num := fst row;
         stats := None;
         player_1_average_shot_speed := nan;
         player_2_average_shot_speed := nan;
         player_1_average_player_speed := nan;
         player_2_average_player_speed := nan |}
  end.

(** Lines 132 to 140: [player_stats_data_df]. *)
Definition stats_table (frame_count : Z) (rows : list snapshot) : list table_row :=
  map add_averages (ffill (merge_left frame_count rows)).

(** Lines 67 to 140 of [main]: from the shot frames and the mini-court
    positions to the table of statistics. *)
Definition player_stats_data_df (c : constants) (mini_court_width : Z)
    (player_mini_court_detections ball_mini_court_detections : list (dict position))
    (ball_shot_frames : list Z) (frame_count : Z) : result (list table_row) :=
  rows <- player_stats_data c mini_court_width player_mini_court_detections
            ball_mini_court_detections ball_shot_frames ;;
  Ok (stats_table frame_count rows).

End Main.


(* ================================================================== *)
(** * Notions of the specification *)
(* ================================================================== *)

(** The [k]-th court keypoint of a flat list of coordinates. *)
Definition keypoint_at (keypoints : list Q) (k : nat) : option point :=
  match nth_error keypoints (2 * k), nth_error keypoints (2 * k + 1) with
  | Some x, Some y => Some (x, y)
  | _, _ => None
  end.

(** [a <= b] on distances that may be infinite. *)
Definition dist_le (a b : option root) : Prop :=
  match a, b with
  | _, None => True
  | None, Some _ => False
  | Some x, Some y => (radicand x <= radicand y)%Q
  end.

(** The box of the ball detected on frame [t], if there is one. *)
Definition detection (ball_positions : list (dict bbox)) (t : nat) : option bbox :=
  match nth_error ball_positions t with
  | Some d => get_opt d 1
  | None => None
  end.

(** [out] fills the gaps of [ball_positions]: every frame has a box; on each
    coordinate a detected value is kept, a value missing between two detections
    lies on the line through the nearest earlier and the nearest later one, and
    a value missing before the first detection repeats it. *)
Definition interpolation_of (ball_positions out : list (dict bbox)) : Prop :=
  length out = length ball_positions
  /\ forall t, (t < length ball_positions)%nat ->
       exists b, nth_error out t = Some [(1, b)]
         /\ forall ch,
              (forall bt, detection ball_positions t = Some bt ->
                          coord ch b = coord ch bt)
              /\ (forall a e ba be,
                    (a < t < e)%nat ->
                    detection ball_positions a = Some ba ->
                    detection ball_positions e = Some be ->
                    (forall j, (a < j < e)%nat -> detection ball_positions j = None) ->
                    (coord ch b ==
                     coord ch ba + (coord ch be - coord ch ba)
                       * (inject_Z (Z.of_nat t - Z.of_nat a)
                          / inject_Z (Z.of_nat e - Z.of_nat a)))%Q)
              /\ (forall e be,
                    (t < e)%nat ->
                    detection ball_positions e = Some be ->
                    (forall j, (j < e)%nat -> detection ball_positions j = None) ->
                    coord ch b = coord ch be).

(** [m] is the smallest distance from [p] to any court keypoint; it is
    infinite when there is no keypoint. *)
Definition is_min_distance (keypoints : list Q) (p : point) (m : option root) : Prop :=
  (forall k q, keypoint_at keypoints k = Some q -> dist_le m (Some (measure_distance p q)))
  /\ match m with
     | None => forall k, keypoint_at keypoints k = None
     | Some r => exists k q, keypoint_at keypoints k = Some q /\ measure_distance p q = r
     end.

(** The vertical midpoint of the ball on frame [t] of a trajectory without
    gaps. *)
Definition mid_y (trajectory : list bbox) (t : nat) : Q :=
  match nth_error trajectory t with
  | Some b => ((coord Y1 b + coord Y2 b) / 2)%Q
  | None => 0%Q
  end.

(** The trailing moving average of [mid_y] over five frames, over the [t + 1]
    frames there are when [t < 4]. *)
Definition smoothed (trajectory : list bbox) (t : nat) : Q :=
  let first := (t - 4)%nat in
  let samples := (t + 1 - first)%nat in
  (Pandas.Qsum (map (mid_y trajectory) (seq first samples))
   / inject_Z (Z.of_nat samples))%Q.

(** The first difference of the smoothed midpoint, for [t >= 1]. *)
Definition delta (trajectory : list bbox) (t : nat) : Q :=
  (smoothed trajectory t - smoothed trajectory (t - 1))%Q.

Definition opposite_signs (a b : Q) : Prop :=
  (0 < a /\ b < 0)%Q \/ (a < 0 /\ 0 < b)%Q.

Definition same_sign (a b : Q) : bool :=
  (Qltb 0 a && Qltb 0 b) || (Qltb a 0 && Qltb b 0).

(** How many of the frames [i+1 .. i+30] move in the direction taken on frame
    [i+1]. *)
Definition persistence (trajectory : list bbox) (i : nat) : nat :=
  length (filter (fun j => same_sign (delta trajectory (i + 1)) (delta trajectory j))
                 (seq (i + 1) 30)).

(** Frame [i] is a shot: a reversal of the direction on [i], [i+1] that
    persists on 25 of the next 30 frames. *)
Definition is_shot (trajectory : list bbox) (i : nat) : Prop :=
  (1 <= i)%nat /\ (i + 31 <= length trajectory)%nat
  /\ opposite_signs (delta trajectory i) (delta trajectory (i + 1))
  /\ (25 <= persistence trajectory i)%nat.

(** ** The statistics of a list of shots

    The shots of a run, in the order of the loop, and what the specification
    calls the cumulative counts and sums of a player. *)
Section Tally.
Import Main.
Local Open Scope float_scope.

(** [shots] are the measurements of the consecutive pairs of
    [ball_shot_frames]. *)
Definition measured (c : constants) (width : Z)
    (players ball : list (dict position)) (ball_shot_frames : list Z)
    (shots : list shot) : Prop :=
  (length shots = length ball_shot_frames - 1)%nat
  /\ forall k s, nth_error shots k = Some s ->
       exists start_frame end_frame,
         nth_error ball_shot_frames k = Some start_frame
         /\ nth_error ball_shot_frames (k + 1) = Some end_frame
         /\ measure_shot c width players ball start_frame end_frame = Ok s.

(** The shots that start on frame [f] or before. *)
Definition up_to (f : Z) (shots : list shot) : list shot :=
  filter (fun s => (shot_frame s <=? f)%Z) shots.

(** The number of shots of player [p]. *)
Definition shot_count (p : Z) (shots : list shot) : Z :=
  Z.of_nat (length (filter (fun s => (player_shot_ball s =? p)%Z) shots)).

(** The number of shots during which player [p] was the opponent of the
    striker. *)
Definition non_striker_count (p : Z) (shots : list shot) : Z :=
  Z.of_nat (length (filter (fun s => (opponent_player_id s =? p)%Z) shots)).

(** The sum of the ball speeds of the shots of player [p], added in the order
    of the shots. *)
Definition shot_speed_sum (p : Z) (shots : list shot) : float :=
  fold_left (fun acc s => if (player_shot_ball s =? p)%Z
                          then acc + speed_of_ball_shot s else acc) shots 0.

(** The sum of the speeds of player [p] over the shots of the opponent. *)
Definition movement_speed_sum (p : Z) (shots : list shot) : float :=
  fold_left (fun acc s => if (opponent_player_id s =? p)%Z
                          then acc + speed_of_opponent s else acc) shots 0.

Definition last_shot_speed_of (p : Z) (shots : list shot) : float :=
  fold_left (fun acc s => if (player_shot_ball s =? p)%Z
                          then speed_of_ball_shot s else acc) shots 0.

Definition last_player_speed_of (p : Z) (shots : list shot) : float :=
  fold_left (fun acc s => if (opponent_player_id s =? p)%Z
                          then speed_of_opponent s else acc) shots 0.

Definition tally_player (p : Z) (shots : list shot) : player_stats :=
  {| number_of_shots := shot_count p shots;
     total_shot_speed := shot_speed_sum p shots;
     last_shot_speed := last_shot_speed_of p shots;
     total_player_speed := movement_speed_sum p shots;
     last_player_speed := last_player_speed_of p shots |}.

Definition tally (shots : list shot) : cells :=
  {| player_1 := tally_player 1 shots; player_2 := tally_player 2 shots |}.

(** The cells of a player, the average columns of a player. *)
Definition player_cells (p : Z) (cs : cells) : player_stats :=
  if (p =? 1)%Z then player_1 cs else player_2 cs.

Definition average_shot_speed (p : Z) (row : table_row) : float :=
  if (p =? 1)%Z then player_1_average_shot_speed row
  else player_2_average_shot_speed row.

Definition average_player_speed (p : Z) (row : table_row) : float :=
  if (p =? 1)%Z then player_1_average_player_speed row
  else player_2_average_player_speed row.

(** No sum and no speed of the cells is NaN. *)
Definition no_nan_player (ps : player_stats) : bool :=
  negb (PrimFloat.is_nan (total_shot_speed ps))
  && negb (PrimFloat.is_nan (last_shot_speed ps))
  && negb (PrimFloat.is_nan (total_player_speed ps))
  && negb (PrimFloat.is_nan (last_player_speed ps)).

Definition no_nan (cs : cells) : bool :=
  no_nan_player (player_1 cs) && no_nan_player (player_2 cs).

End Tally.

(* ================================================================== *)
(** * Auxiliary notions of the proofs *)
(* ================================================================== *)

(** What [distances] holds for an entry of [player_dict]. *)
Definition distance_of (kps : list Q) (item : Z * bbox) (d : Z * option root) : Prop :=
  fst d = fst item /\ is_min_distance kps (get_center_of_bbox (snd item)) (snd d).

(** The cell of a column on a row of its index. *)
Definition cell (s : Pandas.series) (j : Z) : option Q := nth (Z.to_nat j) s None.

(** The decisions of one pass of the loop of [get_ball_shot_frames], as
    functions of the column [delta_y]. *)
Definition reversal_down (s : Pandas.series) (i : Z) : bool :=
  Pandas.gt0 (cell s i) && Pandas.lt0 (cell s (i + 1)).

Definition reversal_up (s : Pandas.series) (i : Z) : bool :=
  Pandas.lt0 (cell s i) && Pandas.gt0 (cell s (i + 1)).

Definition follows (s : Pandas.series) (i j : Z) : bool :=
  (reversal_down s i && (Pandas.gt0 (cell s i) && Pandas.lt0 (cell s j)))
  || (reversal_up s i && (Pandas.lt0 (cell s i) && Pandas.gt0 (cell s j))).

Definition change_count_of (s : Pandas.series) (i : Z) : Z :=
  Z.of_nat (length (filter (follows s i) (range (i + 1) (i + lookahead + 1)))).

Definition shot_at (s : Pandas.series) (i : Z) : bool :=
  (reversal_down s i || reversal_up s i)
  && (minimum_change_frames_for_hit - 1 <? change_count_of s i).

Definition mark (s : Pandas.series) (ball_hit : list Z) (i : Z) : list Z :=
  if shot_at s i then Pandas.set_loc ball_hit (Z.to_nat i) 1 else ball_hit.

(** The rows that the loop appends for [shots] once it has processed [done]. *)
Fixpoint snapshots (done shots : list Main.shot) : list Main.snapshot :=
  match shots with
  | [] => []
  | s :: rest =>
      (Main.shot_frame s, tally (done ++ [s])) :: snapshots (done ++ [s]) rest
  end.

(** The cells of the last row of the statistics on frame [f] or before. *)
Fixpoint latest (rows : list Main.snapshot) (f : Z) : option Main.cells :=
  match rows with
  | [] => None
  | r :: rest =>
      match latest rest f with
      | Some cs => Some cs
      | None => if fst r <=? f then Some (snd r) else None
      end
  end.

(** The cells of the first row of the statistics on frame [f]. *)
Definition lookup (rows : list Main.snapshot) (f : Z) : option Main.cells :=
  match filter (fun r => fst r =? f) rows with
  | [] => None
  | r :: _ => Some (snd r)
  end.

(** A player without a shot has a sum of shot speeds that is still zero. *)
Definition zero_sum_without_shot (cs : Main.cells) : Prop :=
  forall p, p = 1 \/ p = 2 ->
    Main.number_of_shots (player_cells p cs) = 0 ->
    Main.total_shot_speed (player_cells p cs) = 0%float.

(* ================================================================== *)
(** * mini_court/mini_court.py: the getters *)
(* ================================================================== *)

Definition get_start_point_of_mini_court (mc : mini_court) : Z * Z :=
  (court_start_x mc, court_start_y mc).

Definition get_court_drawing_keypoints (mc : mini_court) : list Q :=
  drawing_key_points mc.

(* ================================================================== *)
(** * utils/bbox_utils.py: the two definitions of [get_center_of_bbox] *)
(* ================================================================== *)

(** The module defines [get_center_of_bbox] twice; the second definition, at
    the end of the file, is the one in force once the module is loaded.  A box
    is taken here as the list it is in Python, of any length. *)

(** [x1, y1, x2, y2 = bbox]: [ValueError] unless there are exactly four
    elements. *)
Definition unpack4 (l : list Q) : result bbox :=
  match l with
  | [x1; y1; x2; y2] => Ok (x1, y1, x2, y2)
  | _ => Raise ValueError
  end.

(** Lines 1 to 25. *)
Definition get_center_of_bbox_first (l : list Q) : result point :=
  '(x1, y1, x2, y2) <- unpack4 l ;;
  let center_x := py_int ((x1 + x2) / 2)%Q in
  let center_y := py_int ((y1 + y2) / 2)%Q in
  Ok (center_x, center_y).

(** Lines 144 to 163. *)
Definition get_center_of_bbox_second (l : list Q) : result point :=
  b0 <- index l 0 ;;
  b2 <- index l 2 ;;
  b1 <- index l 1 ;;
  b3 <- index l 3 ;;
  Ok (py_int ((b0 + b2) / 2)%Q, py_int ((b1 + b3) / 2)%Q).

(* ================================================================== *)
(** * The detection layer of the trackers *)
(* ================================================================== *)

From Stdlib Require String DecimalString.
Import String.StringSyntax.
Delimit Scope string_scope with string.

Module Detect.

(** What the detection layer raises: the exceptions of the analysis, the
    [AttributeError] of a method called on [None] and the [FileNotFoundError]
    of [open]. *)
Inductive signal : Type :=
| Python (e : Py.exn)
| AttributeError
| FileNotFoundError.

Inductive outcome (A : Type) : Type :=
| Done (a : A)
| Failed (s : signal).

Arguments Done {A} a.
Arguments Failed {A} s.

(** One element of [results.boxes]: [box.id] is [None] when the tracker has
    given the detection no identity, a one-element tensor otherwise; [box.xyxy]
    holds one box; [box.cls] holds the class as a float. *)
Record yolo_box : Type := { box_id : option Q; xyxy : bbox; cls : Q }.

(** The first element of what the model returns for one frame. *)
Record yolo_results : Type := { names : dict String.string; boxes : list yolo_box }.

(** [id_name_dict[object_cls_id]]: the class is a float, which finds the
    integer key it is equal to. *)
Definition class_name (id_name_dict : dict String.string) (object_cls_id : Q)
  : outcome String.string :=
  if Qeq_bool (inject_Z (Qtrunc object_cls_id)) object_cls_id
  then match get_opt id_name_dict (Qtrunc object_cls_id) with
       | Some name => Done name
       | None => Failed (Python KeyError)
       end
  else Failed (Python KeyError).

(** [for box in boxes: acc = body(acc, box)], stopping at the first
    exception. *)
Fixpoint each {A S : Type} (body : S -> A -> outcome S) (l : list A) (acc : S)
  : outcome S :=
  match l with
  | [] => Done acc
  | x :: rest =>
      match body acc x with
      | Done acc' => each body rest acc'
      | Failed s => Failed s
      end
  end.

(** The stub files: what [pickle.dump] has written under a path. *)
Definition files : Type := list (String.string * list (dict bbox)).

Fixpoint read (fs : files) (path : String.string) : option (list (dict bbox)) :=
  match fs with
  | [] => None
  | (p, content) :: rest => if String.eqb p path then Some content else read rest path
  end.

Fixpoint write (fs : files) (path : String.string) (content : list (dict bbox)) : files :=
  match fs with
  | [] => [(path, content)]
  | (p, old) :: rest =>
      if String.eqb p path then (p, content) :: rest else (p, old) :: write rest path content
  end.

Section World.
(** The state that [model.track(..., persist=True)] keeps from one call to the
    next. *)
Variable tracker : Type.

(** What a detection can read and change: the state of the tracker and the
    stub files. *)
Record world : Type := { tracks : tracker; disk : files }.

(** A computation of the detection layer; what it has changed stays changed
    when it raises. *)
Definition io (A : Type) : Type := world -> outcome A * world.

Definition ret {A : Type} (a : A) : io A := fun w => (Done a, w).

Definition raise {A : Type} (s : signal) : io A := fun w => (Failed s, w).

Definition bind {A B : Type} (m : io A) (k : A -> io B) : io B :=
  fun w => match m w with
           | (Done a, w') => k a w'
           | (Failed s, w') => (Failed s, w')
           end.

(** [with open(path, 'rb') as f: pickle.load(f)]. *)
Definition load (path : String.string) : io (list (dict bbox)) :=
  fun w => match read (disk w) path with
           | Some content => (Done content, w)
           | None => (Failed FileNotFoundError, w)
           end.

(** [with open(path, 'wb') as f: pickle.dump(content, f)], in a directory that
    exists. *)
Definition dump (path : String.string) (content : list (dict bbox)) : io unit :=
  fun w => (Done tt, {| tracks := tracks w; disk := write (disk w) path content |}).

(** The loop of [detect_frames]: the state is the list of the detections. *)
Fixpoint detect_each {image : Type} (detect_frame : image -> io (dict bbox))
    (frames : list image) (detections : list (dict bbox)) : io (list (dict bbox)) :=
  match frames with
  | [] => ret detections
  | frame :: rest =>
      bind (detect_frame frame)
           (fun player_dict => detect_each detect_frame rest (detections ++ [player_dict]))
  end.

(** [detect_frames] of both trackers, which differ in [self.detect_frame]
    only. *)
Definition detect_frames_with {image : Type} (detect_frame : image -> io (dict bbox))
    (frames : list image) (read_from_stub : bool) (stub_path : option String.string)
  : io (list (dict bbox)) :=
  match read_from_stub, stub_path with
  | true, Some path => load path
  | _, _ =>
      bind (detect_each detect_frame frames [])
           (fun detections =>
              match stub_path with
              | Some path => bind (dump path detections) (fun _ => ret detections)
              | None => ret detections
              end)
  end.

End World.

Arguments tracks {tracker} w.
Arguments disk {tracker} w.
Arguments ret {tracker A} a.
Arguments raise {tracker A} s.
Arguments bind {tracker A B} m k.
Arguments load {tracker} path.
Arguments dump {tracker} path content.
Arguments detect_each {tracker image} detect_frame frames detections.
Arguments detect_frames_with {tracker image} detect_frame frames read_from_stub stub_path.

End Detect.

Module PlayerTracker.
Import Detect.

(** The body of the loop of [detect_frame]: the state is [player_dict]. *)
Definition box_step (id_name_dict : dict String.string) (player_dict : dict bbox)
    (box : yolo_box) : outcome (dict bbox) :=
  match box_id box with
  | None => Failed AttributeError
  | Some i =>
      let track_id := Qtrunc i in
      let result := xyxy box in
      match class_name id_name_dict (cls box) with
      | Done object_cls_name =>
          if String.eqb object_cls_name "person"%string
          then Done (set player_dict track_id result)
          else Done player_dict
      | Failed s => Failed s
      end
  end.

(** [detect_frame] on what the model has returned for the frame. *)
Definition player_dict_of (results : yolo_results) : outcome (dict bbox) :=
  each (box_step (names results)) (boxes results) [].

Section Model.
Variable image : Type.
Variable tracker : Type.
(** [self.model.track(frame, persist=True)[0]]. *)
Variable track : tracker -> image -> yolo_results * tracker.

Definition detect_frame (frame : image) : io tracker (dict bbox) :=
  fun w =>
    let '(results, t) := track (tracks w) frame in
    (player_dict_of results, {| tracks := t; disk := disk w |}).

Definition detect_frames (frames : list image) (read_from_stub : bool)
    (stub_path : option String.string) : io tracker (list (dict bbox)) :=
  detect_frames_with detect_frame frames read_from_stub stub_path.

End Model.

End PlayerTracker.

Module BallTracker.
Import Detect.

(** [detect_frame] on what the model has returned for the frame: every box is
    written under the key 1. *)
Definition ball_dict_of (results : yolo_results) : dict bbox :=
  fold_left (fun ball_dict box => set ball_dict 1 (xyxy box)) (boxes results) [].

Section Model.
Variable image : Type.
Variable tracker : Type.
(** [self.model.predict(frame, conf=0.15)[0]]. *)
Variable predict : image -> yolo_results.

Definition detect_frame (frame : image) : io tracker (dict bbox) :=
  ret (ball_dict_of (predict frame)).

Definition detect_frames (frames : list image) (read_from_stub : bool)
    (stub_path : option String.string) : io tracker (list (dict bbox)) :=
  detect_frames_with detect_frame frames read_from_stub stub_path.

End Model.

End BallTracker.

(* ================================================================== *)
(** * The drawing layer *)
(* ================================================================== *)

Module Canvas.

Definition pixel : Type := (Z * Z)%type.
Definition colour : Type := (Z * Z * Z)%type.

(** The calls of OpenCV that draw on an array, with their arguments;
    [Blend] is the white rectangle that [draw_background_rectangle] mixes into
    the copy of a frame. *)
Inductive command : Type :=
| PutText (text : String.string) (org : pixel) (font : Z) (font_scale : Q)
          (color : colour) (thickness : Z)
| Rectangle (pt1 pt2 : pixel) (color : colour) (thickness : Z)
| Circle (center : pixel) (radius : Z) (color : colour) (thickness : Z)
| Line (pt1 pt2 : pixel) (color : colour) (thickness : Z)
| Blend (pt1 pt2 : pixel) (alpha : Q).

(** An array is known by what has been drawn on it since it was read from the
    video.  The arrays live in a store; a frame is the address of one, so that
    two lists of frames can share their arrays. *)
Definition canvas : Type := list command.
Definition store : Type := list canvas.
Definition frame : Type := nat.

Fixpoint update (st : store) (f : frame) (g : canvas -> canvas) : store :=
  match st, f with
  | [], _ => []
  | cv :: rest, O => g cv :: rest
  | cv :: rest, S f' => cv :: update rest f' g
  end.

(** A drawing call: it changes the array in place. *)
Definition paint (f : frame) (cmd : command) (st : store) : store :=
  update st f (fun cv => cv ++ [cmd]).

(** [frame.copy()] followed by the drawing of [cmds] on the copy: a new
    array. *)
Definition copy_with (f : frame) (cmds : list command) (st : store) : frame * store :=
  (length st, st ++ [nth f st [] ++ cmds]).

(** [f"{prefix}{n}"]. *)
Definition label (prefix : String.string) (n : Z) : String.string :=
  String.append prefix (DecimalString.NilEmpty.string_of_int (Z.to_int n)).

(** A coordinate handed to OpenCV as it is: it has to be an integer. *)
Definition as_int (q : Q) : result Z :=
  if Qeq_bool (inject_Z (Qtrunc q)) q then Ok (Qtrunc q) else Raise TypeError.

Definition FONT_HERSHEY_SIMPLEX : Z := 0.

(** [zip(a, b)]. *)
Definition zip {A B : Type} (a : list A) (b : list B) : list (A * B) := combine a b.

(** The two calls of [draw_bboxes] for one entry of a frame, in their order. *)
Definition bbox_commands (prefix : String.string) (color : colour) (item : Z * bbox)
  : list command :=
  let '(track_id, b) := item in
  let '(x1, y1, x2, y2) := b in
  [ PutText (label prefix track_id)
      (Qtrunc (coord X1 b), Qtrunc (coord Y1 b - 10)%Q)
      FONT_HERSHEY_SIMPLEX (9 # 10) color 2;
    Rectangle (Qtrunc x1, Qtrunc y1) (Qtrunc x2, Qtrunc y2) color 2 ].

(** Drawing calls made one after the other on the same array. *)
Definition paint_all (f : frame) (cmds : list command) (st : store) : store :=
  fold_left (fun st cmd => paint f cmd st) cmds st.

Definition draw_bbox (prefix : String.string) (color : colour) (fr : frame)
    (st : store) (item : Z * bbox) : store :=
  paint_all fr (bbox_commands prefix color item) st.

(** [draw_bboxes] of both trackers, which differ in the text and in the
    colour.  The state of the loop is [output_video_frames] and the store. *)
Definition draw_bboxes_with (prefix : String.string) (color : colour)
    (video_frames : list frame) (detections : list (dict bbox)) (st : store)
  : list frame * store :=
  fold_left
    (fun acc pair =>
       let '(output_video_frames, st) := acc in
       let '(fr, player_dict) := pair in
       (output_video_frames ++ [fr],
        fold_left (draw_bbox prefix color fr) (items player_dict) st))
    (zip video_frames detections) ([], st).

End Canvas.

Module PlayerTrackerDrawing.
Import Canvas.

(** [PlayerTracker.draw_bboxes]. *)
Definition draw_bboxes (video_frames : list frame) (player_detections : list (dict bbox))
    (st : store) : list frame * store :=
  draw_bboxes_with "Player ID: "%string (0, 0, 255) video_frames player_detections st.

End PlayerTrackerDrawing.

Module BallTrackerDrawing.
Import Canvas.

(** [BallTracker.draw_bboxes]. *)
Definition draw_bboxes (video_frames : list frame) (player_detections : list (dict bbox))
    (st : store) : list frame * store :=
  draw_bboxes_with "Ball ID: "%string (0, 255, 255) video_frames player_detections st.

End BallTrackerDrawing.

Module MiniCourtDrawing.
Import Canvas.

(** The first loop of [draw_court]: a disc on every key point. *)
Definition key_point_step (mc : mini_court) (fr : frame) (st : store) (i : Z)
  : result store :=
  kx <- index (drawing_key_points mc) i ;;
  ky <- index (drawing_key_points mc) (i + 1) ;;
  let x := Qtrunc kx in
  let y := Qtrunc ky in
  Ok (paint fr (Circle (x, y) 5 (0, 0, 255) (-1)) st).

(** The second loop of [draw_court]: the lines of the court. *)
Definition line_step (mc : mini_court) (fr : frame) (st : store) (line : Z * Z)
  : result store :=
  sx <- index (drawing_key_points mc) (fst line * 2) ;;
  sy <- index (drawing_key_points mc) (fst line * 2 + 1) ;;
  let start_point := (Qtrunc sx, Qtrunc sy) in
  ex <- index (drawing_key_points mc) (snd line * 2) ;;
  ey <- index (drawing_key_points mc) (snd line * 2 + 1) ;;
  let end_point := (Qtrunc ex, Qtrunc ey) in
  Ok (paint fr (Line start_point end_point (0, 0, 0) 2) st).

(** [MiniCourt.draw_court]: draws on the frame and returns it.  The ends of
    the net take their first coordinate from the key points as it is; OpenCV
    refuses it when it is not an integer. *)
Definition draw_court (mc : mini_court) (fr : frame) (st : store) : result (frame * store) :=
  st <- for_each (key_point_step mc fr)
          (range2 0 (Z.of_nat (length (drawing_key_points mc)))) st ;;
  st <- for_each (line_step mc fr) (lines mc) st ;;
  k0 <- index (drawing_key_points mc) 0 ;;
  k1 <- index (drawing_key_points mc) 1 ;;
  k5 <- index (drawing_key_points mc) 5 ;;
  k2 <- index (drawing_key_points mc) 2 ;;
  k1' <- index (drawing_key_points mc) 1 ;;
  k5' <- index (drawing_key_points mc) 5 ;;
  net_x0 <- as_int k0 ;;
  net_x1 <- as_int k2 ;;
  let net_start_point := (net_x0, Qtrunc ((k1 + k5) / 2)%Q) in
  let net_end_point := (net_x1, Qtrunc ((k1' + k5') / 2)%Q) in
  Ok (fr, paint fr (Line net_start_point net_end_point (255, 0, 0) 2) st).

(** [MiniCourt.draw_background_rectangle]: the frame is copied and the copy
    returned. *)
Definition draw_background_rectangle (mc : mini_court) (fr : frame) (st : store)
  : frame * store :=
  copy_with fr [Blend (start_x mc, start_y mc) (end_x mc, end_y mc) (1 # 2)] st.

(** The body of the loop of [draw_mini_court]: the state is [output_frames]
    and the store. *)
Definition mini_court_step (mc : mini_court) (acc : list frame * store) (fr : frame)
  : result (list frame * store) :=
  let '(output_frames, st) := acc in
  let '(fr, st) := draw_background_rectangle mc fr st in
  '(fr, st) <- draw_court mc fr st ;;
  Ok (output_frames ++ [fr], st).

(** [MiniCourt.draw_mini_court]. *)
Definition draw_mini_court (mc : mini_court) (frames : list frame) (st : store)
  : result (list frame * store) :=
  for_each (mini_court_step mc) frames ([], st).

(** The inner loop of [draw_points_on_mini_court]. *)
Definition draw_point (color : colour) (fr : frame) (st : store) (item : Z * point) : store :=
  let '(_, position) := item in
  let '(x, y) := position in
  let x := Qtrunc x in
  let y := Qtrunc y in
  paint fr (Circle (x, y) 5 color (-1)) st.

(** The outer loop of [draw_points_on_mini_court]. *)
Definition points_step (postions : list (dict point)) (color : colour)
    (st : store) (item : Z * frame) : result store :=
  let '(frame_num, fr) := item in
  d <- index postions frame_num ;;
  Ok (fold_left (draw_point color fr) (items d) st).

(** [MiniCourt.draw_points_on_mini_court]: on an exception the discs drawn on
    the earlier frames stay; the store that is returned with the exception is
    that of the last frame that was completed. *)
Fixpoint draw_points_loop (postions : list (dict point)) (color : colour)
    (l : list (Z * frame)) (st : store) : result unit * store :=
  match l with
  | [] => (Ok tt, st)
  | item :: rest =>
      match points_step postions color st item with
      | Ok st' => draw_points_loop postions color rest st'
      | Raise e => (Raise e, st)
      end
  end.

Definition draw_points_on_mini_court (frames : list frame) (postions : list (dict point))
    (color : colour) (st : store) : result (list frame) * store :=
  match draw_points_loop postions color (enumerate frames) st with
  | (Ok _, st') => (Ok frames, st')
  | (Raise e, st') => (Raise e, st')
  end.

End MiniCourtDrawing.

(* ================================================================== *)
(** * main.py: from the stubs to the conversion *)
(* ================================================================== *)

Module Pipeline.
Import Detect.

Section Main.
Variable image : Type.
Variable tracker : Type.
Variable track : tracker -> image -> yolo_results * tracker.
Variable predict : image -> yolo_results.
(** [frame.shape[1]]. *)
Variable width : image -> Z.
(** [court_line_detector.predict(frame)], of a module that is not modelled. *)
Variable court_keypoints_of : image -> list Q.
Variable c : constants.

(** A step of the analysis run inside the detection layer. *)
Definition lift {A : Type} (r : Py.result A) : io tracker A :=
  fun w => (match r with Ok a => Done a | Raise e => Failed (Python e) end, w).

(** Lines 18 to 65 of [main], on the frames that [read_video] has returned.
    Without frames [main] prints an error and returns.  With frames, the
    detections are read from the two stubs and the result is the list of shot
    frames with the two lists of positions on the mini court, which the rest of
    [main] turns into statistics and drawings. *)
Definition main_until_conversion (video_frames : list image)
  : io tracker (option (list Z * (list (dict point) * list (dict point)))) :=
  match video_frames with
  | [] => ret None
  | first_frame :: _ =>
      bind (PlayerTracker.detect_frames image tracker track video_frames true
              (Some "tracker_stubs/player_detections.pkl"%string))
        (fun player_detections =>
      bind (BallTracker.detect_frames image tracker predict video_frames true
              (Some "tracker_stubs/ball_detections.pkl"%string))
        (fun ball_detections =>
      bind (lift (interpolate_ball_positions ball_detections))
        (fun ball_detections =>
      let court_keypoints := court_keypoints_of first_frame in
      bind (lift (choose_and_filter_players court_keypoints player_detections))
        (fun player_detections =>
      bind (lift (MiniCourt c (width first_frame)))
        (fun mini_court =>
      bind (lift (get_ball_shot_frames ball_detections))
        (fun ball_shot_frames =>
      bind (lift (convert_bounding_boxes_to_mini_court_coordinates c mini_court
                    player_detections ball_detections court_keypoints))
        (fun out => ret (Some (ball_shot_frames, out)))))))))
  end.

End Main.

End Pipeline.

(* ================================================================== *)
(** * Further notions of the proofs *)
(* ================================================================== *)

(** The vertical distance from [pt] to the keypoint with number [j]. *)
Definition vertical_distance (pt : point) (keypoints : list Q) (j : Z) : result Q :=
  ky <- index keypoints (j * 2 + 1) ;; Ok (Qabs (snd pt - ky)).

(** What the loop of [get_closest_keypoint_index] holds once it has seen the
    candidates [seen]. *)
Definition closest_so_far (pt : point) (keypoints : list Q) (seen : list Z)
    (st : option Q * Z) : Prop :=
  match fst st with
  | None => seen = []
  | Some d =>
      exists n,
        nth_error seen n = Some (snd st)
        /\ vertical_distance pt keypoints (snd st) = Ok d
        /\ forall m j dj,
             nth_error seen m = Some j ->
             vertical_distance pt keypoints j = Ok dj ->
             (d <= dj)%Q /\ ((m < n)%nat -> (d < dj)%Q)
  end.


(** The dictionaries of ball positions that one frame appends. *)
Definition ball_entry (d : dict point) : Prop := exists q, d = [(1, q)].

(** [box] is a person that the tracker follows under [track_id]. *)
Definition person_with (id_name_dict : dict String.string) (track_id : Z)
    (box : Detect.yolo_box) : bool :=
  match Detect.box_id box, Detect.class_name id_name_dict (Detect.cls box) with
  | Some i, Detect.Done name => (Qtrunc i =? track_id) && String.eqb name "person"%string
  | _, _ => false
  end.

(** The columns of the frame that [interpolate_ball_positions] builds, after
    the two fills. *)
Definition filled_column (ball_positions : list (dict bbox)) (ch : channel) : Pandas.series :=
  Pandas.bfill (Pandas.interpolate
    (map (option_map (coord ch)) (map (fun x => get_opt x 1) ball_positions))).

(** The drawings of a list of frames, each with its own commands. *)
Definition paint_frames (l : list (Canvas.frame * list Canvas.command)) (st : Canvas.store)
  : Canvas.store :=
  fold_left (fun st pair => Canvas.paint_all (fst pair) (snd pair) st) l st.

(** A cell and its image under [q |-> a * q + c]; a missing cell has a missing
    image. *)
Definition affine (a c : Q) (x x' : option Q) : Prop :=
  match x, x' with
  | Some q, Some q' => (q' == a * q + c)%Q
  | None, None => True
  | _, _ => False
  end.

(** Two sequences of ball detections with the same frames without ball, in
    which the sum [y1 + y2] of the second is the image of that of the first
    under [s |-> a * s + c]: the vertical motion of the second is that of the
    first stretched, shifted or, for a negative [a], turned upside down; the
    horizontal coordinates are free. *)
Definition same_vertical_motion (a c : Q) (ball_positions ball_positions' : list (dict bbox))
  : Prop :=
  Forall2 (fun d d' =>
             affine a c
               (option_map (fun b => coord Y1 b + coord Y2 b)%Q (get_opt d 1))
               (option_map (fun b => coord Y1 b + coord Y2 b)%Q (get_opt d' 1)))
          ball_positions ball_positions'.

(** The reflection of a box in the horizontal line [y = h / 2]. *)
Definition mirror (h : Q) (b : bbox) : bbox :=
  let '(x1, y1, x2, y2) := b in (x1, h - y2, x2, h - y1)%Q.

(* ================================================================== *)
(** * Concrete inputs *)
(* ================================================================== *)

(** A mini court for a frame 1920 pixels wide. *)
Definition empty_court : mini_court := {|
  drawing_rectangle_width := 0; drawing_rectangle_height := 0;
  buffer := 0; padding_court := 0;
  start_x := 0; start_y := 0; end_x := 0; end_y := 0;
  court_start_x := 0; court_start_y := 0; court_end_x := 0; court_end_y := 0;
  court_drawing_width := 0; drawing_key_points := []; lines := []
|}.

Definition court_1920 : mini_court :=
  match MiniCourt court_constants 1920 with
  | Ok mc => mc
  | Raise _ => empty_court
  end.

(** A box with integer corners. *)
Definition box (a b c d : Z) : bbox := (inject_Z a, inject_Z b, inject_Z c, inject_Z d).

(** Court keypoints of an original frame: the corners 0 to 3, the service-line
    midpoints 12 and 13, the others left at the origin. *)
Definition example_keypoints : list Q :=
  map inject_Z [100; 200; 500; 200; 100; 800; 500; 800;
                0; 0; 0; 0; 0; 0; 0; 0; 0; 0; 0; 0; 0; 0; 0; 0;
                300; 350; 300; 650].

(** One frame: player 1 stands with the feet exactly on keypoint 0,
    [(100, 200)]; player 2 is near the far baseline. *)
Definition players_at_keypoint : list (dict bbox) :=
  [ [(1, box 90 100 110 200); (2, box 290 700 310 800)] ].

Definition ball_one_frame : list (dict bbox) := [ [(1, box 95 300 105 310)] ].

(** The end-to-end scenario of the specification: sixty frames, the shots at
    frames 10 and 58, the ball at [(100, 100)] and [(100, 400)] on these two
    frames, the two players standing still. *)
Definition scenario_ball_position (f : Z) : Main.position :=
  if f =? 10 then (100, 100)%float
  else if f =? 58 then (100, 400)%float
  else (0, 0)%float.

Definition scenario_ball : list (dict Main.position) :=
  map (fun f => [(1, scenario_ball_position f)]) (range 0 60).

Definition scenario_players (id_a id_b : Z) : list (dict Main.position) :=
  map (fun _ => [(id_a, (90, 110)%float); (id_b, (100, 300)%float)]) (range 0 60).

(** What the loop measures for the shot of frames (10, 58) of the scenario when
    the players are 1 and 2: player 1 is nearest to the ball. *)
Definition scenario_shot : Main.shot := {|
  Main.shot_frame := 10;
  Main.player_shot_ball := 1;
  Main.opponent_player_id := 2;
  Main.speed_of_ball_shot := (300 * 10.97 / 210 / 2 * 3.6)%float;
  Main.speed_of_opponent := 0%float
|}.

(** Two frames; the tracker has lost player 1 on the second one. *)
Definition players_one_lost : list (dict bbox) :=
  [ [(1, box 90 100 110 200); (2, box 290 700 310 800)];
    [(2, box 290 700 310 800)] ].

Definition ball_two_frames : list (dict bbox) :=
  [ [(1, box 95 300 105 310)]; [(1, box 95 300 105 310)] ].

(** The scenario with player 2, the opponent of the shot of frame 10, lost on
    frame 58. *)
Definition scenario_players_one_lost : list (dict Main.position) :=
  map (fun f => if f =? 58 then [(1, (90, 110)%float)]
                else [(1, (90, 110)%float); (2, (100, 300)%float)])
      (range 0 60).

(** Fifty-one frames of player 1: a box 10 pixels high on the frames 0 to 49,
    99 pixels high on frame 50. *)
Definition tall_on_frame_50 : list (dict bbox) :=
  map (fun f => if f =? 50 then [(1, box 0 0 10 99)] else [(1, box 0 0 10 10)])
      (range 0 51).

(** Three people on the first frame: a spectator in a corner of the image and
    the two players. *)
Definition three_people : dict bbox :=
  [(5, box 900 0 920 40); (7, box 90 100 110 200); (12, box 290 700 310 800)].

(** The two inputs of the interpolation property of the specification. *)
Definition ball_gap_in_the_middle : list (dict bbox) :=
  [ [(1, box 0 0 2 2)]; []; [(1, box 4 4 6 6)] ].

Definition ball_gap_at_the_start : list (dict bbox) :=
  [ []; [(1, box 4 4 6 6)] ].

(** A ball that goes down the image for forty frames and then up again, over a
    hundred frames. *)
Definition zigzag_trajectory : list bbox :=
  map (fun t => let y := if t <? 40 then 10 * t else 10 * (80 - t) in box 0 y 2 (y + 2))
      (range 0 100).

Definition zigzag_ball : list (dict bbox) := map (fun b => [(1, b)]) zigzag_trajectory.

(** The rows of statistics of the scenario with the players 1 and 2. *)
Definition scenario_rows : list Main.snapshot :=
  [ Main.initial_snapshot;
    (10, {| Main.player_1 :=
              {| Main.number_of_shots := 1;
                 Main.total_shot_speed := (0 + 300 * 10.97 / 210 / 2 * 3.6)%float;
                 Main.last_shot_speed := (300 * 10.97 / 210 / 2 * 3.6)%float;
                 Main.total_player_speed := 0%float;
                 Main.last_player_speed := 0%float |};
            Main.player_2 :=
              {| Main.number_of_shots := 0;
                 Main.total_shot_speed := 0%float;
                 Main.last_shot_speed := 0%float;
                 Main.total_player_speed := (0 + 0)%float;
                 Main.last_player_speed := 0%float |} |}) ].

(** Two frames with both players on each. *)
Definition players_two_frames : list (dict bbox) :=
  [ [(1, box 90 100 110 200); (2, box 290 700 310 800)];
    [(1, box 92 100 112 200); (2, box 290 700 310 800)] ].

(* ================================================================== *)
(** * Further concrete inputs *)
(* ================================================================== *)

(** What the model returns for a frame with two persons and a racket; the
    first person is detected twice. *)
Definition results_two_persons : Detect.yolo_results := {|
  Detect.names := [(0, "person"%string); (38, "tennis racket"%string)];
  Detect.boxes :=
    [ {| Detect.box_id := Some (1 # 1); Detect.xyxy := box 90 100 110 200;
         Detect.cls := 0 # 1 |};
      {| Detect.box_id := Some (3 # 1); Detect.xyxy := box 100 150 120 170;
         Detect.cls := 38 # 1 |};
      {| Detect.box_id := Some (2 # 1); Detect.xyxy := box 290 700 310 800;
         Detect.cls := 0 # 1 |};
      {| Detect.box_id := Some (1 # 1); Detect.xyxy := box 92 100 112 200;
         Detect.cls := 0 # 1 |} ]
|}.

(** A model that returns [results_two_persons] for every frame, on frames
    and a tracker state that carry nothing. *)
Definition example_track (t : unit) (frame : unit) : Detect.yolo_results * unit :=
  (results_two_persons, t).

Definition example_predict (frame : unit) : Detect.yolo_results := results_two_persons.

Definition empty_world : Detect.world unit := {| Detect.tracks := tt; Detect.disk := [] |}.

Definition example_player_dict : dict bbox :=
  [(1, box 92 100 112 200); (2, box 290 700 310 800)].

Definition world_with_stub : Detect.world unit :=
  {| Detect.tracks := tt;
     Detect.disk := [("players.pkl"%string, [example_player_dict; example_player_dict])] |}.

(** The two stubs that [main] reads, for a video of two frames. *)
Definition world_with_both_stubs : Detect.world unit :=
  {| Detect.tracks := tt;
     Detect.disk := [("tracker_stubs/player_detections.pkl"%string, players_two_frames);
                     ("tracker_stubs/ball_detections.pkl"%string, ball_two_frames)] |}.
(* ================================================================== *)
(** * Facts about the Python primitives *)
(* ================================================================== *)

Lemma bind_Ok {A B : Type} (r : result A) (k : A -> result B) (b : B) :
  Py.bind r k = Ok b <-> exists a, r = Ok a /\ k a = Ok b.
Proof.
  destruct r as [a | e]; simpl; split.
  - intros H. exists a. auto.
  - intros [a' [Ha H]]. inversion Ha. subst. exact H.
  - discriminate.
  - intros [a' [Ha _]]. discriminate.
Qed.

Lemma bind_ret {A B : Type} (a : A) (k : A -> result B) : Py.bind (Ok a) k = k a.
Proof. reflexivity. Qed.

Lemma bind_Raise_l {A B : Type} (r : result A) (k : A -> result B) (e : exn) :
  r = Raise e -> Py.bind r k = Raise e.
Proof. intros ->. reflexivity. Qed.

(** Splits a hypothesis [bind r k = Ok b] into its two steps. *)
Ltac bind_inv H :=
  let a := fresh "a" in
  let Ha := fresh "H" a in
  apply bind_Ok in H; destruct H as [a [Ha H]].

Lemma for_each_app {A S : Type} (body : S -> A -> result S) (l1 l2 : list A) (acc : S) :
  for_each body (l1 ++ l2) acc = Py.bind (for_each body l1 acc) (for_each body l2).
Proof.
  revert acc. induction l1 as [| x l1 IH]; intros acc; simpl.
  - reflexivity.
  - destruct (body acc x) as [s | e]; simpl; auto.
Qed.

(** A loop that ends normally ran its body on every element, each time from a
    state that a prefix of the loop had reached. *)
Lemma for_each_Ok_body {A S : Type} (body : S -> A -> result S) (l : list A)
    (acc out : S) (x : A) :
  for_each body l acc = Ok out -> In x l ->
  exists s s', body s x = Ok s'.
Proof.
  revert acc. induction l as [| y l IH]; intros acc H Hin; simpl in *.
  - contradiction.
  - bind_inv H. destruct Hin as [-> | Hin].
    + eauto.
    + eapply IH; eauto.
Qed.

Lemma comprehension_Ok_each {A B : Type} (f : A -> result B) (l : list A) (ys : list B) :
  comprehension f l = Ok ys -> forall x, In x l -> exists y, f x = Ok y.
Proof.
  revert ys. induction l as [| z l IH]; intros ys H x Hin; simpl in *.
  - contradiction.
  - bind_inv H. bind_inv H. destruct Hin as [-> | Hin]; eauto.
Qed.

Lemma comprehension_map {A B : Type} (f : A -> result B) (g : A -> B) (l : list A) :
  (forall x, In x l -> f x = Ok (g x)) -> comprehension f l = Ok (map g l).
Proof.
  induction l as [| z l IH]; intros H; simpl.
  - reflexivity.
  - rewrite (H z) by (left; reflexivity). simpl.
    rewrite IH by (intros x Hx; apply H; right; exact Hx). reflexivity.
Qed.

Lemma in_range (lo hi i : Z) : In i (range lo hi) <-> lo <= i < hi.
Proof.
  unfold range. rewrite in_map_iff. split.
  - intros [k [<- Hk]]. apply in_seq in Hk. lia.
  - intros H. exists (Z.to_nat (i - lo)). split; [lia |]. apply in_seq. lia.
Qed.

Lemma length_range (lo hi : Z) : length (range lo hi) = Z.to_nat (hi - lo).
Proof. unfold range. rewrite length_map, length_seq. reflexivity. Qed.

Lemma index_Ok_nth {A : Type} (l : list A) (i : Z) (a : A) :
  0 <= i -> (index l i = Ok a <-> nth_error l (Z.to_nat i) = Some a).
Proof.
  intros Hi. unfold index.
  replace (i <? 0) with false by (symmetry; apply Z.ltb_ge; lia).
  replace (i <? 0) with false by (symmetry; apply Z.ltb_ge; lia).
  destruct (nth_error l (Z.to_nat i)) as [a' |]; split; intros H;
    inversion H; subst; reflexivity.
Qed.

Lemma index_in_bounds {A : Type} (l : list A) (i : Z) :
  0 <= i < Z.of_nat (length l) -> exists a, index l i = Ok a.
Proof.
  intros Hi. destruct (nth_error l (Z.to_nat i)) as [a |] eqn:E.
  - exists a. apply index_Ok_nth; [lia | exact E].
  - apply nth_error_None in E. lia.
Qed.

Lemma index_Ok_In {A : Type} (l : list A) (i : Z) (a : A) :
  index l i = Ok a -> In a l.
Proof.
  unfold index. destruct (_ <? 0); [discriminate |].
  destruct (nth_error l _) as [a' |] eqn:E; [| discriminate].
  intros H. inversion H. subst. eapply nth_error_In. exact E.
Qed.

Lemma nth_error_combine_range {A : Type} (lo : Z) (l : list A) (s n : nat) :
  nth_error (combine (map (fun k => lo + Z.of_nat k) (seq s (length l))) l) n
  = option_map (fun a => (lo + Z.of_nat (s + n), a)) (nth_error l n).
Proof.
  revert s n. induction l as [| x l IH]; intros s n; simpl.
  - destruct n; reflexivity.
  - destruct n as [| n]; simpl.
    + rewrite Nat.add_0_r. reflexivity.
    + rewrite IH. replace (S s + n)%nat with (s + S n)%nat by lia. reflexivity.
Qed.

Lemma nth_error_enumerate {A : Type} (l : list A) (n : nat) :
  nth_error (enumerate l) n = option_map (fun a => (Z.of_nat n, a)) (nth_error l n).
Proof.
  unfold enumerate, range. rewrite Z.sub_0_r, Nat2Z.id.
  rewrite nth_error_combine_range. reflexivity.
Qed.

Lemma In_enumerate {A : Type} (l : list A) (i : Z) (a : A) :
  In (i, a) (enumerate l) <-> 0 <= i /\ nth_error l (Z.to_nat i) = Some a.
Proof.
  split.
  - intros H. apply In_nth_error in H. destruct H as [n Hn].
    rewrite nth_error_enumerate in Hn.
    destruct (nth_error l n) as [a' |] eqn:E; simpl in Hn; [| discriminate].
    inversion Hn. subst. rewrite Nat2Z.id. split; [lia | exact E].
  - intros [Hi H]. apply (nth_error_In _ (Z.to_nat i)).
    rewrite nth_error_enumerate, H. simpl. rewrite Z2Nat.id by lia. reflexivity.
Qed.

(* ================================================================== *)
(** * The coordinate mapper *)
(* ================================================================== *)

Lemma py_div_Ok (a b : Q) : ~ (b == 0)%Q -> py_div a b = Ok (a / b)%Q.
Proof.
  intros Hb. unfold py_div. destruct (Qeq_bool b 0) eqn:E; [| reflexivity].
  apply Qeq_bool_iff in E. contradiction.
Qed.

(** The mapper, called with every argument on the parameter of its meaning,
    sends an object that stands on a keypoint to that keypoint of the mini
    court, whatever the two reference heights are. *)
Lemma get_mini_court_coordinates_at_keypoint
    (c : constants) (mc : mini_court) (px py : Q) (idx : Z)
    (height_pixels height_meters kx ky : Q) :
  ~ (height_pixels == 0)%Q ->
  ~ (DOUBLE_LINE_WIDTH c == 0)%Q ->
  index (drawing_key_points mc) (idx * 2) = Ok kx ->
  index (drawing_key_points mc) (idx * 2 + 1) = Ok ky ->
  exists x y,
    get_mini_court_coordinates_by_name c mc
      (VTuple px py) (VTuple px py) (VInt idx)
      (VFloat height_pixels) (VFloat height_meters) = Ok (x, y)
    /\ (x == kx)%Q /\ (y == ky)%Q.
Proof.
  intros Hpx Hw Hkx Hky.
  unfold get_mini_court_coordinates_by_name, get_mini_court_coordinates.
  unfold measure_xy_distance. simpl.
  unfold pixel_distance_to_meters. simpl.
  unfold convert_pixel_distance_to_meters.
  rewrite !py_div_Ok by exact Hpx. simpl.
  unfold convert_meters_to_pixels, meters_to_pixels, convert_meters_to_pixel_distance.
  rewrite !py_div_Ok by exact Hw. simpl.
  rewrite Hkx. simpl. rewrite Hky. simpl.
  eexists. eexists. split; [reflexivity |].
  assert (Hx : (Qabs (px - px) == 0)%Q).
  { setoid_replace (px - px)%Q with 0%Q by ring. reflexivity. }
  assert (Hy : (Qabs (py - py) == 0)%Q).
  { setoid_replace (py - py)%Q with 0%Q by ring. reflexivity. }
  split.
  - rewrite Hx. field. split; assumption.
  - rewrite Hy. field. split; assumption.
Qed.

(** C1.  The round trip of the mapper, as
    [convert_bounding_boxes_to_mini_court_coordinates] invokes it, does not
    hold: the five arguments are passed by position in an order that is not
    that of the parameters, the keypoint index lands on [closest_key_point] and
    [measure_xy_distance] subscripts an [int].  Every such call raises
    [TypeError]; so does the conversion of a frame in which player 1 stands
    exactly on keypoint 0. *)
Theorem mapper_called_by_position_raises :
  (forall (c : constants) (mc : mini_court) (px py kx ky : Q) (idx : Z)
          (height_pixels height_meters : Q),
      get_mini_court_coordinates c mc
        (VTuple px py) (VTuple kx ky) (VInt idx)
        (VFloat height_pixels) (VFloat height_meters) = Raise TypeError)
  /\ get_foot_position (box 90 100 110 200) = (inject_Z 100, inject_Z 200)
  /\ convert_bounding_boxes_to_mini_court_coordinates court_constants court_1920
       players_at_keypoint ball_one_frame example_keypoints = Raise TypeError.
Proof.
  split; [| split].
  - intros. reflexivity.
  - vm_compute. reflexivity.
  - vm_compute. reflexivity.
Qed.

(* ================================================================== *)
(** * The conversion to mini-court coordinates *)
(* ================================================================== *)

Lemma get_Ok_In {A : Type} (d : dict A) (k : Z) (v : A) :
  get d k = Ok v -> In k (keys d).
Proof.
  unfold get, keys. induction d as [| [k' v'] d IH]; simpl.
  - discriminate.
  - destruct (k' =? k) eqn:E.
    + intros _. left. apply Z.eqb_eq. exact E.
    + intros H. right. apply IH. exact H.
Qed.

Lemma In_keys_get {A : Type} (d : dict A) (k : Z) :
  In k (keys d) -> exists v, get d k = Ok v.
Proof.
  unfold get, keys. induction d as [| [k' v'] d IH]; simpl.
  - contradiction.
  - intros H. destruct (k' =? k) eqn:E.
    + eauto.
    + destruct H as [H | H]; [apply Z.eqb_neq in E; contradiction | auto].
Qed.

Lemma not_In_keys_get {A : Type} (d : dict A) (k : Z) :
  ~ In k (keys d) -> get d k = Raise KeyError.
Proof.
  intros H. unfold get. destruct (get_opt d k) as [v |] eqn:E; [| reflexivity].
  exfalso. apply H. apply (get_Ok_In d k v). unfold get. rewrite E. reflexivity.
Qed.

Lemma player_heights_keys (c : constants) (id : Z) (h : Q) :
  get (player_heights c) id = Ok h -> id = 1 \/ id = 2.
Proof.
  intros H. apply get_Ok_In in H. simpl in H. intuition.
Qed.

Section ConversionFacts.
Variable c : constants.
Variable project : mapper.
Variable player_boxes ball_boxes : list (dict bbox).
Variable original_court_key_points : list Q.

Let convert := convert_bounding_boxes_with c project player_boxes ball_boxes
                 original_court_key_points.

(** A conversion that ends normally has run the loop body on every player of
    every frame. *)
Lemma convert_Ok_player_step (out : list (dict point) * list (dict point))
    (frame_num : Z) (player_bbox : dict bbox) (player_id : Z) (b : bbox) :
  convert = Ok out ->
  0 <= frame_num ->
  index player_boxes frame_num = Ok player_bbox ->
  In (player_id, b) (items player_bbox) ->
  exists ball_position closest st st',
    player_step c project player_boxes original_court_key_points
      frame_num ball_position closest st (player_id, b) = Ok st'.
Proof.
  intros H Hf Hd Hin. unfold convert, convert_bounding_boxes_with in H.
  apply index_Ok_nth in Hd; [| exact Hf].
  assert (Hen : In (frame_num, player_bbox) (enumerate player_boxes)).
  { apply In_enumerate. split; assumption. }
  destruct (for_each_Ok_body _ _ _ _ _ H Hen) as [s [s' Hstep]].
  unfold frame_step in Hstep.
  bind_inv Hstep. bind_inv Hstep. bind_inv Hstep. bind_inv Hstep.
  destruct a2 as [d balls].
  destruct (for_each_Ok_body _ _ _ _ _ Ha2 Hin) as [t [t' Hp]].
  eauto.
Qed.

Lemma player_step_Ok (frame_num : Z) (ball_position : point) (closest : Z)
    (st st' : dict point * list (dict point)) (player_id : Z) (b : bbox) :
  player_step c project player_boxes original_court_key_points
    frame_num ball_position closest st (player_id, b) = Ok st' ->
  (exists m, max_player_height_in_pixels player_boxes frame_num player_id = Ok m)
  /\ (player_id = 1 \/ player_id = 2).
Proof.
  unfold player_step. intros H.
  bind_inv H. destruct a as [idx kp].
  bind_inv H. bind_inv H. split.
  - eauto.
  - eapply player_heights_keys. eassumption.
Qed.

(** The heights of the window can be collected only when the player has a box
    on every frame of [range(frame_index_min, frame_index_max)]. *)
Lemma max_player_height_Ok_present (frame_num player_id : Z) (m : Q) (i : Z) :
  max_player_height_in_pixels player_boxes frame_num player_id = Ok m ->
  Z.max 0 (frame_num - 20) <= i < Z.min (Z.of_nat (length player_boxes)) (frame_num + 50) ->
  exists d b, index player_boxes i = Ok d /\ get d player_id = Ok b.
Proof.
  unfold max_player_height_in_pixels. intros H Hi.
  bind_inv H.
  destruct (comprehension_Ok_each _ _ _ Ha i) as [y Hy].
  { apply in_range. exact Hi. }
  unfold player_height_at in Hy. bind_inv Hy. bind_inv Hy. eauto.
Qed.

End ConversionFacts.


(** ** The window of the local reference height *)

Lemma Qltb_lt (a b : Q) : Qltb a b = true <-> (a < b)%Q.
Proof.
  unfold Qltb. rewrite negb_true_iff. split.
  - intros H. apply Qnot_le_lt. intros Hle. apply Qle_bool_iff in Hle. congruence.
  - intros H. destruct (Qle_bool b a) eqn:E; [| reflexivity].
    apply Qle_bool_iff in E. exfalso. apply (Qlt_not_le _ _ H). exact E.
Qed.

Lemma Qltb_ge (a b : Q) : Qltb a b = false <-> (b <= a)%Q.
Proof.
  unfold Qltb. rewrite negb_false_iff. apply Qle_bool_iff.
Qed.

(** [max] returns an element of the list that no element exceeds. *)
Lemma max_from_spec (l : list Q) (best : Q) :
  In (max_from Qltb best l) (best :: l)
  /\ forall x, In x (best :: l) -> (x <= max_from Qltb best l)%Q.
Proof.
  revert best. induction l as [| y l IH]; intros best; simpl.
  - split; [left; reflexivity |]. intros x [<- | []]. apply Qle_refl.
  - destruct (Qltb best y) eqn:E.
    + destruct (IH y) as [Hin Hge]. split.
      * right. exact Hin.
      * intros x [<- | Hx].
        -- apply Qltb_lt in E. apply Qle_trans with y; [apply Qlt_le_weak; exact E |].
           apply Hge. left. reflexivity.
        -- apply Hge. exact Hx.
    + destruct (IH best) as [Hin Hge]. split.
      * destruct Hin as [Hin | Hin]; [left; exact Hin | right; right; exact Hin].
      * intros x [<- | [<- | Hx]].
        -- apply Hge. left. reflexivity.
        -- apply Qltb_ge in E. apply Qle_trans with best; [exact E |].
           apply Hge. left. reflexivity.
        -- apply Hge. right. exact Hx.
Qed.

Lemma comprehension_Ok_In {A B : Type} (f : A -> result B) (l : list A) (ys : list B) :
  comprehension f l = Ok ys ->
  (forall y, In y ys -> exists x, In x l /\ f x = Ok y)
  /\ (forall x y, In x l -> f x = Ok y -> In y ys).
Proof.
  revert ys. induction l as [| z l IH]; intros ys H; simpl in H.
  - inversion H. subst. split; intros; contradiction.
  - bind_inv H. bind_inv H. inversion H. subst. clear H.
    destruct (IH _ Ha0) as [IH1 IH2]. split.
    + intros y [<- | Hy].
      * exists z. split; [left; reflexivity | exact Ha].
      * destruct (IH1 y Hy) as [x [Hx Hfx]]. exists x. split; [right |]; assumption.
    + intros x y [<- | Hx] Hf.
      * rewrite Ha in Hf. inversion Hf. left. reflexivity.
      * right. eapply IH2; eassumption.
Qed.

Lemma comprehension_total {A B : Type} (f : A -> result B) (l : list A) :
  (forall x, In x l -> exists y, f x = Ok y) -> exists ys, comprehension f l = Ok ys.
Proof.
  induction l as [| z l IH]; intros H; simpl.
  - eauto.
  - destruct (H z) as [y Hy]; [left; reflexivity |]. rewrite Hy. simpl.
    destruct IH as [ys Hys]; [intros x Hx; apply H; right; exact Hx |].
    rewrite Hys. simpl. eauto.
Qed.

(** C6 as stated fails: the window of frame 0 ends with frame 49.  The box of
    frame 50, the tallest, lies between [max(0, f-20)] and [min(last, f+50)]
    and is not read. *)
Lemma window_leaves_out_frame_plus_50 :
  max_player_height_in_pixels tall_on_frame_50 0 1 = Ok (inject_Z 10)
  /\ player_height_at tall_on_frame_50 1 50 = Ok (inject_Z 99)
  /\ Z.max 0 (0 - 20) <= 50 <= Z.min (Z.of_nat (length tall_on_frame_50) - 1) (0 + 50)
  /\ ~ (inject_Z 99 <= inject_Z 10)%Q.
Proof.
  split; [vm_compute; reflexivity |].
  split; [vm_compute; reflexivity |].
  split; [vm_compute; split; discriminate |].
  intros H. vm_compute in H. apply H. reflexivity.
Qed.

(** C6, amended.  On a frame [f] of the sequence, for a player who has a box
    on every frame from [max(0, f-20)] to [min(last frame, f+49)], the local
    reference height is the largest height of the player's boxes on these
    frames, both ends included: it is the height of one of them and none of
    them is higher. *)
Theorem local_reference_height_window
    (player_boxes : list (dict bbox)) (f player_id : Z) :
  0 <= f < Z.of_nat (length player_boxes) ->
  (forall i, Z.max 0 (f - 20) <= i <= Z.min (Z.of_nat (length player_boxes) - 1) (f + 49) ->
             exists h, player_height_at player_boxes player_id i = Ok h) ->
  exists h,
    max_player_height_in_pixels player_boxes f player_id = Ok h
    /\ (exists i, Z.max 0 (f - 20) <= i <= Z.min (Z.of_nat (length player_boxes) - 1) (f + 49)
                  /\ player_height_at player_boxes player_id i = Ok h)
    /\ (forall i h',
          Z.max 0 (f - 20) <= i <= Z.min (Z.of_nat (length player_boxes) - 1) (f + 49) ->
          player_height_at player_boxes player_id i = Ok h' -> (h' <= h)%Q).
Proof.
  intros Hf Hpresent. unfold max_player_height_in_pixels.
  set (lo := Z.max 0 (f - 20)).
  set (hi := Z.min (Z.of_nat (length player_boxes)) (f + 50)).
  destruct (comprehension_total (player_height_at player_boxes player_id) (range lo hi))
    as [heights Hheights].
  { intros i Hi. apply in_range in Hi. apply Hpresent. unfold lo, hi in *. lia. }
  rewrite Hheights, bind_ret.
  destruct (comprehension_Ok_In _ _ _ Hheights) as [Hfrom Hto].
  destruct heights as [| h0 rest].
  - exfalso. destruct (Hpresent f) as [hf Hhf]; [lia |].
    apply (Hto f hf); [| exact Hhf]. apply in_range. unfold lo, hi. lia.
  - simpl. destruct (max_from_spec rest h0) as [Hin Hge].
    exists (max_from Qltb h0 rest). split; [reflexivity |]. split.
    + destruct (Hfrom _ Hin) as [i [Hi Hhi]]. exists i. split; [| exact Hhi].
      apply in_range in Hi. unfold lo, hi in Hi. lia.
    + intros i h' Hi Hh'. apply Hge. apply (Hto i h'); [| exact Hh'].
      apply in_range. unfold lo, hi. lia.
Qed.

Lemma local_reference_height_window_witness :
  exists h,
    max_player_height_in_pixels tall_on_frame_50 10 1 = Ok h
    /\ (exists i, Z.max 0 (10 - 20) <= i <= Z.min (Z.of_nat (length tall_on_frame_50) - 1) (10 + 49)
                  /\ player_height_at tall_on_frame_50 1 i = Ok h)
    /\ (forall i h',
          Z.max 0 (10 - 20) <= i <= Z.min (Z.of_nat (length tall_on_frame_50) - 1) (10 + 49) ->
          player_height_at tall_on_frame_50 1 i = Ok h' -> (h' <= h)%Q).
Proof.
  apply (local_reference_height_window tall_on_frame_50 10 1).
  - simpl. lia.
  - intros i Hi. change (Z.of_nat (length tall_on_frame_50)) with 51 in Hi.
    assert (Hin : In i (range 0 51)) by (apply in_range; lia).
    revert Hin. clear Hi. revert i.
    apply Forall_forall. vm_compute.
    repeat (constructor; [eexists; reflexivity |]). constructor.
Defined.

(* ================================================================== *)
(** * The selection of the two players *)
(* ================================================================== *)

Lemma index_Raise {A : Type} (l : list A) (i : Z) (e : exn) :
  index l i = Raise e -> e = IndexError.
Proof.
  unfold index. destruct (_ <? 0); [intros H; inversion H; reflexivity |].
  destruct (nth_error l _); [discriminate | intros H; inversion H; reflexivity].
Qed.

Lemma dist_le_refl (a : option root) : dist_le a a.
Proof. destruct a; simpl; [apply Qle_refl | exact I]. Qed.

Lemma dist_le_trans (a b d : option root) : dist_le a b -> dist_le b d -> dist_le a d.
Proof.
  destruct a, b, d; simpl; try tauto. apply Qle_trans.
Qed.

Lemma inf_ltb_true (a b : option root) : inf_ltb root_ltb a b = true -> dist_le a b.
Proof.
  destruct a as [x |], b as [y |]; simpl; try discriminate; try tauto.
  unfold root_ltb. intros H. apply Qltb_lt in H. apply Qlt_le_weak. exact H.
Qed.

Lemma inf_ltb_false (a b : option root) : inf_ltb root_ltb a b = false -> dist_le b a.
Proof.
  destruct a as [x |], b as [y |]; simpl; try discriminate; try tauto.
  unfold root_ltb. intros H. apply Qltb_ge in H. exact H.
Qed.

(** ** The stable sort *)

Section SortFacts.
Context {A : Type} (key : A -> option root).

Let le (x y : A) : Prop := dist_le (key x) (key y).

Lemma insert_by_perm (x : A) (l : list A) :
  Permutation (insert_by (inf_ltb root_ltb) key x l) (x :: l).
Proof.
  induction l as [| y l IH]; simpl.
  - apply Permutation_refl.
  - destruct (inf_ltb root_ltb (key y) (key x)).
    + eapply perm_trans; [apply perm_skip; exact IH |].
      apply perm_swap.
    + apply Permutation_refl.
Qed.

Lemma sort_by_perm (l : list A) :
  Permutation (sort_by (inf_ltb root_ltb) key l) l.
Proof.
  induction l as [| x l IH]; simpl.
  - apply perm_nil.
  - eapply perm_trans; [apply insert_by_perm |].
    apply perm_skip. exact IH.
Qed.

Lemma insert_by_sorted (x : A) (l : list A) :
  StronglySorted le l -> StronglySorted le (insert_by (inf_ltb root_ltb) key x l).
Proof.
  induction l as [| y l IH]; intros Hs; simpl.
  - constructor; constructor.
  - apply StronglySorted_inv in Hs. destruct Hs as [Hs Hall].
    destruct (inf_ltb root_ltb (key y) (key x)) eqn:E.
    + constructor; [apply IH; exact Hs |].
      apply Forall_forall. intros z Hz.
      apply (Permutation_in _ (insert_by_perm x l)) in Hz.
      destruct Hz as [<- | Hz].
      * apply inf_ltb_true. exact E.
      * eapply Forall_forall in Hall; eassumption.
    + apply inf_ltb_false in E. constructor.
      * constructor; assumption.
      * constructor; [exact E |].
        apply Forall_forall. intros z Hz. eapply Forall_forall in Hall; [| exact Hz].
        eapply dist_le_trans; eassumption.
Qed.

Lemma sort_by_sorted (l : list A) :
  StronglySorted le (sort_by (inf_ltb root_ltb) key l).
Proof.
  induction l as [| x l IH]; simpl.
  - constructor.
  - apply insert_by_sorted. exact IH.
Qed.

End SortFacts.

(** ** The smallest distance to a keypoint *)

Section MinDistance.
Variable court_keypoints : list Q.
Variable n : nat.
Hypothesis Hlen : length court_keypoints = (2 * n)%nat.
Variable p : point.

(** [m] is the smallest distance from [p] to one of the first [j] keypoints. *)
Let min_of_first (j : nat) (m : option root) : Prop :=
  (forall k q, (k < j)%nat -> keypoint_at court_keypoints k = Some q ->
               dist_le m (Some (measure_distance p q)))
  /\ match m with
     | None => j = O
     | Some r => exists k q, (k < j)%nat /\ keypoint_at court_keypoints k = Some q
                             /\ measure_distance p q = r
     end.

Lemma keypoint_at_lt (k : nat) :
  (k < n)%nat -> exists x y,
    keypoint_at court_keypoints k = Some (x, y)
    /\ index court_keypoints (0 + 2 * Z.of_nat k) = Ok x
    /\ index court_keypoints (0 + 2 * Z.of_nat k + 1) = Ok y.
Proof.
  intros Hk. unfold keypoint_at.
  destruct (nth_error court_keypoints (2 * k)) as [x |] eqn:Ex;
    [| apply nth_error_None in Ex; lia].
  destruct (nth_error court_keypoints (2 * k + 1)) as [y |] eqn:Ey;
    [| apply nth_error_None in Ey; lia].
  exists x, y. split; [reflexivity |]. split.
  - apply index_Ok_nth; [lia |].
    replace (Z.to_nat (0 + 2 * Z.of_nat k)) with (2 * k)%nat by lia. exact Ex.
  - apply index_Ok_nth; [lia |].
    replace (Z.to_nat (0 + 2 * Z.of_nat k + 1)) with (2 * k + 1)%nat by lia. exact Ey.
Qed.

Lemma keypoint_at_Some_lt (k : nat) (q : point) :
  keypoint_at court_keypoints k = Some q -> (k < n)%nat.
Proof.
  unfold keypoint_at.
  destruct (nth_error court_keypoints (2 * k)) eqn:Ex; [| discriminate].
  destruct (nth_error court_keypoints (2 * k + 1)) eqn:Ey; [| discriminate].
  intros _. assert (H : (2 * k + 1 < length court_keypoints)%nat).
  { apply nth_error_Some. congruence. }
  lia.
Qed.

Lemma min_distance_loop_prefix (j : nat) :
  (j <= n)%nat ->
  exists m,
    for_each (min_distance_step p court_keypoints)
      (map (fun k => 0 + 2 * Z.of_nat k) (seq 0 j)) None = Ok m
    /\ min_of_first j m.
Proof.
  induction j as [| j IH]; intros Hj.
  - exists None. split; [reflexivity |]. split; [intros; lia | reflexivity].
  - destruct IH as [m [Hm [Hall Hex]]]; [lia |].
    rewrite seq_S, map_app, for_each_app, Hm, bind_ret.
    cbn [map for_each Nat.add].
    destruct (keypoint_at_lt j) as [x [y [Hk [Hx Hy]]]]; [lia |].
    unfold min_distance_step. rewrite Hx, bind_ret, Hy, bind_ret.
    destruct (lt_inf root_ltb (measure_distance p (x, y)) m) eqn:E; rewrite bind_ret.
    + exists (Some (measure_distance p (x, y))). split; [reflexivity |]. split.
      * intros k q Hlt Hq. destruct (Nat.eq_dec k j) as [-> | Hne].
        -- rewrite Hk in Hq. inversion Hq. apply dist_le_refl.
        -- eapply dist_le_trans; [| apply (Hall k q); [lia | exact Hq]].
           apply (inf_ltb_true (Some _) m). exact E.
      * exists j, (x, y). split; [lia |]. split; [exact Hk | reflexivity].
    + exists m. split; [reflexivity |].
      assert (Hle : dist_le m (Some (measure_distance p (x, y)))).
      { apply (inf_ltb_false (Some _) m). exact E. }
      split.
      * intros k q Hlt Hq. destruct (Nat.eq_dec k j) as [-> | Hne].
        -- rewrite Hk in Hq. inversion Hq. subst. exact Hle.
        -- apply (Hall k q); [lia | exact Hq].
      * destruct m as [r |]; [| simpl in E; discriminate].
        destruct Hex as [k [q [Hlt [Hq Hr]]]]. exists k, q.
        split; [lia |]. split; assumption.
Qed.

Lemma range2_even : range2 0 (Z.of_nat (length court_keypoints))
                    = map (fun k => 0 + 2 * Z.of_nat k) (seq 0 n).
Proof.
  unfold range2. rewrite Hlen. f_equal. f_equal.
  replace (Z.of_nat (2 * n) - 0 + 1) with (1 + Z.of_nat n * 2) by lia.
  rewrite Z.div_add by lia. simpl. lia.
Qed.

Lemma min_distance_loop :
  exists m,
    for_each (min_distance_step p court_keypoints)
      (range2 0 (Z.of_nat (length court_keypoints))) None = Ok m
    /\ is_min_distance court_keypoints p m.
Proof.
  destruct (min_distance_loop_prefix n (Nat.le_refl n)) as [m [Hm [Hall Hex]]].
  exists m. rewrite range2_even. split; [exact Hm |]. split.
  - intros k q Hq. apply (Hall k q); [| exact Hq]. eapply keypoint_at_Some_lt. exact Hq.
  - destruct m as [r |].
    + destruct Hex as [k [q [_ H]]]. exists k, q. exact H.
    + intros k. destruct (keypoint_at court_keypoints k) as [q |] eqn:E; [| reflexivity].
      apply keypoint_at_Some_lt in E. lia.
Qed.

End MinDistance.

(** ** The two players *)

Lemma min_distance_step_result (kps : list Q) (p : point) (acc : option root) (i : Z) :
  (exists m, min_distance_step p kps acc i = Ok m)
  \/ min_distance_step p kps acc i = Raise IndexError.
Proof.
  unfold min_distance_step.
  destruct (index kps i) as [x | e] eqn:Ex;
    [| apply index_Raise in Ex; subst; right; reflexivity].
  rewrite bind_ret.
  destruct (index kps (i + 1)) as [y | e] eqn:Ey;
    [| apply index_Raise in Ey; subst; right; reflexivity].
  rewrite bind_ret.
  destruct (lt_inf root_ltb (measure_distance p (x, y)) acc); left; eauto.
Qed.

Lemma min_distance_loop_result (kps : list Q) (p : point) (l : list Z)
    (acc : option root) :
  (exists m, for_each (min_distance_step p kps) l acc = Ok m)
  \/ for_each (min_distance_step p kps) l acc = Raise IndexError.
Proof.
  revert acc. induction l as [| i l IH]; intros acc; simpl.
  - left. eauto.
  - destruct (min_distance_step_result kps p acc i) as [[m Hm] | Hm]; rewrite Hm.
    + rewrite bind_ret. apply IH.
    + right. reflexivity.
Qed.

Lemma distances_loop (kps : list Q) (n : nat) (items : list (Z * bbox))
    (acc : list (Z * option root)) :
  length kps = (2 * n)%nat ->
  exists ds,
    for_each (distances_step kps) items acc = Ok (acc ++ ds)
    /\ Forall2 (distance_of kps) items ds.
Proof.
  intros Hlen. revert acc. induction items as [| [id b] items IH]; intros acc.
  - exists []. rewrite app_nil_r. split; [reflexivity | constructor].
  - simpl. destruct (min_distance_loop kps n Hlen (get_center_of_bbox b)) as [m [Hm Hmin]].
    rewrite Hm, !bind_ret.
    destruct (IH (acc ++ [(id, m)])) as [ds [Hds Hall]].
    exists ((id, m) :: ds). rewrite Hds, <- app_assoc. split; [reflexivity |].
    constructor; [| exact Hall]. split; [reflexivity | exact Hmin].
Qed.

Lemma NoDup_keys_get {A : Type} (d : dict A) (k : Z) (v : A) :
  NoDup (keys d) -> In (k, v) d -> get d k = Ok v.
Proof.
  unfold get, keys. induction d as [| [k' v'] d IH]; simpl; intros Hnd Hin.
  - contradiction.
  - inversion Hnd as [| ? ? Hnot Hnd']. subst.
    destruct Hin as [Heq | Hin].
    + inversion Heq. subst. rewrite Z.eqb_refl. reflexivity.
    + destruct (k' =? k) eqn:E.
      * apply Z.eqb_eq in E. subst. exfalso. apply Hnot.
        apply in_map_iff. exists (k, v). split; [reflexivity | exact Hin].
      * apply IH; assumption.
Qed.

Lemma get_Ok_In_items {A : Type} (d : dict A) (k : Z) (v : A) :
  get d k = Ok v -> In (k, v) d.
Proof.
  unfold get. induction d as [| [k' v'] d IH]; simpl.
  - discriminate.
  - destruct (k' =? k) eqn:E.
    + intros H. inversion H. subst. apply Z.eqb_eq in E. subst. left. reflexivity.
    + intros H. right. apply IH. exact H.
Qed.

Lemma Forall2_In_r {A B : Type} (R : A -> B -> Prop) (l : list A) (l' : list B) (y : B) :
  Forall2 R l l' -> In y l' -> exists x, In x l /\ R x y.
Proof.
  induction 1 as [| x y' l l' Hxy Hall IH]; intros Hin.
  - contradiction.
  - destruct Hin as [<- | Hin].
    + exists x. split; [left; reflexivity | exact Hxy].
    + destruct (IH Hin) as [x' [Hx' HR]]. exists x'. split; [right |]; assumption.
Qed.

Lemma Forall2_In_l {A B : Type} (R : A -> B -> Prop) (l : list A) (l' : list B) (x : A) :
  Forall2 R l l' -> In x l -> exists y, In y l' /\ R x y.
Proof.
  induction 1 as [| x' y l l' Hxy Hall IH]; intros Hin.
  - contradiction.
  - destruct Hin as [<- | Hin].
    + exists y. split; [left; reflexivity | exact Hxy].
    + destruct (IH Hin) as [y' [Hy' HR]]. exists y'. split; [right |]; assumption.
Qed.

Lemma distances_keys (kps : list Q) (items : list (Z * bbox)) (ds : list (Z * option root)) :
  Forall2 (distance_of kps) items ds -> map fst ds = map fst items.
Proof.
  induction 1 as [| x y l l' [Hxy _] Hall IH]; simpl; [reflexivity |].
  rewrite Hxy, IH. reflexivity.
Qed.

(** C8.  With fewer than two entries in the first frame [choose_players] fails:
    it raises [IndexError] when it reads the two nearest candidates.  With two
    entries or more (and court keypoints that come in pairs) it returns two
    different track identities [a] and [b] of the frame such that the box
    centre of [a] is at least as near to its nearest court keypoint as that of
    [b], and that of [b] at least as near as that of every other entry. *)
Theorem choose_players_spec (court_keypoints : list Q) (player_dict : dict bbox) :
  ((length player_dict < 2)%nat ->
     choose_players court_keypoints player_dict = Raise IndexError)
  /\ ((2 <= length player_dict)%nat ->
      Nat.Even (length court_keypoints) ->
      NoDup (keys player_dict) ->
      exists a b box_a box_b ma mb,
        choose_players court_keypoints player_dict = Ok [a; b]
        /\ a <> b
        /\ get player_dict a = Ok box_a
        /\ get player_dict b = Ok box_b
        /\ is_min_distance court_keypoints (get_center_of_bbox box_a) ma
        /\ is_min_distance court_keypoints (get_center_of_bbox box_b) mb
        /\ dist_le ma mb
        /\ forall c box_c, c <> a -> c <> b -> get player_dict c = Ok box_c ->
             exists mc, is_min_distance court_keypoints (get_center_of_bbox box_c) mc
                        /\ dist_le mb mc).
Proof.
  split.
  - intros Hlt. unfold choose_players.
    destruct player_dict as [| [id b] [| item rest]]; simpl in Hlt; [| | lia].
    + reflexivity.
    + simpl.
      destruct (min_distance_loop_result court_keypoints (get_center_of_bbox b)
                  (range2 0 (Z.of_nat (length court_keypoints))) None) as [[m Hm] | Hm];
        rewrite Hm; reflexivity.
  - intros Hge [n Hn] Hnd. unfold choose_players, items.
    destruct (distances_loop court_keypoints n player_dict [] Hn) as [ds [Hds Hall]].
    rewrite Hds, bind_ret. simpl app.
    set (sorted := sort_by (inf_ltb root_ltb) snd ds).
    assert (Hperm : Permutation sorted ds) by apply sort_by_perm.
    assert (Hsorted : StronglySorted (fun x y => dist_le (snd x) (snd y)) sorted)
      by apply (sort_by_sorted snd).
    assert (Hlen : length sorted = length player_dict).
    { rewrite (Permutation_length Hperm). symmetry. eapply Forall2_length. exact Hall. }
    assert (Hkeys : Permutation (map fst sorted) (keys player_dict)).
    { unfold keys. rewrite <- (distances_keys _ _ _ Hall). apply Permutation_map. exact Hperm. }
    assert (Hnd' : NoDup (map fst sorted)).
    { eapply Permutation_NoDup; [apply Permutation_sym; exact Hkeys | exact Hnd]. }
    assert (Hitem : forall d, In d sorted ->
              exists bx, get player_dict (fst d) = Ok bx
                         /\ is_min_distance court_keypoints (get_center_of_bbox bx) (snd d)).
    { intros d Hd. apply (Permutation_in _ Hperm) in Hd.
      destruct (Forall2_In_r _ _ _ _ Hall Hd) as [[id bx] [Hin [Hfst Hmin]]].
      exists bx. simpl in Hfst, Hmin. rewrite Hfst. split; [| exact Hmin].
      apply NoDup_keys_get; assumption. }
    destruct sorted as [| d0 [| d1 rest]] eqn:Es; simpl in Hlen; [lia | lia |].
    apply StronglySorted_inv in Hsorted. destruct Hsorted as [Hs1 H0].
    apply StronglySorted_inv in Hs1. destruct Hs1 as [_ H1].
    simpl in Hnd'. inversion Hnd' as [| ? ? Hnot0 Hnd1]. subst.
    inversion Hnd1 as [| ? ? Hnot1 _]. subst.
    destruct (Hitem d0) as [box_a [Hga Hma]]; [left; reflexivity |].
    destruct (Hitem d1) as [box_b [Hgb Hmb]]; [right; left; reflexivity |].
    exists (fst d0), (fst d1), box_a, box_b, (snd d0), (snd d1).
    split; [reflexivity |].
    split; [intros Heq; apply Hnot0; left; symmetry; exact Heq |].
    split; [exact Hga |]. split; [exact Hgb |].
    split; [exact Hma |]. split; [exact Hmb |].
    split; [inversion H0; assumption |].
    intros c box_c Hca Hcb Hgc.
    assert (Hc : In c (map fst (d0 :: d1 :: rest))).
    { apply (Permutation_in _ (Permutation_sym Hkeys)). eapply get_Ok_In. exact Hgc. }
    simpl in Hc. destruct Hc as [Hc | [Hc | Hc]]; [congruence | congruence |].
    apply in_map_iff in Hc. destruct Hc as [dc [Hfst Hdc]].
    destruct (Hitem dc) as [bx [Hgx Hmx]]; [right; right; exact Hdc |].
    rewrite Hfst, Hgc in Hgx. inversion Hgx. subst bx.
    exists (snd dc). split; [exact Hmx |].
    eapply Forall_forall in H1; [exact H1 | exact Hdc].
Qed.

Lemma choose_players_spec_witness :
  exists a b box_a box_b ma mb,
    choose_players example_keypoints three_people = Ok [a; b]
    /\ a <> b
    /\ get three_people a = Ok box_a
    /\ get three_people b = Ok box_b
    /\ is_min_distance example_keypoints (get_center_of_bbox box_a) ma
    /\ is_min_distance example_keypoints (get_center_of_bbox box_b) mb
    /\ dist_le ma mb
    /\ forall c box_c, c <> a -> c <> b -> get three_people c = Ok box_c ->
         exists mc, is_min_distance example_keypoints (get_center_of_bbox box_c) mc
                    /\ dist_le mb mc.
Proof.
  apply (proj2 (choose_players_spec example_keypoints three_people)).
  - simpl. lia.
  - exists 14%nat. reflexivity.
  - unfold three_people, keys. simpl.
    repeat constructor; simpl; intuition discriminate.
Defined.

(* ================================================================== *)
(** * The interpolation of the ball positions *)
(* ================================================================== *)

Section SeriesFacts.
Import Pandas.

(** ** The known values of a column *)

Lemma known_from_In (s : series) (off i : Z) (v : Q) :
  In (i, v) (known_from off s)
  <-> exists k, i = off + Z.of_nat k /\ nth_error s k = Some (Some v).
Proof.
  revert off. induction s as [| x s IH]; intros off; simpl.
  - split; [contradiction | intros [[| k] [_ H]]; discriminate].
  - destruct x as [w |]; simpl; rewrite ?IH; split.
    + intros [H | [k [Hi Hk]]].
      * inversion H. subst. exists O. split; [lia | reflexivity].
      * exists (S k). split; [lia | exact Hk].
    + intros [[| k] [Hi Hk]]; simpl in Hk.
      * inversion Hk. subst. left. f_equal. lia.
      * right. exists k. split; [lia | exact Hk].
    + intros [k [Hi Hk]]. exists (S k). split; [lia | exact Hk].
    + intros [[| k] [Hi Hk]]; simpl in Hk; [discriminate |].
      exists k. split; [lia | exact Hk].
Qed.

Lemma known_from_sorted (s : series) (off : Z) :
  StronglySorted (fun x y => fst x < fst y) (known_from off s).
Proof.
  revert off. induction s as [| x s IH]; intros off; simpl.
  - constructor.
  - destruct x as [w |]; [| apply IH].
    constructor; [apply IH |]. apply Forall_forall. intros [i v] Hin.
    apply known_from_In in Hin. destruct Hin as [k [Hi _]]. simpl. lia.
Qed.

(** The first known value comes first in the list of known values. *)
Lemma known_from_leading (s : series) (off : Z) (e : nat) (ve : Q) :
  (forall j, (j < e)%nat -> nth_error s j = Some None) ->
  nth_error s e = Some (Some ve) ->
  exists l, known_from off s = (off + Z.of_nat e, ve) :: l.
Proof.
  revert off e. induction s as [| x s IH]; intros off e Hnone He.
  - destruct e; discriminate.
  - destruct e as [| e]; simpl in He.
    + inversion He. subst. simpl. rewrite Z.add_0_r. eauto.
    + assert (Hx : x = None).
      { specialize (Hnone O ltac:(lia)). simpl in Hnone. congruence. }
      subst x. simpl.
      destruct (IH (off + 1) e) as [l Hl].
      * intros j Hj. apply (Hnone (S j)). lia.
      * exact He.
      * exists l. rewrite Hl. f_equal. f_equal. lia.
Qed.

(** Two known values with nothing known between them are neighbours in the
    list of known values. *)
Lemma known_from_gap (s : series) (off : Z) (a e : nat) (va ve : Q) :
  (a < e)%nat ->
  nth_error s a = Some (Some va) ->
  nth_error s e = Some (Some ve) ->
  (forall j, (a < j < e)%nat -> nth_error s j = Some None) ->
  exists l1 l2,
    known_from off s = l1 ++ (off + Z.of_nat a, va) :: (off + Z.of_nat e, ve) :: l2
    /\ Forall (fun x => fst x < off + Z.of_nat a) l1.
Proof.
  revert off a e. induction s as [| x s IH]; intros off a e Hae Ha He Hnone.
  - destruct a; discriminate.
  - destruct a as [| a].
    + simpl in Ha. inversion Ha. subst x. simpl.
      destruct e as [| e]; [lia |]. simpl in He.
      destruct (known_from_leading s (off + 1) e ve) as [l Hl].
      * intros j Hj. apply (Hnone (S j)). lia.
      * exact He.
      * exists [], l. rewrite Hl. split; [| constructor].
        simpl. f_equal; [f_equal; lia |]. f_equal. f_equal. lia.
    + destruct e as [| e]; [lia |]. simpl in Ha, He.
      destruct (IH (off + 1) a e) as [l1 [l2 [Hk Hall]]].
      * lia.
      * exact Ha.
      * exact He.
      * intros j Hj. apply (Hnone (S j)). lia.
      * replace (off + 1 + Z.of_nat a) with (off + Z.of_nat (S a)) in * by lia.
        replace (off + 1 + Z.of_nat e) with (off + Z.of_nat (S e)) in * by lia.
        destruct x as [w |]; simpl; rewrite Hk.
        -- exists ((off, w) :: l1), l2. split; [reflexivity |].
           constructor; [simpl; lia | exact Hall].
        -- exists l1, l2. split; [reflexivity | exact Hall].
Qed.

(** ** [interp_at] *)

Lemma interp_at_skip (l1 l2 : list (Z * Q)) (prev : option (Z * Q)) (a : Z) (va : Q) (t : Z) :
  Forall (fun x => fst x < a) l1 -> a <= t ->
  interp_at prev (l1 ++ (a, va) :: l2) t = interp_at (Some (a, va)) l2 t.
Proof.
  revert prev. induction l1 as [| [i v] l1 IH]; intros prev Hall Hat; simpl.
  - replace (t <? a) with false by (symmetry; apply Z.ltb_ge; lia). reflexivity.
  - inversion Hall as [| ? ? Hi Hall']. subst. simpl in Hi.
    replace (t <? i) with false by (symmetry; apply Z.ltb_ge; lia).
    apply IH; assumption.
Qed.

Lemma interp_at_Some (xp : list (Z * Q)) (prev : option (Z * Q)) (t : Z) :
  prev <> None -> exists w, interp_at prev xp t = Some w.
Proof.
  revert prev. induction xp as [| [e ve] xp IH]; intros prev Hprev; simpl.
  - destruct prev as [[a va] |]; [simpl; eauto | congruence].
  - destruct (t <? e).
    + destruct prev as [[a va] |]; [eauto | congruence].
    + apply IH. discriminate.
Qed.

(** ** [interpolate] and [bfill], row by row *)

Lemma nth_error_interpolate (s : series) (t : nat) :
  nth_error (interpolate s) t
  = match nth_error s t with
    | Some (Some v) => Some (Some v)
    | Some None => Some (interp_at None (known s) (Z.of_nat t))
    | None => None
    end.
Proof.
  unfold interpolate. rewrite nth_error_map, nth_error_enumerate.
  destruct (nth_error s t) as [[v |] |]; reflexivity.
Qed.

Lemma length_interpolate (s : series) : length (interpolate s) = length s.
Proof.
  unfold interpolate, enumerate. rewrite length_map, length_combine, length_range.
  rewrite Z.sub_0_r, Nat2Z.id. apply Nat.min_id.
Qed.

Lemma length_bfill (s : series) : length (bfill s) = length s.
Proof.
  induction s as [| [v |] s IH]; simpl; rewrite ?IH; reflexivity.
Qed.

Lemma bfill_known (s : series) (t : nat) (v : Q) :
  nth_error s t = Some (Some v) -> nth_error (bfill s) t = Some (Some v).
Proof.
  revert t. induction s as [| x s IH]; intros t H.
  - destruct t; discriminate.
  - destruct t as [| t]; simpl in H.
    + inversion H. subst. reflexivity.
    + destruct x; simpl; apply IH; exact H.
Qed.

Lemma bfill_leading (s : series) (t e : nat) (ve : Q) :
  (forall j, (j < e)%nat -> nth_error s j = Some None) ->
  nth_error s e = Some (Some ve) ->
  (t <= e)%nat ->
  nth_error (bfill s) t = Some (Some ve).
Proof.
  revert t e. induction s as [| x s IH]; intros t e Hnone He Hte.
  - destruct e; discriminate.
  - destruct e as [| e].
    + assert (t = O) by lia. subst t. simpl in He. inversion He. subst. reflexivity.
    + assert (Hx : x = None).
      { specialize (Hnone O ltac:(lia)). simpl in Hnone. congruence. }
      subst x. simpl in He.
      assert (Hrec : forall t', (t' <= e)%nat -> nth_error (bfill s) t' = Some (Some ve)).
      { intros t' Ht'. apply (IH t' e); [| exact He | exact Ht'].
        intros j Hj. apply (Hnone (S j)). lia. }
      destruct t as [| t]; simpl.
      * specialize (Hrec O ltac:(lia)).
        destruct (bfill s) as [| y r]; [discriminate |]. simpl in Hrec. simpl. exact Hrec.
      * apply Hrec. lia.
Qed.

End SeriesFacts.

Section FillFacts.
Import Pandas.

(** The two fills of [interpolate_ball_positions], one after the other. *)
Let fill (s : series) : series := bfill (interpolate s).

Lemma fill_length (s : series) : length (fill s) = length s.
Proof. unfold fill. rewrite length_bfill. apply length_interpolate. Qed.

Lemma fill_known (s : series) (t : nat) (v : Q) :
  nth_error s t = Some (Some v) -> nth_error (fill s) t = Some (Some v).
Proof.
  intros H. apply bfill_known. rewrite nth_error_interpolate, H. reflexivity.
Qed.

Lemma fill_gap (s : series) (a t e : nat) (va ve : Q) :
  (a < t < e)%nat ->
  nth_error s a = Some (Some va) ->
  nth_error s e = Some (Some ve) ->
  (forall j, (a < j < e)%nat -> nth_error s j = Some None) ->
  nth_error (fill s) t
  = Some (Some ((ve - va) / inject_Z (Z.of_nat e - Z.of_nat a)
                * inject_Z (Z.of_nat t - Z.of_nat a) + va)%Q).
Proof.
  intros Hate Ha He Hnone. apply bfill_known.
  rewrite nth_error_interpolate, (Hnone t Hate). f_equal. f_equal.
  destruct (known_from_gap s 0 a e va ve ltac:(lia) Ha He Hnone) as [l1 [l2 [Hk Hall]]].
  unfold known. rewrite Hk. simpl in *.
  rewrite interp_at_skip by (try exact Hall; lia). simpl.
  replace (Z.of_nat t <? Z.of_nat e) with true by (symmetry; apply Z.ltb_lt; lia).
  reflexivity.
Qed.

Lemma fill_leading (s : series) (t e : nat) (ve : Q) :
  (t < e)%nat ->
  nth_error s e = Some (Some ve) ->
  (forall j, (j < e)%nat -> nth_error s j = Some None) ->
  nth_error (fill s) t = Some (Some ve).
Proof.
  intros Hte He Hnone.
  destruct (known_from_leading s 0 e ve Hnone He) as [l Hl].
  apply (bfill_leading _ t e).
  - intros j Hj. rewrite nth_error_interpolate, (Hnone j Hj).
    unfold known. rewrite Hl. simpl.
    replace (Z.of_nat j <? Z.of_nat e) with true by (symmetry; apply Z.ltb_lt; lia).
    reflexivity.
  - rewrite nth_error_interpolate, He. reflexivity.
  - lia.
Qed.

Lemma first_known (s : series) :
  (exists k v, nth_error s k = Some (Some v)) ->
  exists e ve, nth_error s e = Some (Some ve)
               /\ forall j, (j < e)%nat -> nth_error s j = Some None.
Proof.
  induction s as [| x s IH]; intros [k [v Hk]].
  - destruct k; discriminate.
  - destruct x as [w |].
    + exists O, w. split; [reflexivity | intros; lia].
    + destruct k as [| k]; [discriminate |]. simpl in Hk.
      destruct IH as [e [ve [He Hnone]]]; [eauto |].
      exists (S e), ve. split; [exact He |].
      intros [| j] Hj; [reflexivity |]. simpl. apply Hnone. lia.
Qed.

(** A column with one known value has no missing value after the two fills. *)
Lemma fill_total (s : series) (t : nat) :
  (exists k v, nth_error s k = Some (Some v)) ->
  (t < length s)%nat ->
  exists w, nth_error (fill s) t = Some (Some w).
Proof.
  intros Hknown Ht.
  destruct (first_known s Hknown) as [e [ve [He Hnone]]].
  destruct (Nat.lt_ge_cases t e) as [Hlt | Hge].
  - exists ve. apply (fill_leading s t e); assumption.
  - destruct (nth_error s t) as [[v |] |] eqn:Et.
    + exists v. apply fill_known. exact Et.
    + destruct (known_from_leading s 0 e ve Hnone He) as [l Hl].
      destruct (interp_at_Some l (Some (Z.of_nat e, ve)) (Z.of_nat t)) as [w Hw];
        [discriminate |].
      exists w. apply bfill_known. rewrite nth_error_interpolate, Et.
      unfold known. rewrite Hl. simpl.
      replace (Z.of_nat t <? Z.of_nat e) with false by (symmetry; apply Z.ltb_ge; lia).
      rewrite Hw. reflexivity.
    + apply nth_error_None in Et. lia.
Qed.

End FillFacts.

Lemma nth_error_rows_of_frame (a b c d : Pandas.series) (t : nat) (x y z w : option Q) :
  nth_error a t = Some x -> nth_error b t = Some y ->
  nth_error c t = Some z -> nth_error d t = Some w ->
  nth_error (rows_of_frame a b c d) t = Some (box_of_cells x y z w).
Proof.
  revert b c d t. induction a as [| x' a IH]; intros b c d t Ha Hb Hc Hd.
  - destruct t; discriminate.
  - destruct b as [| y' b]; [destruct t; discriminate |].
    destruct c as [| z' c]; [destruct t; discriminate |].
    destruct d as [| w' d]; [destruct t; discriminate |].
    destruct t as [| t]; simpl in *.
    + congruence.
    + apply IH; assumption.
Qed.

Lemma length_rows_of_frame (a b c d : Pandas.series) :
  length b = length a -> length c = length a -> length d = length a ->
  length (rows_of_frame a b c d) = length a.
Proof.
  revert b c d. induction a as [| x a IH]; intros b c d Hb Hc Hd.
  - reflexivity.
  - destruct b; [discriminate |]. destruct c; [discriminate |]. destruct d; [discriminate |].
    simpl in *. f_equal. apply IH; lia.
Qed.

Lemma comprehension_nth {A B : Type} (f : A -> result B) (l : list A) (ys : list B) :
  comprehension f l = Ok ys ->
  length ys = length l
  /\ forall t x, nth_error l t = Some x -> exists y, nth_error ys t = Some y /\ f x = Ok y.
Proof.
  revert ys. induction l as [| z l IH]; intros ys H; simpl in H.
  - inversion H. split; [reflexivity |]. intros [| t] x Hx; discriminate.
  - bind_inv H. bind_inv H. inversion H. subst. clear H.
    destruct (IH _ Ha0) as [Hlen Hnth]. split; [simpl; congruence |].
    intros [| t] x Hx; simpl in Hx.
    + inversion Hx. subst. exists a. split; [reflexivity | exact Ha].
    + apply Hnth. exact Hx.
Qed.

Lemma forallb_is_none_false {A : Type} (l : list (option A)) :
  forallb Pandas.is_none l = false <-> exists t b, nth_error l t = Some (Some b).
Proof.
  induction l as [| x l IH]; simpl.
  - split; [discriminate | intros [[| t] [b H]]; discriminate].
  - destruct x as [b |]; simpl.
    + split; [intros _; exists O, b; reflexivity | reflexivity].
    + rewrite IH. split.
      * intros [t [b H]]. exists (S t), b. exact H.
      * intros [[| t] [b H]]; [discriminate | exists t, b; exact H].
Qed.

Lemma nth_error_detections (ball_positions : list (dict bbox)) (t : nat) :
  (t < length ball_positions)%nat ->
  nth_error (map (fun x => get_opt x 1) ball_positions) t
  = Some (detection ball_positions t).
Proof.
  intros Ht. rewrite nth_error_map. unfold detection.
  destruct (nth_error ball_positions t) eqn:E; [reflexivity |].
  apply nth_error_None in E. lia.
Qed.

Lemma nth_error_column (rows : list (option bbox)) (ch : channel) (t : nat) :
  nth_error (map (option_map (coord ch)) rows) t
  = option_map (option_map (coord ch)) (nth_error rows t).
Proof. apply nth_error_map. Qed.

Lemma inject_Z_nonzero (z : Z) : z <> 0 -> ~ (inject_Z z == 0)%Q.
Proof. intros Hz H. unfold Qeq in H. simpl in H. lia. Qed.

Lemma detection_lt (ball_positions : list (dict bbox)) (t : nat) (b : bbox) :
  detection ball_positions t = Some b -> (t < length ball_positions)%nat.
Proof.
  unfold detection. destruct (nth_error ball_positions t) eqn:E; [| discriminate].
  intros _. apply nth_error_Some. congruence.
Qed.

(** The cell of a channel on a row, before the fills. *)
Lemma column_cell (ball_positions : list (dict bbox)) (ch : channel) (t : nat) :
  (t < length ball_positions)%nat ->
  nth_error (map (option_map (coord ch)) (map (fun x => get_opt x 1) ball_positions)) t
  = Some (option_map (coord ch) (detection ball_positions t)).
Proof.
  intros Ht. rewrite nth_error_column, nth_error_detections by exact Ht. reflexivity.
Qed.

(** C7.  When the ball was detected on one frame at least, the interpolation
    fills every frame; on each of the four coordinates a detected value is
    kept, a value missing between two detections lies on the line through the
    nearest earlier and the nearest later one, and a value missing before the
    first detection repeats it.  The middle frame of [[0,0,2,2], missing,
    [4,4,6,6]] becomes [2,2,4,4]; the first frame of [missing, [4,4,6,6]]
    becomes equal to the second. *)
Theorem interpolate_ball_positions_spec :
  (forall ball_positions : list (dict bbox),
     (exists t b, detection ball_positions t = Some b) ->
     exists out,
       interpolate_ball_positions ball_positions = Ok out
       /\ interpolation_of ball_positions out)
  /\ (exists a b c d,
        interpolate_ball_positions ball_gap_in_the_middle
        = Ok [ [(1, box 0 0 2 2)]; [(1, (a, b, c, d))]; [(1, box 4 4 6 6)] ]
        /\ (a == 2 /\ b == 2 /\ c == 4 /\ d == 4)%Q)
  /\ interpolate_ball_positions ball_gap_at_the_start
     = Ok [ [(1, box 4 4 6 6)]; [(1, box 4 4 6 6)] ].
Proof.
  split; [| split].
  - intros bp [t0 [b0 Hdet]].
    set (rows := map (fun x => get_opt x 1) bp).
    assert (Hrows : length rows = length bp) by apply length_map.
    assert (Hsome : forallb Pandas.is_none rows = false).
    { apply forallb_is_none_false. exists t0, b0. unfold rows.
      rewrite nth_error_detections by (eapply detection_lt; exact Hdet).
      rewrite Hdet. reflexivity. }
    assert (Hknown : forall ch, exists k v,
              nth_error (map (option_map (coord ch)) rows) k = Some (Some v)).
    { intros ch. exists t0, (coord ch b0). unfold rows.
      rewrite column_cell by (eapply detection_lt; exact Hdet).
      rewrite Hdet. reflexivity. }
    set (col := fun ch => Pandas.bfill (Pandas.interpolate (map (option_map (coord ch)) rows))).
    assert (Hcol_len : forall ch, length (col ch) = length bp).
    { intros ch. unfold col. rewrite fill_length, length_map. exact Hrows. }
    assert (Hcell : forall ch t, (t < length bp)%nat ->
              exists w, nth_error (col ch) t = Some (Some w)).
    { intros ch t Ht. unfold col. apply fill_total; [apply Hknown |].
      rewrite length_map, Hrows. exact Ht. }
    set (filled := rows_of_frame (col X1) (col Y1) (col X2) (col Y2)).
    assert (Hfilled_len : length filled = length bp).
    { unfold filled. rewrite length_rows_of_frame; rewrite ?Hcol_len; auto. }
    assert (Hfilled : forall t, (t < length bp)%nat ->
              exists b, nth_error filled t = Some (Some b)
                        /\ forall ch, nth_error (col ch) t = Some (Some (coord ch b))).
    { intros t Ht.
      destruct (Hcell X1 t Ht) as [w1 H1]. destruct (Hcell Y1 t Ht) as [w2 H2].
      destruct (Hcell X2 t Ht) as [w3 H3]. destruct (Hcell Y2 t Ht) as [w4 H4].
      exists (w1, w2, w3, w4). split.
      - unfold filled. rewrite (nth_error_rows_of_frame _ _ _ _ t _ _ _ _ H1 H2 H3 H4).
        reflexivity.
      - intros [| | |]; assumption. }
    assert (Hrun : exists out,
              comprehension (fun x : option bbox =>
                               match x with
                               | Some b => Ok [(1, b)]
                               | None => Raise ValueError
                               end) filled = Ok out).
    { apply comprehension_total. intros x Hx. apply In_nth_error in Hx.
      destruct Hx as [t Ht].
      assert (Hlt : (t < length bp)%nat).
      { rewrite <- Hfilled_len. apply nth_error_Some. congruence. }
      destruct (Hfilled t Hlt) as [b [Hb _]]. rewrite Hb in Ht. inversion Ht. eauto. }
    destruct Hrun as [out Hout]. exists out.
    destruct (comprehension_nth _ _ _ Hout) as [Hlen Hnth].
    unfold interpolation_of.
    split; [| split].
    + unfold interpolate_ball_positions. fold rows. unfold Pandas.DataFrame.
      destruct rows as [| r rows'] eqn:Er; [simpl in Hrows; destruct bp; discriminate |].
      rewrite Hsome, bind_ret. simpl Pandas.x1. simpl Pandas.y1.
      simpl Pandas.x2. simpl Pandas.y2. exact Hout.
    + etransitivity; [exact Hlen | exact Hfilled_len].
    + intros t Ht. destruct (Hfilled t Ht) as [b [Hb Hch]]. exists b.
      destruct (Hnth t _ Hb) as [y [Hy Hfy]]. inversion Hfy. subst y.
      split; [exact Hy |]. intros ch. specialize (Hch ch). unfold col in Hch.
      split; [| split].
      * intros bt Hbt.
        assert (H : nth_error (map (option_map (coord ch)) rows) t = Some (Some (coord ch bt))).
        { unfold rows. rewrite column_cell by exact Ht. rewrite Hbt. reflexivity. }
        apply fill_known in H. rewrite H in Hch. inversion Hch. reflexivity.
      * intros a e ba be Hate Ha He Hnone.
        assert (Hlt_e : (e < length bp)%nat) by (eapply detection_lt; exact He).
        assert (H : nth_error (Pandas.bfill (Pandas.interpolate
                                 (map (option_map (coord ch)) rows))) t
                    = Some (Some ((coord ch be - coord ch ba)
                                  / inject_Z (Z.of_nat e - Z.of_nat a)
                                  * inject_Z (Z.of_nat t - Z.of_nat a) + coord ch ba)%Q)).
        { apply fill_gap; [exact Hate | | |].
          - unfold rows. rewrite column_cell by lia. rewrite Ha. reflexivity.
          - unfold rows. rewrite column_cell by lia. rewrite He. reflexivity.
          - intros j Hj. unfold rows. rewrite column_cell by lia.
            rewrite (Hnone j Hj). reflexivity. }
        assert (Heq : coord ch b
                      = ((coord ch be - coord ch ba) / inject_Z (Z.of_nat e - Z.of_nat a)
                         * inject_Z (Z.of_nat t - Z.of_nat a) + coord ch ba)%Q)
          by congruence.
        rewrite Heq. field. apply inject_Z_nonzero. lia.
      * intros e be Hte He Hnone.
        assert (Hlt_e : (e < length bp)%nat) by (eapply detection_lt; exact He).
        assert (H : nth_error (Pandas.bfill (Pandas.interpolate
                                 (map (option_map (coord ch)) rows))) t
                    = Some (Some (coord ch be))).
        { apply (fill_leading _ t e); [exact Hte | |].
          - unfold rows. rewrite column_cell by lia. rewrite He. reflexivity.
          - intros j Hj. unfold rows. rewrite column_cell by lia.
            rewrite (Hnone j Hj). reflexivity. }
        rewrite H in Hch. inversion Hch. reflexivity.
  - eexists. eexists. eexists. eexists. split.
    + vm_compute. reflexivity.
    + repeat split; reflexivity.
  - vm_compute. reflexivity.
Qed.

Lemma interpolate_ball_positions_spec_witness :
  exists out,
    interpolate_ball_positions ball_gap_in_the_middle = Ok out
    /\ interpolation_of ball_gap_in_the_middle out.
Proof.
  apply (proj1 interpolate_ball_positions_spec ball_gap_in_the_middle).
  exists 0%nat, (box 0 0 2 2). reflexivity.
Defined.

(* ================================================================== *)
(** * The detection of the shots *)
(* ================================================================== *)

Lemma index_cell (s : Pandas.series) (j : Z) :
  0 <= j < Z.of_nat (length s) -> index s j = Ok (cell s j).
Proof.
  intros Hj. apply index_Ok_nth; [lia |]. unfold cell.
  apply nth_error_nth'. lia.
Qed.

(** ** One pass of each loop *)

Lemma change_step_eq (s : Pandas.series) (i j acc : Z) :
  0 <= i < Z.of_nat (length s) -> 0 <= j < Z.of_nat (length s) ->
  change_step s i (reversal_down s i) (reversal_up s i) acc j
  = Ok (if follows s i j then acc + 1 else acc).
Proof.
  intros Hi Hj. unfold change_step, follows.
  rewrite (index_cell s i Hi), bind_ret.
  destruct (Pandas.gt0 (cell s i)) eqn:Eg;
    rewrite ?(index_cell s j Hj), ?bind_ret;
    destruct (Pandas.lt0 (cell s i)) eqn:El;
    rewrite ?(index_cell s j Hj), ?bind_ret;
    destruct (reversal_down s i), (reversal_up s i),
             (Pandas.lt0 (cell s j)), (Pandas.gt0 (cell s j)); reflexivity.
Qed.

Lemma change_loop_eq (s : Pandas.series) (i : Z) (l : list Z) (acc : Z) :
  0 <= i < Z.of_nat (length s) ->
  (forall j, In j l -> 0 <= j < Z.of_nat (length s)) ->
  for_each (change_step s i (reversal_down s i) (reversal_up s i)) l acc
  = Ok (acc + Z.of_nat (length (filter (follows s i) l))).
Proof.
  intros Hi. revert acc. induction l as [| j l IH]; intros acc Hl; simpl.
  - rewrite Z.add_0_r. reflexivity.
  - rewrite change_step_eq by (try exact Hi; apply Hl; left; reflexivity).
    rewrite bind_ret, IH by (intros j' Hj'; apply Hl; right; exact Hj').
    destruct (follows s i j); simpl; f_equal; lia.
Qed.

Lemma hit_step_eq (s : Pandas.series) (ball_hit : list Z) (i : Z) :
  1 <= i -> i + lookahead < Z.of_nat (length s) ->
  hit_step s ball_hit i = Ok (mark s ball_hit i).
Proof.
  unfold lookahead. intros Hi Hn. unfold hit_step, mark, shot_at.
  assert (Hi0 : 0 <= i < Z.of_nat (length s)) by lia.
  assert (Hi1 : 0 <= i + 1 < Z.of_nat (length s)) by lia.
  rewrite (index_cell s i Hi0), bind_ret.
  assert (Hdown : (if Pandas.gt0 (cell s i)
                   then Py.bind (index s (i + 1)) (fun dn => Ok (Pandas.lt0 dn))
                   else Ok false) = Ok (reversal_down s i)).
  { unfold reversal_down. destruct (Pandas.gt0 (cell s i)); [| reflexivity].
    rewrite (index_cell s (i + 1) Hi1). reflexivity. }
  assert (Hup : (if Pandas.lt0 (cell s i)
                 then Py.bind (index s (i + 1)) (fun dn => Ok (Pandas.gt0 dn))
                 else Ok false) = Ok (reversal_up s i)).
  { unfold reversal_up. destruct (Pandas.lt0 (cell s i)); [| reflexivity].
    rewrite (index_cell s (i + 1) Hi1). reflexivity. }
  rewrite Hdown, !bind_ret, Hup, bind_ret.
  destruct (reversal_down s i || reversal_up s i) eqn:E; [| reflexivity].
  rewrite change_loop_eq.
  - rewrite bind_ret. simpl. unfold change_count_of, lookahead.
    destruct (_ <? _); reflexivity.
  - exact Hi0.
  - intros j Hj. apply in_range in Hj. unfold lookahead in Hj. lia.
Qed.

Lemma hit_loop_eq (s : Pandas.series) (l : list Z) (ball_hit : list Z) :
  (forall i, In i l -> 1 <= i /\ i + lookahead < Z.of_nat (length s)) ->
  for_each (hit_step s) l ball_hit = Ok (fold_left (mark s) l ball_hit).
Proof.
  revert ball_hit. induction l as [| i l IH]; intros ball_hit Hl; simpl.
  - reflexivity.
  - destruct (Hl i) as [Hi Hn]; [left; reflexivity |].
    rewrite hit_step_eq, bind_ret by assumption.
    apply IH. intros i' Hi'. apply Hl. right. exact Hi'.
Qed.

(** ** The column [ball_hit] after the loop *)

Lemma length_set_loc {A : Type} (col : list A) (i : nat) (v : A) :
  length (Pandas.set_loc col i v) = length col.
Proof.
  revert i. induction col as [| x col IH]; intros i; simpl; [reflexivity |].
  destruct i; simpl; [reflexivity | rewrite IH; reflexivity].
Qed.

Lemma nth_error_set_loc {A : Type} (col : list A) (i k : nat) (v : A) :
  nth_error (Pandas.set_loc col i v) k
  = if Nat.eqb k i then (if Nat.ltb k (length col) then Some v else None)
    else nth_error col k.
Proof.
  revert i k. induction col as [| x col IH]; intros i k; simpl.
  - destruct (Nat.eqb k i); destruct k; reflexivity.
  - destruct i as [| i]; destruct k as [| k]; simpl; try reflexivity.
    rewrite IH. reflexivity.
Qed.

Lemma length_fold_mark (s : Pandas.series) (l : list Z) (ball_hit : list Z) :
  length (fold_left (mark s) l ball_hit) = length ball_hit.
Proof.
  revert ball_hit. induction l as [| i l IH]; intros ball_hit; simpl; [reflexivity |].
  rewrite IH. unfold mark. destruct (shot_at s i); [apply length_set_loc | reflexivity].
Qed.

Lemma fold_mark_hit (s : Pandas.series) (l : list Z) (ball_hit : list Z) (k : nat) :
  nth_error (fold_left (mark s) l ball_hit) k = Some 1
  <-> nth_error ball_hit k = Some 1
      \/ ((k < length ball_hit)%nat
          /\ exists i, In i l /\ Z.to_nat i = k /\ shot_at s i = true).
Proof.
  revert ball_hit. induction l as [| i l IH]; intros ball_hit; simpl.
  - split; [auto | intros [H | [_ [i [[] _]]]]; exact H].
  - rewrite IH. unfold mark at 1 2. destruct (shot_at s i) eqn:E.
    + rewrite nth_error_set_loc, length_set_loc.
      destruct (Nat.eqb k (Z.to_nat i)) eqn:Ek.
      * apply Nat.eqb_eq in Ek. destruct (Nat.ltb k (length ball_hit)) eqn:El.
        -- apply Nat.ltb_lt in El. split; intros _.
           ++ right. split; [exact El |]. exists i. auto.
           ++ left. reflexivity.
        -- apply Nat.ltb_ge in El. split.
           ++ intros [H | [Hlt _]]; [discriminate | lia].
           ++ intros [H | [Hlt _]]; [| lia].
              assert (nth_error ball_hit k <> None) by congruence.
              apply nth_error_Some in H0. lia.
      * apply Nat.eqb_neq in Ek. split.
        -- intros [H | [Hlt [j [Hj [Hk Hs]]]]]; [left; exact H |].
           right. split; [exact Hlt |]. exists j. auto.
        -- intros [H | [Hlt [j [[Hj | Hj] [Hk Hs]]]]]; [left; exact H | subst; lia |].
           right. split; [exact Hlt |]. exists j. auto.
    + split.
      * intros [H | [Hlt [j [Hj [Hk Hs]]]]]; [left; exact H |].
        right. split; [exact Hlt |]. exists j. auto.
      * intros [H | [Hlt [j [[Hj | Hj] [Hk Hs]]]]]; [left; exact H | subst; congruence |].
        right. split; [exact Hlt |]. exists j. auto.
Qed.

Lemma map_fst_enumerate {A : Type} (l : list A) :
  map fst (enumerate l) = range 0 (Z.of_nat (length l)).
Proof.
  apply nth_error_ext. intros n.
  rewrite nth_error_map, nth_error_enumerate. unfold range.
  rewrite nth_error_map, Z.sub_0_r, Nat2Z.id.
  destruct (nth_error l n) eqn:E; simpl.
  - assert (Hn : (n < length l)%nat) by (apply nth_error_Some; congruence).
    rewrite (nth_error_nth' _ O) by (rewrite length_seq; exact Hn).
    rewrite seq_nth by exact Hn. reflexivity.
  - apply nth_error_None in E.
    assert (H : nth_error (seq 0 (length l)) n = None)
      by (apply nth_error_None; rewrite length_seq; exact E).
    rewrite H. reflexivity.
Qed.

Lemma range_sorted (lo hi : Z) : StronglySorted Z.lt (range lo hi).
Proof.
  unfold range. generalize (Z.to_nat (hi - lo)) as n. intros n.
  assert (H : forall s, StronglySorted Z.lt (map (fun k => lo + Z.of_nat k) (seq s n))).
  { induction n as [| n IH]; intros s; simpl; constructor.
    - apply IH.
    - apply Forall_forall. intros x Hx. apply in_map_iff in Hx.
      destruct Hx as [k [<- Hk]]. apply in_seq in Hk. lia. }
  apply H.
Qed.

Lemma filter_fst_sorted {A : Type} (p : Z * A -> bool) (l : list (Z * A)) :
  StronglySorted Z.lt (map fst l) -> StronglySorted Z.lt (map fst (filter p l)).
Proof.
  induction l as [| x l IH]; simpl; intros H; [constructor |].
  apply StronglySorted_inv in H. destruct H as [Hs Hall].
  destruct (p x); simpl; [| apply IH; exact Hs].
  constructor; [apply IH; exact Hs |].
  apply Forall_forall. intros y Hy. apply in_map_iff in Hy.
  destruct Hy as [z [<- Hz]]. apply filter_In in Hz. destruct Hz as [Hz _].
  eapply Forall_forall in Hall; [exact Hall |]. apply in_map. exact Hz.
Qed.

(** The frames that are returned are the rows of [ball_hit] that hold 1, in
    increasing order. *)
Lemma hit_frames (ball_hit : list Z) (i : Z) :
  In i (map fst (filter (fun '(_, h) => h =? 1) (enumerate ball_hit)))
  <-> 0 <= i /\ nth_error ball_hit (Z.to_nat i) = Some 1.
Proof.
  rewrite in_map_iff. split.
  - intros [[i' h] [Hi Hin]]. simpl in Hi. subst i'.
    apply filter_In in Hin. destruct Hin as [Hin Hh].
    apply In_enumerate in Hin. apply Z.eqb_eq in Hh. subst h. exact Hin.
  - intros [Hi Hn]. exists (i, 1). split; [reflexivity |].
    apply filter_In. split; [| reflexivity]. apply In_enumerate. auto.
Qed.

(** ** The column [delta_y] of a trajectory without gaps *)

Section DeltaFacts.
Import Pandas.
Variable trajectory : list bbox.

Let n : nat := length trajectory.
Let m (b : bbox) : Q := ((coord Y1 b + coord Y2 b) / 2)%Q.

Lemma DataFrame_of_trajectory :
  exists df, DataFrame (map Some trajectory) = Ok df
             /\ forall ch, column ch df = map (fun b => Some (coord ch b)) trajectory.
Proof.
  destruct trajectory as [| b rest] eqn:E.
  - eexists. split; [reflexivity |]. intros [| | |]; reflexivity.
  - eexists. split; [reflexivity |].
    intros [| | |]; simpl; rewrite map_map; reflexivity.
Qed.

Lemma mid_y_column (l : list bbox) :
  div_scalar (add (map (fun b => Some (coord Y1 b)) l) (map (fun b => Some (coord Y2 b)) l)) 2
  = map Some (map m l).
Proof.
  unfold div_scalar, add. induction l as [| b l IH]; simpl; [reflexivity |].
  f_equal. exact IH.
Qed.

Lemma valid_map_Some (l : list Q) : valid (map Some l) = l.
Proof. induction l as [| x l IH]; simpl; [reflexivity | f_equal; exact IH]. Qed.

Lemma window_map {A B : Type} (f : A -> B) (w : nat) (l : list A) (t : nat) :
  window w (map f l) t = map f (window w l t).
Proof. unfold window. rewrite firstn_map, skipn_map. reflexivity. Qed.

Lemma skipn_firstn_seq {A : Type} (d : A) (l : list A) (a b : nat) :
  (b <= length l)%nat ->
  skipn a (firstn b l) = map (fun j => nth j l d) (seq a (b - a)).
Proof.
  revert a b. induction l as [| x l IH]; intros a b Hb.
  - simpl in Hb. assert (b = O) by lia. subst b. destruct a; reflexivity.
  - destruct b as [| b]; [destruct a; reflexivity |].
    simpl in Hb. destruct a as [| a].
    + cbn [firstn skipn]. rewrite Nat.sub_0_r. cbn [seq map nth]. f_equal.
      change (firstn b l) with (skipn 0 (firstn b l)).
      rewrite (IH O b) by lia. rewrite Nat.sub_0_r, <- seq_shift, map_map.
      reflexivity.
    + cbn [firstn skipn]. rewrite (IH a b) by lia.
      replace (S b - S a)%nat with (b - a)%nat by lia.
      rewrite <- seq_shift, map_map. reflexivity.
Qed.

Lemma nth_mid_y (j : nat) : nth j (map m trajectory) 0%Q = mid_y trajectory j.
Proof.
  unfold mid_y. destruct (nth_error trajectory j) as [b |] eqn:E.
  - apply nth_error_nth. rewrite nth_error_map, E. reflexivity.
  - apply nth_overflow. rewrite length_map. apply nth_error_None. exact E.
Qed.

Lemma rolling_mean_cell (t : nat) :
  (t < n)%nat ->
  mean (valid (window 5 (map Some (map m trajectory)) t)) = Some (smoothed trajectory t).
Proof.
  intros Ht. rewrite window_map, valid_map_Some. unfold window.
  rewrite (skipn_firstn_seq 0%Q) by (rewrite length_map; fold n; lia).
  replace (t + 1 - 5)%nat with (t - 4)%nat by lia.
  rewrite (map_ext _ (mid_y trajectory)) by apply nth_mid_y.
  unfold smoothed, mean.
  destruct (seq (t - 4) (t + 1 - (t - 4))) as [| j l] eqn:E.
  - apply (f_equal (@length nat)) in E. rewrite length_seq in E. simpl in E. lia.
  - rewrite <- E. rewrite length_map, length_seq.
    destruct (map (mid_y trajectory) (seq (t - 4) (t + 1 - (t - 4)))) eqn:E';
      [rewrite E in E'; discriminate | reflexivity].
Qed.

Lemma rolling_mean_column :
  rolling_mean 5 (map Some (map m trajectory))
  = map (fun t => Some (smoothed trajectory t)) (seq 0 n).
Proof.
  unfold rolling_mean. rewrite !length_map. fold n.
  apply map_ext_in. intros t Ht. apply in_seq in Ht.
  apply rolling_mean_cell. lia.
Qed.

Lemma nth_error_diff_tail (f : nat -> Q) (s k t : nat) :
  (t < k)%nat ->
  nth_error (map (fun '(x, y) => lift2 Qminus x y)
               (combine (map (fun j => Some (f j)) (seq (S s) k))
                        (map (fun j => Some (f j)) (seq s (S k))))) t
  = Some (Some (f (S s + t)%nat - f (s + t)%nat)%Q).
Proof.
  revert s t. induction k as [| k IH]; intros s t Ht; [lia |].
  destruct t as [| t].
  - simpl. rewrite !Nat.add_0_r. reflexivity.
  - cbn [seq map combine nth_error]. cbn [seq map] in IH.
    rewrite (IH (S s) t) by lia.
    replace (S (S s) + t)%nat with (S s + S t)%nat by lia.
    replace (S s + t)%nat with (s + S t)%nat by lia. reflexivity.
Qed.

(** The rows of [delta_y]: NaN on the first, [delta] on the others. *)
Lemma delta_y_cells (df : frame) :
  (forall ch, column ch df = map (fun b => Some (coord ch b)) trajectory) ->
  length (delta_y_of df) = n
  /\ forall t, (1 <= t < n)%nat -> cell (delta_y_of df) (Z.of_nat t) = Some (delta trajectory t).
Proof.
  intros Hcol. unfold delta_y_of.
  pose proof (Hcol Y1) as H1. pose proof (Hcol Y2) as H2. simpl in H1, H2.
  rewrite H1, H2, mid_y_column, rolling_mean_column.
  destruct n as [| k] eqn:En; [split; [reflexivity | intros; lia] |].
  cbn [seq map diff]. split.
  - cbn [length]. rewrite length_map, length_combine. cbn [length].
    rewrite !length_map, !length_seq. lia.
  - intros t Ht. unfold cell. rewrite Nat2Z.id.
    destruct t as [| t]; [lia |]. cbn [nth].
    apply nth_error_nth.
    change (Some (smoothed trajectory 0) :: map (fun t0 => Some (smoothed trajectory t0)) (seq 1 k))
      with (map (fun t0 => Some (smoothed trajectory t0)) (seq 0 (S k))).
    rewrite (nth_error_diff_tail (smoothed trajectory) 0 k t) by lia.
    unfold delta. simpl. rewrite Nat.sub_0_r. reflexivity.
Qed.

End DeltaFacts.

(** ** The decision on one frame *)

Lemma Qltb_asym (a b : Q) : Qltb a b = true -> Qltb b a = true -> False.
Proof.
  intros H1 H2. apply Qltb_lt in H1. apply Qltb_lt in H2.
  apply (Qlt_irrefl a). eapply Qlt_trans; eassumption.
Qed.

Lemma range_of_nat (a k : nat) :
  range (Z.of_nat a) (Z.of_nat a + Z.of_nat k) = map Z.of_nat (seq a k).
Proof.
  unfold range. replace (Z.of_nat a + Z.of_nat k - Z.of_nat a) with (Z.of_nat k) by lia.
  rewrite Nat2Z.id.
  assert (H : forall s, map (fun j => Z.of_nat a + Z.of_nat j) (seq s k)
                        = map Z.of_nat (seq (a + s) k)).
  { induction k as [| k IH]; intros s; [reflexivity |].
    cbn [seq map]. f_equal; [lia |].
    rewrite IH. replace (a + S s)%nat with (S (a + s)) by lia. reflexivity. }
  rewrite H, Nat.add_0_r. reflexivity.
Qed.

Lemma length_filter_map {A B : Type} (f : B -> bool) (g : A -> B) (l : list A) :
  length (filter f (map g l)) = length (filter (fun x => f (g x)) l).
Proof.
  induction l as [| x l IH]; simpl; [reflexivity |].
  destruct (f (g x)); simpl; rewrite IH; reflexivity.
Qed.

Lemma shot_at_spec (trajectory : list bbox) (s : Pandas.series) (i : nat) :
  (forall t, (1 <= t < length trajectory)%nat ->
             cell s (Z.of_nat t) = Some (delta trajectory t)) ->
  (1 <= i)%nat -> (i + 31 <= length trajectory)%nat ->
  shot_at s (Z.of_nat i) = true
  <-> opposite_signs (delta trajectory i) (delta trajectory (i + 1))
      /\ (25 <= persistence trajectory i)%nat.
Proof.
  intros Hcell Hi Hn.
  assert (Hci : cell s (Z.of_nat i) = Some (delta trajectory i)) by (apply Hcell; lia).
  assert (Hci1 : cell s (Z.of_nat i + 1) = Some (delta trajectory (i + 1))).
  { replace (Z.of_nat i + 1) with (Z.of_nat (i + 1)) by lia. apply Hcell. lia. }
  assert (Hrev : reversal_down s (Z.of_nat i) || reversal_up s (Z.of_nat i) = true
                 <-> opposite_signs (delta trajectory i) (delta trajectory (i + 1))).
  { unfold reversal_down, reversal_up, opposite_signs. rewrite Hci, Hci1. simpl.
    rewrite orb_true_iff, !andb_true_iff, !Qltb_lt. reflexivity. }
  assert (Hcount : reversal_down s (Z.of_nat i) || reversal_up s (Z.of_nat i) = true ->
                   change_count_of s (Z.of_nat i) = Z.of_nat (persistence trajectory i)).
  { intros Hr. unfold change_count_of, persistence, lookahead. f_equal.
    replace (Z.of_nat i + 1) with (Z.of_nat (i + 1)) by lia.
    replace (Z.of_nat i + 30 + 1) with (Z.of_nat (i + 1) + Z.of_nat 30) by lia.
    rewrite range_of_nat, length_filter_map. f_equal.
    apply filter_ext_in. intros j Hj. apply in_seq in Hj.
    assert (Hcj : cell s (Z.of_nat j) = Some (delta trajectory j)) by (apply Hcell; lia).
    unfold follows. revert Hr. unfold reversal_down, reversal_up, same_sign.
    rewrite Hci, Hci1, Hcj. simpl.
    destruct (Qltb 0 (delta trajectory i)) eqn:Ea,
             (Qltb (delta trajectory i) 0) eqn:Eb;
      try (exfalso; exact (Qltb_asym _ _ Ea Eb));
      destruct (Qltb 0 (delta trajectory (i + 1))) eqn:Ec,
               (Qltb (delta trajectory (i + 1)) 0) eqn:Ed;
      try (exfalso; exact (Qltb_asym _ _ Ec Ed));
      simpl; intros Hr; try discriminate;
      destruct (Qltb 0 (delta trajectory j)), (Qltb (delta trajectory j) 0);
      reflexivity. }
  unfold shot_at. rewrite andb_true_iff, Hrev. split.
  - intros [Ho Hc]. split; [exact Ho |].
    rewrite Hcount in Hc by (apply Hrev; exact Ho).
    unfold minimum_change_frames_for_hit in Hc. apply Z.ltb_lt in Hc. lia.
  - intros [Ho Hc]. split; [exact Ho |].
    rewrite Hcount by (apply Hrev; exact Ho).
    unfold minimum_change_frames_for_hit. apply Z.ltb_lt. lia.
Qed.

(** C5.  On a ball trajectory without gaps the detector returns, in
    increasing order and after frame 0, exactly the frames [i] with
    [1 <= i <= n - 1 - 30] on which the smoothed vertical midpoint reverses its
    direction ([delta i] and [delta (i+1)] have strictly opposite signs) and
    keeps the new direction on at least 25 of the frames [i+1 .. i+30]. *)
Theorem get_ball_shot_frames_spec
    (ball_positions : list (dict bbox)) (trajectory : list bbox) :
  map (fun x => get_opt x 1) ball_positions = map Some trajectory ->
  exists frames,
    get_ball_shot_frames ball_positions = Ok frames
    /\ StronglySorted Z.lt (0 :: frames)
    /\ forall i : Z, In i frames <-> 0 <= i /\ is_shot trajectory (Z.to_nat i).
Proof.
  intros Hrows. unfold get_ball_shot_frames. rewrite Hrows.
  destruct (DataFrame_of_trajectory trajectory) as [df [Hdf Hcol]].
  rewrite Hdf, bind_ret.
  destruct (delta_y_cells trajectory df Hcol) as [Hlen Hcell].
  rewrite length_map.
  set (n := length trajectory) in *.
  rewrite hit_loop_eq.
  2:{ intros i Hi. apply in_range in Hi. unfold lookahead in *. rewrite Hlen. lia. }
  rewrite bind_ret.
  set (ball_hit := fold_left (mark (delta_y_of df))
                     (range 1 (Z.of_nat n - lookahead)) (map (fun _ => 0) (map Some trajectory))).
  set (frames := map fst (filter (fun '(_, h) => h =? 1) (enumerate ball_hit))).
  assert (Hshots : forall i : Z, In i frames <-> 0 <= i /\ is_shot trajectory (Z.to_nat i)).
  { intros i. unfold frames. rewrite hit_frames. unfold ball_hit. rewrite fold_mark_hit.
    rewrite !length_map. fold n. unfold is_shot. fold n. split.
    - intros [Hi [H | [Hlt [j [Hj [Hk Hs]]]]]].
      + rewrite nth_error_map in H.
        destruct (nth_error (map Some trajectory) (Z.to_nat i)); discriminate.
      + apply in_range in Hj. unfold lookahead in Hj.
        assert (j = i) by lia. subst j.
        split; [exact Hi |].
        assert (H1 : (1 <= Z.to_nat i)%nat) by lia.
        assert (H2 : (Z.to_nat i + 31 <= n)%nat) by lia.
        split; [exact H1 |]. split; [exact H2 |].
        apply (shot_at_spec trajectory (delta_y_of df) (Z.to_nat i) Hcell H1 H2).
        rewrite Z2Nat.id by lia. exact Hs.
    - intros [Hi [H1 [H2 Hshot]]]. split; [exact Hi |]. right.
      split; [lia |]. exists i. split; [| split; [reflexivity |]].
      + apply in_range. unfold lookahead. lia.
      + rewrite <- (Z2Nat.id i) by lia.
        apply (shot_at_spec trajectory (delta_y_of df) (Z.to_nat i) Hcell H1 H2).
        exact Hshot. }
  exists frames. split; [reflexivity |]. split; [| exact Hshots].
  constructor.
  - unfold frames. apply filter_fst_sorted. rewrite map_fst_enumerate. apply range_sorted.
  - apply Forall_forall. intros i Hi. apply Hshots in Hi.
    destruct Hi as [Hi [H1 _]]. lia.
Qed.

Lemma get_ball_shot_frames_spec_witness :
  exists frames,
    get_ball_shot_frames zigzag_ball = Ok frames
    /\ StronglySorted Z.lt (0 :: frames)
    /\ forall i : Z, In i frames <-> 0 <= i /\ is_shot zigzag_trajectory (Z.to_nat i).
Proof.
  apply (get_ball_shot_frames_spec zigzag_ball zigzag_trajectory).
  vm_compute. reflexivity.
Defined.

(* ================================================================== *)
(** * The statistics of the shots *)
(* ================================================================== *)

Section StatsFacts.
Import Main.
Local Open Scope float_scope.

(** The drawing of the court is 210 pixels wide on every frame. *)
Lemma width_of_mini_court (c : constants) (frame_width : Z) (mc : mini_court) :
  MiniCourt c frame_width = Ok mc -> get_width_of_mini_court mc = 210%Z.
Proof.
  unfold MiniCourt. intros H. bind_inv H. inversion H. subst. clear H.
  unfold get_width_of_mini_court. simpl.
  unfold canvas_start_x, canvas_end_x. lia.
Qed.

(** C4.  With the ball at (100, 100) on frame 10 and at (100, 400) on frame
    58, a double-line width of 10.97 m and the mini court of any frame, the
    loop measures for the shot of frames (10, 58) a ball speed within 0.01 of
    28.2 km/h: 300 px are 300 x 10.97 / 210 m, covered in 48 / 24 = 2 s. *)
Theorem shot_speed_of_the_scenario
    (c : constants) (frame_width : Z) (mc : mini_court)
    (player_positions ball_positions : list (dict position)) (s : shot) :
  DOUBLE_LINE_WIDTH c = (1097 # 100)%Q ->
  MiniCourt c frame_width = Ok mc ->
  ball_at ball_positions 10 = Ok (100, 100) ->
  ball_at ball_positions 58 = Ok (100, 400) ->
  measure_shot c (get_width_of_mini_court mc) player_positions ball_positions 10 58 = Ok s ->
  speed_of_ball_shot s = 300 * 10.97 / 210 / 2 * 3.6
  /\ PrimFloat.leb (PrimFloat.abs (speed_of_ball_shot s - 28.2)) 0.01 = true.
Proof.
  intros Hw Hmc H10 H58 H.
  rewrite (width_of_mini_court _ _ _ Hmc) in H.
  unfold measure_shot in H. rewrite H10, H58, !bind_ret in H.
  assert (Hd : measure_distance (100, 100) (100, 400) = Ok 300) by (vm_compute; reflexivity).
  rewrite Hd, bind_ret in H.
  assert (Hs : speed_kmh c 210 300 (Z_to_float (58 - 10) / 24)
               = Ok (300 * 10.97 / 210 / 2 * 3.6)).
  { unfold speed_kmh, mini_court_meters. rewrite Hw. vm_compute. reflexivity. }
  rewrite Hs, bind_ret in H.
  repeat bind_inv H. inversion H. subst. simpl. split.
  - reflexivity.
  - vm_compute. reflexivity.
Qed.

Lemma shot_speed_of_the_scenario_witness :
  measure_shot court_constants (get_width_of_mini_court court_1920)
    (scenario_players 1 2) scenario_ball 10 58 = Ok scenario_shot
  /\ PrimFloat.leb (PrimFloat.abs (speed_of_ball_shot scenario_shot - 28.2)) 0.01 = true.
Proof.
  assert (H : measure_shot court_constants (get_width_of_mini_court court_1920)
                (scenario_players 1 2) scenario_ball 10 58 = Ok scenario_shot)
    by (vm_compute; reflexivity).
  split; [exact H |].
  refine (proj2 (shot_speed_of_the_scenario court_constants 1920 court_1920
                   (scenario_players 1 2) scenario_ball scenario_shot _ _ _ _ H)).
  - reflexivity.
  - vm_compute. reflexivity.
  - vm_compute. reflexivity.
  - vm_compute. reflexivity.
Defined.

Lemma min_from_In {A K : Type} (ltb : K -> K -> bool) (key : A -> result K)
    (l : list A) (best : A) (kbest : K) (x : A) :
  min_from ltb key best kbest l = Ok x -> x = best \/ In x l.
Proof.
  revert best kbest. induction l as [| y l IH]; intros best kbest H; simpl in H.
  - inversion H. left. reflexivity.
  - bind_inv H. destruct (ltb a kbest).
    + apply IH in H. destruct H as [-> | H]; right; [left; reflexivity | right; exact H].
    + apply IH in H. destruct H as [-> | H]; [left; reflexivity | right; right; exact H].
Qed.

Lemma min_by_In {A K : Type} (ltb : K -> K -> bool) (key : A -> result K)
    (l : list A) (x : A) :
  min_by ltb key l = Ok x -> In x l.
Proof.
  destruct l as [| y l]; simpl; [discriminate |].
  intros H. bind_inv H. apply min_from_In in H. destruct H as [-> | H]; auto.
Qed.

Lemma get_player_Ok (player_id : Z) (cs : cells) (ps : player_stats) :
  get_player player_id cs = Ok ps -> player_id = 1%Z \/ player_id = 2%Z.
Proof.
  unfold get_player.
  destruct (player_id =? 1)%Z eqn:E1; [apply Z.eqb_eq in E1; auto |].
  destruct (player_id =? 2)%Z eqn:E2; [apply Z.eqb_eq in E2; auto | discriminate].
Qed.

(** What a shot that could be measured says about the positions of its first
    frame. *)
Lemma measure_shot_Ok (c : constants) (width : Z) (players ball : list (dict position))
    (start_frame end_frame : Z) (s : shot) :
  measure_shot c width players ball start_frame end_frame = Ok s ->
  exists positions end_positions,
    index players start_frame = Ok positions
    /\ index players end_frame = Ok end_positions
    /\ shot_frame s = start_frame
    /\ In (player_shot_ball s) (keys positions)
    /\ opponent_player_id s = (if (player_shot_ball s =? 2)%Z then 1%Z else 2%Z)
    /\ In (opponent_player_id s) (keys positions)
    /\ In (opponent_player_id s) (keys end_positions).
Proof.
  unfold measure_shot. intros H.
  do 7 bind_inv H. do 4 bind_inv H. inversion H. subst. clear H. simpl.
  exists a3, a6. repeat split; try assumption.
  - eapply min_by_In. eassumption.
  - eapply get_Ok_In. eassumption.
  - eapply get_Ok_In. eassumption.
Qed.

(** A loop over the shots that ends normally measured every interval and
    updated the statistics with it. *)
Lemma player_stats_data_Ok_shot (c : constants) (width : Z)
    (players ball : list (dict position)) (ball_shot_frames : list Z)
    (rows : list snapshot) (k : Z) :
  player_stats_data c width players ball ball_shot_frames = Ok rows ->
  (0 <= k < Z.of_nat (length ball_shot_frames) - 1)%Z ->
  exists start_frame end_frame s previous current,
    index ball_shot_frames k = Ok start_frame
    /\ index ball_shot_frames (k + 1) = Ok end_frame
    /\ measure_shot c width players ball start_frame end_frame = Ok s
    /\ update_stats previous s = Ok current.
Proof.
  unfold player_stats_data. intros H Hk. bind_inv H.
  assert (Hin : In k (range 0 (Z.of_nat (length ball_shot_frames) - 1))).
  { apply in_range. exact Hk. }
  destruct (for_each_Ok_body _ _ _ _ _ Ha Hin) as [st [st' Hstep]].
  unfold shot_step in Hstep. do 4 bind_inv Hstep.
  exists a0, a1, a2, (snd st), a3. auto.
Qed.

Lemma update_stats_Ok (previous current : snapshot) (s : shot) :
  update_stats previous s = Ok current ->
  player_shot_ball s = 1%Z \/ player_shot_ball s = 2%Z.
Proof.
  unfold update_stats. intros H. bind_inv H. eapply get_player_Ok. eassumption.
Qed.

End StatsFacts.

(** ** The rows of the statistics are tallies of the shots *)

Section TallyFacts.
Import Main.
Local Open Scope float_scope.

Lemma tally_app (done : list shot) (s : shot) :
  tally (done ++ [s])
  = {| player_1 :=
         {| number_of_shots :=
              if (player_shot_ball s =? 1)%Z
              then (shot_count 1 done + 1)%Z else shot_count 1 done;
            total_shot_speed :=
              if (player_shot_ball s =? 1)%Z
              then shot_speed_sum 1 done + speed_of_ball_shot s else shot_speed_sum 1 done;
            last_shot_speed :=
              if (player_shot_ball s =? 1)%Z
              then speed_of_ball_shot s else last_shot_speed_of 1 done;
            total_player_speed :=
              if (opponent_player_id s =? 1)%Z
              then movement_speed_sum 1 done + speed_of_opponent s
              else movement_speed_sum 1 done;
            last_player_speed :=
              if (opponent_player_id s =? 1)%Z
              then speed_of_opponent s else last_player_speed_of 1 done |};
       player_2 :=
         {| number_of_shots :=
              if (player_shot_ball s =? 2)%Z
              then (shot_count 2 done + 1)%Z else shot_count 2 done;
            total_shot_speed :=
              if (player_shot_ball s =? 2)%Z
              then shot_speed_sum 2 done + speed_of_ball_shot s else shot_speed_sum 2 done;
            last_shot_speed :=
              if (player_shot_ball s =? 2)%Z
              then speed_of_ball_shot s else last_shot_speed_of 2 done;
            total_player_speed :=
              if (opponent_player_id s =? 2)%Z
              then movement_speed_sum 2 done + speed_of_opponent s
              else movement_speed_sum 2 done;
            last_player_speed :=
              if (opponent_player_id s =? 2)%Z
              then speed_of_opponent s else last_player_speed_of 2 done |} |}.
Proof.
  unfold tally, tally_player, shot_count, shot_speed_sum, last_shot_speed_of,
    movement_speed_sum, last_player_speed_of.
  rewrite !filter_app, !fold_left_app, !length_app. cbn [filter fold_left].
  destruct (player_shot_ball s =? 1)%Z, (player_shot_ball s =? 2)%Z,
           (opponent_player_id s =? 1)%Z, (opponent_player_id s =? 2)%Z;
    cbn [length]; rewrite ?Nat.add_0_r;
    repeat f_equal; lia.
Qed.

Lemma update_stats_tally (fr : Z) (done : list shot) (s : shot) (cur : snapshot) :
  opponent_player_id s = (if (player_shot_ball s =? 2)%Z then 1%Z else 2%Z) ->
  update_stats (fr, tally done) s = Ok cur ->
  cur = (shot_frame s, tally (done ++ [s])).
Proof.
  intros Ho H. pose proof (update_stats_Ok _ _ _ H) as Hs.
  rewrite tally_app. unfold update_stats in H. cbn [snd] in H.
  destruct Hs as [Hs | Hs]; rewrite Hs in *; cbn in Ho; rewrite Ho in *;
    cbn in H; inversion H; subst; reflexivity.
Qed.

Lemma snapshots_app (done shots : list shot) (s : shot) :
  snapshots done (shots ++ [s])
  = snapshots done shots ++ [(shot_frame s, tally (done ++ shots ++ [s]))].
Proof.
  revert done. induction shots as [| x shots IH]; intros done; simpl.
  - reflexivity.
  - rewrite IH, <- !app_assoc. reflexivity.
Qed.

End TallyFacts.

Section LoopFacts.
Import Main.
Variable c : constants.
Variable width : Z.
Variable players ball : list (dict position).
Variable ball_shot_frames : list Z.

Lemma range_snoc (j : nat) :
  range 0 (Z.of_nat (S j)) = range 0 (Z.of_nat j) ++ [Z.of_nat j].
Proof.
  unfold range. rewrite !Z.sub_0_r, !Nat2Z.id, seq_S, map_app. reflexivity.
Qed.

Lemma shot_step_Ok (st st' : list snapshot * snapshot) (k : Z) :
  shot_step c width players ball ball_shot_frames st k = Ok st' ->
  exists start_frame end_frame s cur,
    index ball_shot_frames k = Ok start_frame
    /\ index ball_shot_frames (k + 1) = Ok end_frame
    /\ measure_shot c width players ball start_frame end_frame = Ok s
    /\ update_stats (snd st) s = Ok cur
    /\ st' = (fst st ++ [snd st], cur).
Proof.
  unfold shot_step. intros H. do 4 bind_inv H. inversion H.
  eexists. eexists. eexists. eexists. repeat split; eassumption.
Qed.

(** The state of the loop after [j] passes. *)
Lemma shot_loop_prefix (j : nat) (st : list snapshot * snapshot) :
  for_each (shot_step c width players ball ball_shot_frames)
    (range 0 (Z.of_nat j)) ([], initial_snapshot) = Ok st ->
  exists shots fr,
    length shots = j
    /\ (forall k s, nth_error shots k = Some s ->
          exists start_frame end_frame,
            nth_error ball_shot_frames k = Some start_frame
            /\ nth_error ball_shot_frames (k + 1) = Some end_frame
            /\ measure_shot c width players ball start_frame end_frame = Ok s)
    /\ Forall (fun s => (player_shot_ball s = 1 \/ player_shot_ball s = 2)
                        /\ opponent_player_id s = 3 - player_shot_ball s) shots
    /\ snd st = (fr, tally shots)
    /\ fst st ++ [snd st] = initial_snapshot :: snapshots [] shots.
Proof.
  revert st. induction j as [| j IH]; intros st H.
  - simpl in H. inversion H. subst st. exists [], 0%Z.
    split; [reflexivity |]. split; [intros [| k] s Hk; discriminate |].
    split; [constructor |]. split; reflexivity.
  - rewrite range_snoc, for_each_app in H. bind_inv H.
    destruct (IH a Ha) as [shots [fr [Hlen [Hmeas [Hvalid [Hlast Hrows]]]]]].
    cbn [for_each] in H. apply bind_Ok in H. destruct H as [st' [Hstep H]].
    inversion H. subst st'. clear H.
    destruct (shot_step_Ok _ _ _ Hstep)
      as [start_frame [end_frame [s [cur [Ha0 [Ha1 [Ha2 [Ha3 Hst]]]]]]]].
    subst st.
    destruct (measure_shot_Ok _ _ _ _ _ _ _ Ha2) as [pos [epos [_ [_ [_ [_ [Hopp _]]]]]]].
    rewrite Hlast in Ha3. pose proof (update_stats_Ok _ _ _ Ha3) as Hstriker.
    apply (update_stats_tally _ _ _ _ Hopp) in Ha3. subst cur.
    exists (shots ++ [s]), (shot_frame s).
    split; [rewrite length_app; simpl; lia |]. split; [| split; [| split]].
    + intros k s' Hk. destruct (Nat.lt_ge_cases k (length shots)) as [Hlt | Hge].
      * rewrite nth_error_app1 in Hk by exact Hlt. apply Hmeas. exact Hk.
      * rewrite nth_error_app2 in Hk by exact Hge.
        destruct (k - length shots)%nat as [| d] eqn:Ed; [| destruct d; discriminate].
        simpl in Hk. inversion Hk. subst s'.
        assert (k = j) by lia. subst k.
        exists start_frame, end_frame. split; [| split; [| exact Ha2]].
        -- apply index_Ok_nth in Ha0; [| lia]. rewrite Nat2Z.id in Ha0. exact Ha0.
        -- apply index_Ok_nth in Ha1; [| lia].
           replace (Z.to_nat (Z.of_nat j + 1)) with (j + 1)%nat in Ha1 by lia. exact Ha1.
    + apply Forall_app. split; [exact Hvalid |]. constructor; [| constructor].
      split; [exact Hstriker |]. rewrite Hopp.
      destruct Hstriker as [-> | ->]; reflexivity.
    + reflexivity.
    + cbn [fst snd]. rewrite Hrows, snapshots_app. reflexivity.
Qed.

(** The rows of [player_stats_data]: the zeroed row of frame 0, then one row
    for each shot with the tally of the shots so far. *)
Lemma player_stats_data_rows (rows : list snapshot) :
  player_stats_data c width players ball ball_shot_frames = Ok rows ->
  exists shots,
    measured c width players ball ball_shot_frames shots
    /\ Forall (fun s => (player_shot_ball s = 1 \/ player_shot_ball s = 2)
                        /\ opponent_player_id s = 3 - player_shot_ball s) shots
    /\ rows = initial_snapshot :: snapshots [] shots.
Proof.
  unfold player_stats_data. intros H. bind_inv H. inversion H. subst rows. clear H.
  assert (Hrange : range 0 (Z.of_nat (length ball_shot_frames) - 1)
                   = range 0 (Z.of_nat (length ball_shot_frames - 1))).
  { destruct (length ball_shot_frames) as [| n]; [reflexivity |].
    f_equal. lia. }
  rewrite Hrange in Ha.
  destruct (shot_loop_prefix _ _ Ha) as [shots [fr [Hlen [Hmeas [Hvalid [_ Hrows]]]]]].
  exists shots. split; [split; assumption |]. split; assumption.
Qed.

End LoopFacts.

(** ** The table of the frames *)

Section TableFacts.
Import Main.

Lemma latest_None (rows : list snapshot) (f : Z) :
  Forall (fun r => f < fst r) rows -> latest rows f = None.
Proof.
  induction 1 as [| r rows Hr Hall IH]; simpl; [reflexivity |].
  rewrite IH. replace (fst r <=? f) with false by (symmetry; apply Z.leb_gt; lia).
  reflexivity.
Qed.

Lemma lookup_In (rows : list snapshot) (f : Z) (cs : cells) :
  lookup rows f = Some cs -> In (f, cs) rows.
Proof.
  unfold lookup. destruct (filter (fun r => fst r =? f) rows) as [| r l] eqn:E;
    [discriminate |].
  intros H. inversion H. subst cs.
  assert (Hin : In r (filter (fun r => fst r =? f) rows)) by (rewrite E; left; reflexivity).
  apply filter_In in Hin. destruct Hin as [Hin Hf]. apply Z.eqb_eq in Hf.
  destruct r as [fr cs]. simpl in Hf. subst fr. exact Hin.
Qed.

(** On a frame that has a row, that row is the latest one. *)
Lemma latest_lookup (rows : list snapshot) (f : Z) (cs : cells) :
  StronglySorted Z.lt (map fst rows) ->
  lookup rows f = Some cs -> latest rows f = Some cs.
Proof.
  induction rows as [| r rows IH]; intros Hs H; [discriminate |].
  simpl in Hs. apply StronglySorted_inv in Hs. destruct Hs as [Hs Hall].
  unfold lookup in H. simpl in H. simpl.
  destruct (fst r =? f) eqn:E.
  - inversion H. subst cs. apply Z.eqb_eq in E.
    rewrite latest_None.
    + replace (fst r <=? f) with true by (symmetry; apply Z.leb_le; lia). reflexivity.
    + apply Forall_forall. intros x Hx.
      rewrite Forall_forall in Hall. specialize (Hall (fst x) (in_map fst _ _ Hx)). lia.
  - rewrite (IH Hs H). reflexivity.
Qed.

(** On a frame without a row, the latest row is that of the frame before. *)
Lemma latest_no_lookup (rows : list snapshot) (f : Z) :
  lookup rows f = None -> latest rows f = latest rows (f - 1).
Proof.
  induction rows as [| r rows IH]; intros H; [reflexivity |].
  unfold lookup in H. simpl in H. simpl.
  destruct (fst r =? f) eqn:E; [discriminate |].
  rewrite (IH H). apply Z.eqb_neq in E.
  destruct (latest rows (f - 1)); [reflexivity |].
  destruct (fst r <=? f) eqn:E1, (fst r <=? f - 1) eqn:E2; try reflexivity;
    rewrite ?Z.leb_le, ?Z.leb_gt in *; lia.
Qed.

Lemma filter_none {A : Type} (p : A -> bool) (l : list A) :
  (forall x, In x l -> p x = false) -> filter p l = [].
Proof.
  induction l as [| x l IH]; intros H; simpl; [reflexivity |].
  rewrite (H x) by (left; reflexivity). apply IH. intros y Hy. apply H. right. exact Hy.
Qed.

Lemma filter_frame_unique (rows : list snapshot) (f : Z) :
  StronglySorted Z.lt (map fst rows) ->
  filter (fun r => fst r =? f) rows = []
  \/ exists r, filter (fun r => fst r =? f) rows = [r].
Proof.
  induction rows as [| r rows IH]; intros Hs; simpl; [left; reflexivity |].
  simpl in Hs. apply StronglySorted_inv in Hs. destruct Hs as [Hs Hall].
  destruct (fst r =? f) eqn:E; [| apply IH; exact Hs].
  apply Z.eqb_eq in E. right. exists r. f_equal.
  apply filter_none. intros x Hx. apply Z.eqb_neq.
  rewrite Forall_forall in Hall. specialize (Hall (fst x) (in_map fst _ _ Hx)). lia.
Qed.

(** With at most one row of statistics per frame the merged table has one row
    per frame. *)
Lemma merge_left_rows (frame_count : Z) (rows : list snapshot) :
  StronglySorted Z.lt (map fst rows) ->
  merge_left frame_count rows
  = map (fun f => (f, lookup rows f)) (range 0 frame_count).
Proof.
  intros Hs. unfold merge_left.
  induction (range 0 frame_count) as [| f l IH]; [reflexivity |].
  cbn [flat_map]. rewrite map_cons, IH. unfold lookup.
  destruct (filter_frame_unique rows f Hs) as [-> | [r ->]]; reflexivity.
Qed.

(** What is read off the cells of a row after the forward fill.  [g] is an
    observation of the cells that the fill of a row of statistics satisfying
    [P] leaves as it is. *)
Section ForwardFill.
Context {X : Type} (g : cells -> X) (P : cells -> Prop).
Variable rows : list snapshot.
Hypothesis g_fill : forall above r, P r ->
  g {| player_1 := fill_player (player_1 above) (player_1 r);
       player_2 := fill_player (player_2 above) (player_2 r) |} = g r.
Hypothesis rows_P : Forall (fun r => P (snd r)) rows.
Hypothesis rows_sorted : StronglySorted Z.lt (map fst rows).

Lemma fill_cells_latest (above : option cells) (f : Z) :
  option_map g above = option_map g (latest rows (f - 1)) ->
  option_map g (fill_cells above (lookup rows f)) = option_map g (latest rows f).
Proof.
  intros Habove. destruct (lookup rows f) as [r |] eqn:E.
  - rewrite (latest_lookup rows f r rows_sorted E).
    assert (Hr : P r).
    { apply lookup_In in E. rewrite Forall_forall in rows_P.
      apply (rows_P (f, r)). exact E. }
    destruct above as [a |]; simpl; [| reflexivity].
    rewrite g_fill by exact Hr. reflexivity.
  - rewrite (latest_no_lookup rows f E). simpl. exact Habove.
Qed.

Lemma ffill_from_latest (k : nat) :
  forall (lo : Z) (above : option cells) (j : nat),
    option_map g above = option_map g (latest rows (lo - 1)) ->
    (j < k)%nat ->
    exists cs,
      nth_error (ffill_from above
                   (map (fun f => (f, lookup rows f))
                        (map (fun i => lo + Z.of_nat i) (seq 0 k)))) j
      = Some (lo + Z.of_nat j, cs)
      /\ option_map g cs = option_map g (latest rows (lo + Z.of_nat j)).
Proof.
  induction k as [| k IH]; intros lo above j Habove Hj; [lia |].
  cbn [seq map ffill_from]. rewrite Z.add_0_r.
  pose proof (fill_cells_latest above lo Habove) as Hstep.
  destruct j as [| j].
  - cbn [nth_error]. rewrite Z.add_0_r. eexists. split; [reflexivity | exact Hstep].
  - cbn [nth_error]. rewrite <- seq_shift, (map_map S).
    rewrite (map_ext (fun i => lo + Z.of_nat (S i)) (fun i => (lo + 1) + Z.of_nat i))
      by (intros i; lia).
    destruct (IH (lo + 1) (fill_cells above (lookup rows lo)) j) as [cs [Hnth Hcs]].
    + replace (lo + 1 - 1) with lo by lia. exact Hstep.
    + lia.
    + exists cs. rewrite Hnth.
      replace (lo + 1 + Z.of_nat j) with (lo + Z.of_nat (S j)) in * by lia.
      split; [reflexivity | exact Hcs].
Qed.

End ForwardFill.

End TableFacts.

Section LatestFacts.
Import Main.

Lemma map_fst_snapshots (done shots : list shot) :
  map fst (snapshots done shots) = map shot_frame shots.
Proof.
  revert done. induction shots as [| s shots IH]; intros done; simpl; [reflexivity |].
  rewrite IH. reflexivity.
Qed.

(** With the shots in the order of their frames, the latest row on frame [f]
    holds the tally of the shots that start on [f] or before. *)
Lemma latest_snapshots (f : Z) (shots done : list shot) (fp : Z) :
  StronglySorted Z.lt (fp :: map shot_frame shots) ->
  fp <= f ->
  latest ((fp, tally done) :: snapshots done shots) f
  = Some (tally (done ++ up_to f shots)).
Proof.
  revert done fp. induction shots as [| s shots IH]; intros done fp Hs Hfp.
  - simpl. rewrite app_nil_r.
    replace (fp <=? f) with true by (symmetry; apply Z.leb_le; exact Hfp). reflexivity.
  - apply StronglySorted_inv in Hs. destruct Hs as [Hs Hall].
    cbn [snapshots]. cbn [latest]. cbn [latest] in IH.
    destruct (Z.le_gt_cases (shot_frame s) f) as [Hle | Hgt].
    + rewrite (IH (done ++ [s]) (shot_frame s) Hs Hle).
      unfold up_to. cbn [filter].
      replace (shot_frame s <=? f) with true by (symmetry; apply Z.leb_le; exact Hle).
      rewrite <- app_assoc. reflexivity.
    + pose proof Hs as Hs'. apply StronglySorted_inv in Hs'. destruct Hs' as [_ Hlater].
      rewrite latest_None.
      * cbn [fst snd].
        replace (shot_frame s <=? f) with false by (symmetry; apply Z.leb_gt; exact Hgt).
        replace (fp <=? f) with true by (symmetry; apply Z.leb_le; exact Hfp).
        unfold up_to. cbn [filter].
        replace (shot_frame s <=? f) with false by (symmetry; apply Z.leb_gt; exact Hgt).
        rewrite filter_none; [rewrite app_nil_r; reflexivity |].
        intros x Hx. apply Z.leb_gt.
        rewrite Forall_forall in Hlater.
        specialize (Hlater (shot_frame x) (in_map shot_frame _ _ Hx)). lia.
      * apply Forall_forall. intros r Hr.
        assert (Hin : In (fst r) (map shot_frame shots)).
        { rewrite <- (map_fst_snapshots (done ++ [s])). apply in_map. exact Hr. }
        rewrite Forall_forall in Hlater. specialize (Hlater _ Hin). lia.
Qed.

Lemma In_firstn {A : Type} (l : list A) (k : nat) (y : A) :
  In y (firstn k l) -> In y l.
Proof.
  revert k. induction l as [| x l IH]; intros k H.
  - rewrite firstn_nil in H. exact H.
  - destruct k as [| k]; [contradiction |]. cbn [firstn] in H.
    destruct H as [H | H]; [left; exact H | right; eapply IH; exact H].
Qed.

Lemma StronglySorted_firstn {A : Type} (R : A -> A -> Prop) (l : list A) (k : nat) :
  StronglySorted R l -> StronglySorted R (firstn k l).
Proof.
  revert k. induction l as [| x l IH]; intros k Hs; [rewrite firstn_nil; constructor |].
  destruct k as [| k]; [constructor |].
  apply StronglySorted_inv in Hs. destruct Hs as [Hs Hall]. cbn [firstn].
  constructor; [apply IH; exact Hs |].
  apply Forall_forall. intros y Hy. rewrite Forall_forall in Hall.
  apply Hall. eapply In_firstn. exact Hy.
Qed.

(** The frames of the measured shots are the shot frames but the last. *)
Lemma measured_frames (c : constants) (width : Z) (players ball : list (dict position))
    (ball_shot_frames : list Z) (shots : list shot) :
  measured c width players ball ball_shot_frames shots ->
  map shot_frame shots = firstn (length shots) ball_shot_frames.
Proof.
  intros [Hlen Hmeas]. apply nth_error_ext. intros k.
  rewrite nth_error_map.
  destruct (nth_error shots k) as [s |] eqn:E.
  - destruct (Hmeas k s E) as [a [b [Ha [_ Hm]]]].
    destruct (measure_shot_Ok _ _ _ _ _ _ _ Hm) as [_ [_ [_ [_ [Hf _]]]]].
    assert (Hk : (k < length shots)%nat) by (apply nth_error_Some; congruence).
    rewrite nth_error_firstn.
    replace (k <? length shots)%nat with true by (symmetry; apply Nat.ltb_lt; exact Hk).
    simpl. rewrite Ha, Hf. reflexivity.
  - apply nth_error_None in E. simpl. symmetry. apply nth_error_None.
    rewrite length_firstn. lia.
Qed.

End LatestFacts.

Section StatsTable.
Import Main.
Local Open Scope float_scope.

(** The cells of the row of frame [f] of the filled table, seen through [g]. *)
Lemma filled_row {X : Type} (g : cells -> X) (P : cells -> Prop)
    (shots : list shot) (frame_count f : Z) :
  (forall above r, P r ->
     g {| player_1 := fill_player (player_1 above) (player_1 r);
          player_2 := fill_player (player_2 above) (player_2 r) |} = g r) ->
  Forall (fun r => P (snd r)) (initial_snapshot :: snapshots [] shots) ->
  StronglySorted Z.lt (0%Z :: map shot_frame shots) ->
  (0 <= f < frame_count)%Z ->
  exists cs,
    nth_error (ffill (merge_left frame_count (initial_snapshot :: snapshots [] shots)))
      (Z.to_nat f) = Some (f, cs)
    /\ option_map g cs = Some (g (tally (up_to f shots))).
Proof.
  intros Hg HP Hs Hf.
  set (rows := initial_snapshot :: snapshots [] shots) in *.
  assert (Hsorted : StronglySorted Z.lt (map fst rows)).
  { unfold rows. cbn [map]. rewrite map_fst_snapshots. exact Hs. }
  rewrite (merge_left_rows frame_count rows Hsorted). unfold ffill, range.
  destruct (ffill_from_latest g P rows Hg HP Hsorted (Z.to_nat (frame_count - 0))
              0%Z None (Z.to_nat f)) as [cs [Hnth Hcs]].
  - replace (latest rows (0 - 1)) with (@None cells); [reflexivity |].
    symmetry. apply latest_None. apply Forall_forall. intros r Hr.
    apply (in_map fst) in Hr. unfold rows in Hr. cbn [map] in Hr.
    rewrite map_fst_snapshots in Hr. destruct Hr as [<- | Hr]; [simpl; lia |].
    apply StronglySorted_inv in Hs. destruct Hs as [_ Hall].
    rewrite Forall_forall in Hall. specialize (Hall _ Hr). lia.
  - lia.
  - assert (Heq : (0 + Z.of_nat (Z.to_nat f))%Z = f) by lia.
    rewrite Heq in Hnth, Hcs. exists cs. split; [exact Hnth |].
    rewrite Hcs.
    assert (Hlatest : latest rows f = Some (tally ([] ++ up_to f shots))).
    { apply (latest_snapshots f shots [] 0%Z Hs). lia. }
    rewrite Hlatest. reflexivity.
Qed.

Lemma no_nan_fill (above r : cells) :
  no_nan r = true ->
  {| player_1 := fill_player (player_1 above) (player_1 r);
     player_2 := fill_player (player_2 above) (player_2 r) |} = r.
Proof.
  destruct r as [[n1 a1 b1 c1 d1] [n2 a2 b2 c2 d2]].
  unfold no_nan, no_nan_player, fill_player, fill. cbn.
  rewrite !andb_true_iff, !negb_true_iff.
  intros [[[[-> ->] ->] ->] [[[-> ->] ->] ->]]. reflexivity.
Qed.

Lemma non_striker_is_other_striker (p : Z) (shots : list shot) :
  (p = 1 \/ p = 2)%Z ->
  Forall (fun s => (player_shot_ball s = 1 \/ player_shot_ball s = 2)%Z
                   /\ opponent_player_id s = (3 - player_shot_ball s)%Z) shots ->
  non_striker_count p shots = shot_count (3 - p) shots.
Proof.
  intros Hp Hvalid. unfold non_striker_count, shot_count. f_equal. f_equal.
  apply filter_ext_in. intros s Hs. rewrite Forall_forall in Hvalid.
  destruct (Hvalid s Hs) as [Hstriker Hopp]. rewrite Hopp.
  destruct Hp as [-> | ->], Hstriker as [-> | ->]; reflexivity.
Qed.

Lemma Forall_filter {A : Type} (P : A -> Prop) (p : A -> bool) (l : list A) :
  Forall P l -> Forall P (filter p l).
Proof.
  intros H. apply Forall_forall. intros x Hx. apply filter_In in Hx.
  rewrite Forall_forall in H. apply H. tauto.
Qed.

(** The rows of the statistics and, on every frame, the numbers of shots of
    the filled table. *)
Lemma counts_of_the_table
    (c : constants) (width : Z) (players ball : list (dict position))
    (ball_shot_frames : list Z) (frame_count : Z) (rows : list snapshot) :
  player_stats_data c width players ball ball_shot_frames = Ok rows ->
  StronglySorted Z.lt (0%Z :: ball_shot_frames) ->
  exists shots,
    measured c width players ball ball_shot_frames shots
    /\ Forall (fun s => (player_shot_ball s = 1 \/ player_shot_ball s = 2)%Z
                        /\ opponent_player_id s = (3 - player_shot_ball s)%Z) shots
    /\ rows = initial_snapshot :: snapshots [] shots
    /\ StronglySorted Z.lt (0%Z :: map shot_frame shots)
    /\ forall f, (0 <= f < frame_count)%Z ->
         exists cs,
           nth_error (ffill (merge_left frame_count rows)) (Z.to_nat f) = Some (f, Some cs)
           /\ forall p, (p = 1 \/ p = 2)%Z ->
                number_of_shots (player_cells p cs) = shot_count p (up_to f shots).
Proof.
  intros Hrows Hsorted.
  destruct (player_stats_data_rows _ _ _ _ _ _ Hrows) as [shots [Hmeas [Hvalid ->]]].
  exists shots. split; [exact Hmeas |]. split; [exact Hvalid |]. split; [reflexivity |].
  assert (Hs : StronglySorted Z.lt (0%Z :: map shot_frame shots)).
  { rewrite (measured_frames _ _ _ _ _ _ Hmeas).
    apply (StronglySorted_firstn Z.lt (0%Z :: ball_shot_frames) (S (length shots))).
    exact Hsorted. }
  split; [exact Hs |].
  intros f Hf.
  destruct (filled_row
              (fun cs => (number_of_shots (player_1 cs), number_of_shots (player_2 cs)))
              (fun _ => True) shots frame_count f) as [cs1 [Hnth1 Hcs1]];
    [reflexivity | apply Forall_forall; intros; exact I | exact Hs | exact Hf |].
  destruct cs1 as [cs |]; [| discriminate].
  simpl in Hcs1. inversion Hcs1 as [[Hn1 Hn2]]. clear Hcs1.
  exists cs. split; [exact Hnth1 |]. intros p [-> | ->]; assumption.
Qed.

(** C3.  On every frame [f] of the table, for each player [p], the column
    [average_shot_speed] holds the cell [total_shot_speed] of [p] divided by the
    number of shots of [p] that start on [f] or before, and the column
    [average_player_speed] holds the cell [total_player_speed] of [p] divided by
    the number of such shots during which [p] was the opponent of the striker
    (the code divides by the shots of the other player, which is the same
    number).  When no cell of the statistics is NaN these two cells are the sum
    of the ball speeds of these shots of [p] and the sum of the speeds of [p]
    as the opponent.  The shot frames are taken in increasing order and after
    frame 0, as the detector returns them. *)
Theorem averages_of_the_table
    (c : constants) (width : Z) (players ball : list (dict position))
    (ball_shot_frames : list Z) (frame_count : Z) (rows : list snapshot) :
  player_stats_data c width players ball ball_shot_frames = Ok rows ->
  StronglySorted Z.lt (0%Z :: ball_shot_frames) ->
  player_stats_data_df c width players ball ball_shot_frames frame_count
  = Ok (stats_table frame_count rows)
  /\ exists shots,
       measured c width players ball ball_shot_frames shots
       /\ forall f, (0 <= f < frame_count)%Z ->
            exists row cs,
              nth_error (stats_table frame_count rows) (Z.to_nat f) = Some row
              /\ frame_num row = f
              /\ stats row = Some cs
              /\ forall p, (p = 1 \/ p = 2)%Z ->
                   number_of_shots (player_cells p cs) = shot_count p (up_to f shots)
                   /\ number_of_shots (player_cells (3 - p) cs)
                      = non_striker_count p (up_to f shots)
                   /\ average_shot_speed p row
                      = total_shot_speed (player_cells p cs)
                        / Z_to_float (shot_count p (up_to f shots))
                   /\ average_player_speed p row
                      = total_player_speed (player_cells p cs)
                        / Z_to_float (non_striker_count p (up_to f shots))
                   /\ (Forall (fun r => no_nan (snd r) = true) rows ->
                       total_shot_speed (player_cells p cs)
                       = shot_speed_sum p (up_to f shots)
                       /\ total_player_speed (player_cells p cs)
                          = movement_speed_sum p (up_to f shots)).
Proof.
  intros Hrows Hsorted. split.
  { unfold player_stats_data_df. rewrite Hrows. reflexivity. }
  destruct (counts_of_the_table c width players ball ball_shot_frames frame_count rows
              Hrows Hsorted) as [shots [Hmeas [Hvalid [Heq [Hs Hall]]]]].
  exists shots. split; [exact Hmeas |].
  intros f Hf. destruct (Hall f Hf) as [cs [Hnth1 Hcount]].
  exists (add_averages (f, Some cs)), cs.
  split; [unfold stats_table; rewrite nth_error_map, Hnth1; reflexivity |].
  split; [reflexivity |]. split; [reflexivity |].
  intros p Hp.
  assert (Hvalid' : Forall (fun s => (player_shot_ball s = 1 \/ player_shot_ball s = 2)%Z
                                     /\ opponent_player_id s = (3 - player_shot_ball s)%Z)
                           (up_to f shots)) by (apply Forall_filter; exact Hvalid).
  rewrite (non_striker_is_other_striker p _ Hp Hvalid').
  assert (Hother : (3 - p = 1 \/ 3 - p = 2)%Z) by lia.
  split; [apply Hcount; exact Hp |]. split; [apply Hcount; exact Hother |].
  split; [| split].
  - rewrite <- (Hcount p Hp). destruct Hp as [-> | ->]; reflexivity.
  - rewrite <- (Hcount _ Hother). destruct Hp as [-> | ->]; reflexivity.
  - intros Hnan. subst rows.
    destruct (filled_row (fun cs => cs) (fun cs => no_nan cs = true) shots frame_count f)
      as [cs2 [Hnth2 Hcs2]];
      [intros above r Hr; apply no_nan_fill; exact Hr | exact Hnan | exact Hs | exact Hf |].
    rewrite Hnth1 in Hnth2. inversion Hnth2. subst cs2.
    simpl in Hcs2. inversion Hcs2. destruct Hp as [-> | ->]; split; reflexivity.
Qed.

Lemma averages_of_the_table_witness :
  Main.player_stats_data_df court_constants 210 (scenario_players 1 2) scenario_ball
    [10%Z; 58%Z] 60
  = Ok (stats_table 60 scenario_rows)
  /\ exists shots,
       measured court_constants 210 (scenario_players 1 2) scenario_ball [10%Z; 58%Z] shots
       /\ forall f, (0 <= f < 60)%Z ->
            exists row cs,
              nth_error (stats_table 60 scenario_rows) (Z.to_nat f) = Some row
              /\ frame_num row = f
              /\ stats row = Some cs
              /\ forall p, (p = 1 \/ p = 2)%Z ->
                   number_of_shots (player_cells p cs) = shot_count p (up_to f shots)
                   /\ number_of_shots (player_cells (3 - p) cs)
                      = non_striker_count p (up_to f shots)
                   /\ average_shot_speed p row
                      = total_shot_speed (player_cells p cs)
                        / Z_to_float (shot_count p (up_to f shots))
                   /\ average_player_speed p row
                      = total_player_speed (player_cells p cs)
                        / Z_to_float (non_striker_count p (up_to f shots))
                   /\ (Forall (fun r => no_nan (snd r) = true) scenario_rows ->
                       total_shot_speed (player_cells p cs)
                       = shot_speed_sum p (up_to f shots)
                       /\ total_player_speed (player_cells p cs)
                          = movement_speed_sum p (up_to f shots)).
Proof.
  apply (averages_of_the_table court_constants 210 (scenario_players 1 2) scenario_ball
           [10%Z; 58%Z] 60 scenario_rows).
  - vm_compute. reflexivity.
  - repeat constructor; lia.
Defined.

End StatsTable.

(** ** The average of a player without a shot *)

Section NoShot.
Import Main.
Local Open Scope float_scope.

Lemma fold_left_skip {A B : Type} (test : B -> bool) (h : A -> B -> A)
    (l : list B) (a : A) :
  (forall x, In x l -> test x = false) ->
  fold_left (fun acc x => if test x then h acc x else acc) l a = a.
Proof.
  revert a. induction l as [| x l IH]; intros a H; simpl; [reflexivity |].
  rewrite (H x) by (left; reflexivity). apply IH.
  intros y Hy. apply H. right. exact Hy.
Qed.

Lemma tally_zero_sum (shots : list shot) : zero_sum_without_shot (tally shots).
Proof.
  intros p Hp Hcount.
  assert (H : shot_count p shots = 0%Z -> shot_speed_sum p shots = 0).
  { unfold shot_count, shot_speed_sum. intros Hc.
    apply fold_left_skip. intros s Hs.
    destruct (player_shot_ball s =? p)%Z eqn:E; [| reflexivity].
    exfalso.
    assert (Hin : In s (filter (fun s => (player_shot_ball s =? p)%Z) shots))
      by (apply filter_In; auto).
    destruct (filter (fun s => (player_shot_ball s =? p)%Z) shots);
      [contradiction | simpl in Hc; lia]. }
  destruct Hp as [-> | ->]; apply H; exact Hcount.
Qed.

Lemma snapshots_tallies (done shots : list shot) (r : snapshot) :
  In r (snapshots done shots) -> exists l, snd r = tally l.
Proof.
  revert done. induction shots as [| s shots IH]; intros done H; simpl in H.
  - contradiction.
  - destruct H as [<- | H]; [eexists; reflexivity | eapply IH; exact H].
Qed.

Lemma fill_cells_zero_sum (above row : option cells) :
  (forall a, above = Some a -> zero_sum_without_shot a) ->
  (forall r, row = Some r -> zero_sum_without_shot r) ->
  forall cs, fill_cells above row = Some cs -> zero_sum_without_shot cs.
Proof.
  intros Ha Hr cs H. destruct row as [r |]; simpl in H.
  - specialize (Hr r eq_refl). destruct above as [a |]; inversion H; subst; [| exact Hr].
    intros p Hp Hcount.
    assert (Ht : total_shot_speed (player_cells p r) = 0).
    { apply Hr; [exact Hp |]. destruct Hp as [-> | ->]; exact Hcount. }
    destruct Hp as [-> | ->]; cbn in *; unfold fill; rewrite Ht; reflexivity.
  - apply Ha. exact H.
Qed.

Lemma ffill_from_zero_sum (l : list (Z * option cells)) (above : option cells) :
  (forall a, above = Some a -> zero_sum_without_shot a) ->
  (forall f r, In (f, Some r) l -> zero_sum_without_shot r) ->
  forall f cs, In (f, Some cs) (ffill_from above l) -> zero_sum_without_shot cs.
Proof.
  revert above. induction l as [| [f0 row] l IH]; intros above Ha Hl f cs H; simpl in H.
  - contradiction.
  - assert (Hfilled : forall a, fill_cells above row = Some a -> zero_sum_without_shot a).
    { apply fill_cells_zero_sum; [exact Ha |].
      intros r ->. apply (Hl f0 r). left. reflexivity. }
    destruct H as [H | H].
    + inversion H. apply Hfilled. assumption.
    + apply (IH (fill_cells above row) Hfilled) with (f := f); [| exact H].
      intros f' r Hin. apply (Hl f' r). right. exact Hin.
Qed.

Lemma merge_left_In (frame_count : Z) (rows : list snapshot) (f : Z) (cs : cells) :
  In (f, Some cs) (merge_left frame_count rows) -> exists r, In r rows /\ snd r = cs.
Proof.
  unfold merge_left. intros H. apply in_flat_map in H. destruct H as [f' [_ H]].
  destruct (filter (fun r => (fst r =? f')%Z) rows) as [| r0 l] eqn:E.
  - destruct H as [H | []]. discriminate.
  - apply in_map_iff in H. destruct H as [r [Hr Hin]].
    assert (Hin' : In r (filter (fun r => (fst r =? f')%Z) rows)) by (rewrite E; exact Hin).
    apply filter_In in Hin'. inversion Hr. subst.
    exists r. split; [tauto | reflexivity].
Qed.

(** Every row of the table keeps the sum of a player without a shot at zero. *)
Lemma stats_table_zero_sum (c : constants) (width : Z)
    (players ball : list (dict position)) (ball_shot_frames : list Z)
    (frame_count : Z) (rows : list snapshot) (row : table_row) (cs : cells) :
  player_stats_data c width players ball ball_shot_frames = Ok rows ->
  In row (stats_table frame_count rows) ->
  stats row = Some cs ->
  zero_sum_without_shot cs.
Proof.
  intros Hrows Hin Hcs.
  destruct (player_stats_data_rows _ _ _ _ _ _ Hrows) as [shots [_ [_ ->]]].
  unfold stats_table in Hin. apply in_map_iff in Hin.
  destruct Hin as [[f o] [Hrow Hin]]. subst row.
  destruct o as [cs' |]; [| discriminate]. simpl in Hcs. inversion Hcs. subst cs'.
  apply (ffill_from_zero_sum _ None) with (f := f) in Hin; [exact Hin | discriminate |].
  intros f' r Hr. apply merge_left_In in Hr. destruct Hr as [r' [Hr' <-]].
  destruct Hr' as [<- | Hr'].
  - apply (tally_zero_sum []).
  - destruct (snapshots_tallies _ _ _ Hr') as [l ->]. apply tally_zero_sum.
Qed.

(** C9.  The averages are columns divided by columns and raise nothing.  On a
    row on which a player has no shot the sum of the shot speeds of the player
    is still 0, the division is 0 / 0 and the average shot speed of the player
    is NaN, the value pandas keeps for "not available"; it is NaN as well on a
    row that has no statistics.  With the shot frames in increasing order after
    frame 0, this is the case on every frame [f] such that no shot of the player
    starts on [f] or before. *)
Theorem average_without_shot_is_not_available
    (c : constants) (width : Z) (players ball : list (dict position))
    (ball_shot_frames : list Z) (frame_count : Z) (rows : list snapshot) :
  player_stats_data c width players ball ball_shot_frames = Ok rows ->
  player_stats_data_df c width players ball ball_shot_frames frame_count
  = Ok (stats_table frame_count rows)
  /\ (forall row p,
        In row (stats_table frame_count rows) -> (p = 1 \/ p = 2)%Z ->
        match stats row with
        | Some cs => number_of_shots (player_cells p cs) = 0%Z ->
                     PrimFloat.is_nan (average_shot_speed p row) = true
        | None => PrimFloat.is_nan (average_shot_speed p row) = true
        end)
  /\ (StronglySorted Z.lt (0%Z :: ball_shot_frames) ->
      exists shots,
        measured c width players ball ball_shot_frames shots
        /\ forall f p,
             (0 <= f < frame_count)%Z -> (p = 1 \/ p = 2)%Z ->
             shot_count p (up_to f shots) = 0%Z ->
             exists row,
               nth_error (stats_table frame_count rows) (Z.to_nat f) = Some row
               /\ frame_num row = f
               /\ PrimFloat.is_nan (average_shot_speed p row) = true).
Proof.
  intros Hrows.
  assert (Hrow : forall row p,
            In row (stats_table frame_count rows) -> (p = 1 \/ p = 2)%Z ->
            match stats row with
            | Some cs => number_of_shots (player_cells p cs) = 0%Z ->
                         PrimFloat.is_nan (average_shot_speed p row) = true
            | None => PrimFloat.is_nan (average_shot_speed p row) = true
            end).
  { intros row p Hin Hp. destruct (stats row) as [cs |] eqn:Ecs.
    - intros Hcount.
      pose proof (stats_table_zero_sum _ _ _ _ _ _ _ _ _ Hrows Hin Ecs p Hp Hcount) as Hsum.
      unfold stats_table in Hin. apply in_map_iff in Hin.
      destruct Hin as [[f o] [<- _]]. destruct o as [cs' |]; [| discriminate].
      simpl in Ecs. inversion Ecs. subst cs'.
      destruct Hp as [-> | ->]; cbn in *; rewrite Hsum, Hcount; reflexivity.
    - unfold stats_table in Hin. apply in_map_iff in Hin.
      destruct Hin as [[f o] [<- _]]. destruct o as [cs' |]; [discriminate |].
      destruct Hp as [-> | ->]; reflexivity. }
  split; [unfold player_stats_data_df; rewrite Hrows; reflexivity |].
  split; [exact Hrow |].
  intros Hsorted.
  destruct (counts_of_the_table c width players ball ball_shot_frames frame_count rows
              Hrows Hsorted) as [shots [Hmeas [_ [_ [_ Hall]]]]].
  exists shots. split; [exact Hmeas |].
  intros f p Hf Hp Hcount.
  destruct (Hall f Hf) as [cs [Hnth Hn]].
  assert (Hnth' : nth_error (stats_table frame_count rows) (Z.to_nat f)
                  = Some (add_averages (f, Some cs))).
  { unfold stats_table. rewrite nth_error_map, Hnth. reflexivity. }
  exists (add_averages (f, Some cs)). split; [exact Hnth' |]. split; [reflexivity |].
  pose proof (Hrow _ p (nth_error_In _ _ Hnth') Hp) as H. cbn [stats add_averages snd] in H.
  apply H. rewrite (Hn p Hp). exact Hcount.
Qed.

Lemma average_without_shot_is_not_available_witness :
  exists row,
    nth_error (stats_table 60 scenario_rows) (Z.to_nat 30) = Some row
    /\ frame_num row = 30%Z
    /\ PrimFloat.is_nan (average_shot_speed 2 row) = true.
Proof.
  destruct (proj2 (proj2 (average_without_shot_is_not_available court_constants 210
                            (scenario_players 1 2) scenario_ball [10%Z; 58%Z] 60
                            scenario_rows eq_refl))
              ltac:(repeat constructor; lia)) as [shots [Hmeas Hall]].
  apply (Hall 30%Z 2%Z); [lia | right; reflexivity |].
  destruct Hmeas as [Hlen Hmeas].
  destruct shots as [| s [| s' rest]]; [reflexivity | | simpl in Hlen; lia].
  destruct (Hmeas O s eq_refl) as [a [b [Ha [Hb Hm]]]].
  simpl in Ha, Hb. inversion Ha. inversion Hb. subst a b.
  vm_compute in Hm. inversion Hm. reflexivity.
Defined.

End NoShot.

(* ================================================================== *)
(** * The players the pipeline supports *)
(* ================================================================== *)

(** C10.  The conversion and the statistics are defined only for the players 1
    and 2.  Whatever the mapper does, a conversion that ends normally has met
    no other track identity on any frame, because it looks every player up in
    the heights, which has the keys 1 and 2 only.  The statistics loop takes the
    opponent to be 1 if the striker is 2 and 2 otherwise and writes the
    striker's cells through keys made of its identity: when it ends normally,
    on the first frame of every shot interval the striker is 1 or 2 and both 1
    and 2 have a position.  With the players 7 and 12 of the end-to-end scenario
    the conversion and the loop both raise [KeyError]. *)
Theorem only_players_1_and_2_are_supported :
  (forall (c : constants) (project : mapper) (player_boxes ball_boxes : list (dict bbox))
          (kps : list Q) out,
      convert_bounding_boxes_with c project player_boxes ball_boxes kps = Ok out ->
      forall (frame_num : Z) (player_bbox : dict bbox) (player_id : Z),
        0 <= frame_num ->
        index player_boxes frame_num = Ok player_bbox ->
        In player_id (keys player_bbox) ->
        player_id = 1 \/ player_id = 2)
  /\ (forall (c : constants) (width : Z) (players ball : list (dict Main.position))
             (ball_shot_frames : list Z) rows,
      Main.player_stats_data c width players ball ball_shot_frames = Ok rows ->
      forall (k : Z), 0 <= k < Z.of_nat (length ball_shot_frames) - 1 ->
        exists start_frame end_frame s positions,
          index ball_shot_frames k = Ok start_frame
          /\ index ball_shot_frames (k + 1) = Ok end_frame
          /\ Main.measure_shot c width players ball start_frame end_frame = Ok s
          /\ index players start_frame = Ok positions
          /\ (Main.player_shot_ball s = 1 \/ Main.player_shot_ball s = 2)
          /\ Main.opponent_player_id s = 3 - Main.player_shot_ball s
          /\ In 1 (keys positions) /\ In 2 (keys positions))
  /\ convert_bounding_boxes_to_mini_court_coordinates court_constants court_1920
       [ [(7, box 90 100 110 200); (12, box 290 700 310 800)] ]
       ball_one_frame example_keypoints = Raise KeyError
  /\ Main.player_stats_data court_constants 210 (scenario_players 7 12) scenario_ball
       [10; 58] = Raise KeyError.
Proof.
  split; [| split; [| split]].
  - intros c project pb bb kps out H f d id Hf Hd Hin.
    unfold keys in Hin. apply in_map_iff in Hin. destruct Hin as [[id' b] [Hid Hin]].
    simpl in Hid. subst id'.
    destruct (convert_Ok_player_step c project pb bb kps out f d id b H Hf Hd Hin)
      as [bp [cl [st [st' Hstep]]]].
    apply player_step_Ok in Hstep. tauto.
  - intros c width players ball frames rows H k Hk.
    destruct (player_stats_data_Ok_shot c width players ball frames rows k H Hk)
      as [sf [ef [s [prev [cur [Hs [He [Hm Hu]]]]]]]].
    apply update_stats_Ok in Hu.
    destruct (measure_shot_Ok _ _ _ _ _ _ _ Hm)
      as [pos [epos [Hp [_ [_ [Hstr [Hopp [Hin _]]]]]]]].
    exists sf, ef, s, pos. repeat split; try assumption.
    + rewrite Hopp. destruct Hu as [-> | ->]; reflexivity.
    + destruct Hu as [Hu | Hu]; rewrite Hopp, Hu in Hin; rewrite Hu in Hstr;
        simpl in Hin; assumption.
    + destruct Hu as [Hu | Hu]; rewrite Hopp, Hu in Hin; rewrite Hu in Hstr;
        simpl in Hin; assumption.
  - vm_compute. reflexivity.
  - vm_compute. reflexivity.
Qed.

Lemma only_players_1_and_2_are_supported_witness :
  (2 = 1 \/ 2 = 2)
  /\ In 1 (keys (nth 10 (scenario_players 1 2) [])).
Proof.
  split.
  - refine (proj1 only_players_1_and_2_are_supported court_constants
              (get_mini_court_coordinates_by_name court_constants court_1920)
              players_at_keypoint ball_one_frame example_keypoints _ _
              0 (nth 0 players_at_keypoint []) 2 _ _ _).
    + vm_compute. reflexivity.
    + lia.
    + reflexivity.
    + simpl. right. left. reflexivity.
  - destruct (proj1 (proj2 only_players_1_and_2_are_supported) court_constants 210
                (scenario_players 1 2) scenario_ball [10; 58] _
                (eq_refl : Main.player_stats_data court_constants 210
                             (scenario_players 1 2) scenario_ball [10; 58]
                           = Ok _) 0 ltac:(simpl; lia))
      as [sf [ef [s [pos [Hs [_ [_ [Hp [_ [_ [H1 _]]]]]]]]]]].
    vm_compute in Hs. inversion Hs. subst sf.
    vm_compute in Hp. inversion Hp. subst pos. exact H1.
Defined.

(** C2 as stated fails.  With player 1 lost on the second of two frames the
    conversion raises [KeyError]: the heights of the window of frame 0 are read
    from the boxes of player 1 on both frames.  With player 2 lost on frame 58
    of the scenario the statistics loop raises [KeyError] on the position of the
    opponent at the end of the shot. *)
Lemma a_lost_player_aborts_the_pipeline :
  convert_bounding_boxes_to_mini_court_coordinates court_constants court_1920
    players_one_lost ball_two_frames example_keypoints = Raise KeyError
  /\ Main.player_stats_data court_constants 210 scenario_players_one_lost scenario_ball
       [10; 58] = Raise KeyError.
Proof. split; vm_compute; reflexivity. Qed.

(** C2, amended.  A player who is missing is not passed over: a conversion
    that ends normally, whatever the mapper does, has found every player of a
    frame [f] on every frame of [range(max(0, f-20), min(len, f+50))], and a
    statistics loop that ends normally has found the opponent of every shot on
    the first and on the last frame of the shot. *)
Theorem a_lost_player_is_not_absorbed :
  (forall (c : constants) (project : mapper) (player_boxes ball_boxes : list (dict bbox))
          (kps : list Q) out,
      convert_bounding_boxes_with c project player_boxes ball_boxes kps = Ok out ->
      forall (f i : Z) (player_bbox : dict bbox) (player_id : Z),
        0 <= f ->
        index player_boxes f = Ok player_bbox ->
        In player_id (keys player_bbox) ->
        Z.max 0 (f - 20) <= i < Z.min (Z.of_nat (length player_boxes)) (f + 50) ->
        exists d, index player_boxes i = Ok d /\ In player_id (keys d))
  /\ (forall (c : constants) (width : Z) (players ball : list (dict Main.position))
             (ball_shot_frames : list Z) rows,
      Main.player_stats_data c width players ball ball_shot_frames = Ok rows ->
      forall (k : Z), 0 <= k < Z.of_nat (length ball_shot_frames) - 1 ->
        exists start_frame end_frame s positions end_positions,
          index ball_shot_frames k = Ok start_frame
          /\ index ball_shot_frames (k + 1) = Ok end_frame
          /\ Main.measure_shot c width players ball start_frame end_frame = Ok s
          /\ index players start_frame = Ok positions
          /\ index players end_frame = Ok end_positions
          /\ In (Main.opponent_player_id s) (keys positions)
          /\ In (Main.opponent_player_id s) (keys end_positions)).
Proof.
  split.
  - intros c project pb bb kps out H f i d id Hf Hd Hin Hi.
    unfold keys in Hin. apply in_map_iff in Hin. destruct Hin as [[id' b] [Hid Hin]].
    simpl in Hid. subst id'.
    destruct (convert_Ok_player_step c project pb bb kps out f d id b H Hf Hd Hin)
      as [bp [cl [st [st' Hstep]]]].
    apply player_step_Ok in Hstep. destruct Hstep as [[m Hm] _].
    destruct (max_player_height_Ok_present pb f id m i Hm Hi) as [d' [b' [Hd' Hb']]].
    exists d'. split; [exact Hd' |]. eapply get_Ok_In. exact Hb'.
  - intros c width players ball frames rows H k Hk.
    destruct (player_stats_data_Ok_shot c width players ball frames rows k H Hk)
      as [sf [ef [s [prev [cur [Hs [He [Hm Hu]]]]]]]].
    destruct (measure_shot_Ok _ _ _ _ _ _ _ Hm)
      as [pos [epos [Hp [Hep [_ [_ [_ [Hin Hein]]]]]]]].
    exists sf, ef, s, pos, epos. repeat split; assumption.
Qed.

Lemma a_lost_player_is_not_absorbed_witness :
  exists d, index players_two_frames 1 = Ok d /\ In 2 (keys d).
Proof.
  refine (proj1 a_lost_player_is_not_absorbed court_constants
            (get_mini_court_coordinates_by_name court_constants court_1920)
            players_two_frames ball_two_frames example_keypoints _ _
            0 1 (nth 0 players_two_frames []) 2 _ _ _ _).
  - vm_compute. reflexivity.
  - lia.
  - reflexivity.
  - simpl. right. left. reflexivity.
  - simpl. lia.
Defined.

(* ================================================================== *)
(** * The closest keypoint and the unit conversions *)
(* ================================================================== *)

Lemma index_Ok_bounds {A : Type} (l : list A) (i : Z) :
  (exists a, index l i = Ok a) <-> - Z.of_nat (length l) <= i < Z.of_nat (length l).
Proof.
  unfold index. cbv zeta.
  destruct (i <? 0) eqn:Ei; cbv iota;
    [apply Z.ltb_lt in Ei | rewrite Ei; apply Z.ltb_ge in Ei].
  - destruct (i + Z.of_nat (length l) <? 0) eqn:Ej;
      [apply Z.ltb_lt in Ej | apply Z.ltb_ge in Ej].
    + split; [intros [a H]; discriminate | lia].
    + destruct (nth_error l (Z.to_nat (i + Z.of_nat (length l)))) eqn:En.
      * split; [lia | intros _; eexists; reflexivity].
      * apply nth_error_None in En. lia.
  - destruct (nth_error l (Z.to_nat i)) eqn:En.
    + assert (Z.to_nat i < length l)%nat by (apply nth_error_Some; congruence).
      split; [lia | intros _; eexists; reflexivity].
    + apply nth_error_None in En. split; [intros [a H]; discriminate | lia].
Qed.

Lemma index_out_of_bounds {A : Type} (l : list A) (i : Z) :
  ~ (- Z.of_nat (length l) <= i < Z.of_nat (length l)) -> index l i = Raise IndexError.
Proof.
  intros Hi. destruct (index l i) as [a | e] eqn:E.
  - exfalso. apply Hi. apply index_Ok_bounds. eauto.
  - apply index_Raise in E. subst. reflexivity.
Qed.

Lemma closest_keypoint_step_Ok (pt : point) (keypoints : list Q)
    (st st' : option Q * Z) (j : Z) :
  closest_keypoint_step pt keypoints st j = Ok st' ->
  exists dj,
    vertical_distance pt keypoints j = Ok dj
    /\ st' = if lt_inf Qltb dj (fst st) then (Some dj, j) else st.
Proof.
  unfold closest_keypoint_step, vertical_distance. intros H.
  bind_inv H. bind_inv H. rewrite Ha0, bind_ret. eexists. split; [reflexivity |].
  destruct (lt_inf Qltb _ _); inversion H; reflexivity.
Qed.

Lemma closest_loop (pt : point) (keypoints : list Q) (rest seen : list Z)
    (st st' : option Q * Z) :
  for_each (closest_keypoint_step pt keypoints) rest st = Ok st' ->
  closest_so_far pt keypoints seen st ->
  closest_so_far pt keypoints (seen ++ rest) st'.
Proof.
  revert seen st. induction rest as [| j rest IH]; intros seen st H Hinv.
  - simpl in H. inversion H. subst. rewrite app_nil_r. exact Hinv.
  - simpl in H. bind_inv H.
    replace (seen ++ j :: rest) with ((seen ++ [j]) ++ rest)
      by (rewrite <- app_assoc; reflexivity).
    apply (IH _ _ H). clear IH H.
    apply closest_keypoint_step_Ok in Ha. destruct Ha as [dj [Hdj ->]].
    unfold closest_so_far in *. destruct st as [[d |] k]; simpl in *.
    + destruct Hinv as [n [Hn [Hd Hmin]]].
      assert (Hlt : (n < length seen)%nat) by (apply nth_error_Some; congruence).
      destruct (Qltb dj d) eqn:E; simpl.
      * apply Qltb_lt in E. exists (length seen). split; [| split].
        -- rewrite nth_error_app2 by lia. rewrite Nat.sub_diag. reflexivity.
        -- exact Hdj.
        -- intros m i di Hm Hdi.
           destruct (Nat.lt_ge_cases m (length seen)) as [Hlm | Hlm].
           ++ rewrite nth_error_app1 in Hm by exact Hlm.
              destruct (Hmin m i di Hm Hdi) as [Hle _].
              split; [apply Qlt_le_weak |]; intros; eapply Qlt_le_trans; eauto.
           ++ rewrite nth_error_app2 in Hm by exact Hlm.
              destruct (m - length seen)%nat as [| m'] eqn:Em; simpl in Hm.
              ** inversion Hm. subst i. rewrite Hdj in Hdi. inversion Hdi. subst di.
                 split; [apply Qle_refl | lia].
              ** destruct m'; discriminate.
      * apply Qltb_ge in E. exists n. split; [| split].
        -- rewrite nth_error_app1 by exact Hlt. exact Hn.
        -- exact Hd.
        -- intros m i di Hm Hdi.
           destruct (Nat.lt_ge_cases m (length seen)) as [Hlm | Hlm].
           ++ rewrite nth_error_app1 in Hm by exact Hlm. exact (Hmin m i di Hm Hdi).
           ++ rewrite nth_error_app2 in Hm by exact Hlm.
              destruct (m - length seen)%nat as [| m'] eqn:Em; simpl in Hm.
              ** inversion Hm. subst i. rewrite Hdj in Hdi. inversion Hdi. subst di.
                 split; [exact E | lia].
              ** destruct m'; discriminate.
    + subst seen. simpl. exists 0%nat. split; [reflexivity |]. split; [exact Hdj |].
      intros m i di Hm Hdi. destruct m as [| m]; simpl in Hm.
      * inversion Hm. subst i. rewrite Hdj in Hdi. inversion Hdi.
        split; [apply Qle_refl | lia].
      * destruct m; discriminate.
Qed.

Lemma closest_loop_x (x x' y : Q) (keypoints : list Q) (l : list Z) (st : option Q * Z) :
  for_each (closest_keypoint_step (x, y) keypoints) l st
  = for_each (closest_keypoint_step (x', y) keypoints) l st.
Proof.
  revert st. induction l as [| j l IH]; intros st; [reflexivity |].
  simpl. change (closest_keypoint_step (x, y) keypoints st j)
    with (closest_keypoint_step (x', y) keypoints st j).
  destruct (closest_keypoint_step (x', y) keypoints st j); [apply IH | reflexivity].
Qed.

(** X1.  [get_closest_keypoint_index] compares vertical distances only.  When
    it returns [k], [k] is one of the candidates, the keypoint [k] is at least
    as near to the point in the vertical direction as every candidate, and
    strictly nearer than every candidate listed before the place where [k] was
    taken (of equally near candidates the first is returned); the horizontal
    coordinate of the point plays no part. *)
Theorem get_closest_keypoint_index_spec
    (pt : point) (keypoints : list Q) (keypoint_indices : list Z) (k : Z) :
  get_closest_keypoint_index pt keypoints keypoint_indices = Ok k ->
  (exists n d,
      nth_error keypoint_indices n = Some k
      /\ vertical_distance pt keypoints k = Ok d
      /\ forall m j,
           nth_error keypoint_indices m = Some j ->
           exists dj,
             vertical_distance pt keypoints j = Ok dj
             /\ (d <= dj)%Q /\ ((m < n)%nat -> (d < dj)%Q))
  /\ forall x', get_closest_keypoint_index (x', snd pt) keypoints keypoint_indices = Ok k.
Proof.
  intros H. split.
  - unfold get_closest_keypoint_index in H. bind_inv H. bind_inv H.
    inversion H. subst k. clear H.
    pose proof (closest_loop pt keypoints keypoint_indices [] _ _ Ha0 eq_refl) as Hinv.
    simpl in Hinv. unfold closest_so_far in Hinv.
    destruct a0 as [[d |] k]; simpl in *.
    + destruct Hinv as [n [Hn [Hd Hmin]]]. exists n, d.
      split; [exact Hn |]. split; [exact Hd |].
      intros m j Hm.
      destruct (for_each_Ok_body _ _ _ _ j Ha0 (nth_error_In _ _ Hm)) as [s [s' Hs]].
      apply closest_keypoint_step_Ok in Hs. destruct Hs as [dj [Hdj _]].
      exists dj. split; [exact Hdj |]. exact (Hmin m j dj Hm Hdj).
    + subst keypoint_indices. discriminate.
  - intros x'. destruct pt as [x y]. simpl.
    unfold get_closest_keypoint_index in *.
    destruct (index keypoint_indices 0); [| discriminate].
    rewrite bind_ret in *. rewrite (closest_loop_x x' x). exact H.
Qed.

Lemma get_closest_keypoint_index_spec_witness :
  (exists n d,
      nth_error [0; 2; 12; 13] n = Some 12
      /\ vertical_distance (inject_Z 120, inject_Z 400) example_keypoints 12 = Ok d
      /\ forall m j,
           nth_error [0; 2; 12; 13] m = Some j ->
           exists dj,
             vertical_distance (inject_Z 120, inject_Z 400) example_keypoints j = Ok dj
             /\ (d <= dj)%Q /\ ((m < n)%nat -> (d < dj)%Q))
  /\ forall x', get_closest_keypoint_index (x', snd (inject_Z 120, inject_Z 400))
                  example_keypoints [0; 2; 12; 13] = Ok 12.
Proof.
  apply (get_closest_keypoint_index_spec (inject_Z 120, inject_Z 400)
           example_keypoints [0; 2; 12; 13] 12).
  vm_compute. reflexivity.
Defined.

Lemma closest_loop_total (pt : point) (keypoints : list Q) (l : list Z) (st : option Q * Z) :
  Forall (fun j => - Z.of_nat (length keypoints) <= j * 2
                   /\ j * 2 + 1 < Z.of_nat (length keypoints)) l ->
  exists st', for_each (closest_keypoint_step pt keypoints) l st = Ok st'.
Proof.
  revert st. induction l as [| j l IH]; intros st Hall; [simpl; eauto |].
  inversion Hall as [| ? ? Hj Hl]. subst. simpl.
  destruct (proj2 (index_Ok_bounds keypoints (j * 2))) as [kx Hkx]; [lia |].
  destruct (proj2 (index_Ok_bounds keypoints (j * 2 + 1))) as [ky Hky]; [lia |].
  unfold closest_keypoint_step at 1. rewrite Hkx, Hky, !bind_ret.
  destruct (lt_inf Qltb _ _); rewrite bind_ret; apply IH; exact Hl.
Qed.

Lemma closest_loop_raises (pt : point) (keypoints : list Q) (l : list Z) (st : option Q * Z) :
  ~ Forall (fun j => - Z.of_nat (length keypoints) <= j * 2
                     /\ j * 2 + 1 < Z.of_nat (length keypoints)) l ->
  for_each (closest_keypoint_step pt keypoints) l st = Raise IndexError.
Proof.
  revert st. induction l as [| j l IH]; intros st Hall.
  - exfalso. apply Hall. constructor.
  - simpl. unfold closest_keypoint_step at 1.
    destruct (index keypoints (j * 2)) as [kx | e] eqn:Ekx;
      [| apply index_Raise in Ekx; subst; reflexivity].
    destruct (index keypoints (j * 2 + 1)) as [ky | e] eqn:Eky;
      [| apply index_Raise in Eky; subst; reflexivity].
    rewrite !bind_ret.
    assert (Hl : ~ Forall (fun j => - Z.of_nat (length keypoints) <= j * 2
                                    /\ j * 2 + 1 < Z.of_nat (length keypoints)) l).
    { intros Hl. apply Hall. constructor; [| exact Hl].
      assert (H1 : exists a, index keypoints (j * 2) = Ok a) by eauto.
      assert (H2 : exists a, index keypoints (j * 2 + 1) = Ok a) by eauto.
      apply index_Ok_bounds in H1. apply index_Ok_bounds in H2. lia. }
    destruct (lt_inf Qltb _ _); rewrite bind_ret; apply IH; exact Hl.
Qed.

(** X2.  [get_closest_keypoint_index] returns exactly when there is a
    candidate and both coordinates of every candidate can be read from the
    keypoint list (an index [i] of a list of length [n] can be read when
    [-n <= i < n]); in every other case it raises [IndexError]: on an empty
    list of candidates, and on a candidate outside the keypoint list even when
    a nearer candidate has been seen. *)
Theorem get_closest_keypoint_index_returns
    (pt : point) (keypoints : list Q) (keypoint_indices : list Z) :
  let readable := fun j => - Z.of_nat (length keypoints) <= j * 2
                           /\ j * 2 + 1 < Z.of_nat (length keypoints) in
  (keypoint_indices <> [] /\ Forall readable keypoint_indices ->
   exists k, get_closest_keypoint_index pt keypoints keypoint_indices = Ok k)
  /\ (~ (keypoint_indices <> [] /\ Forall readable keypoint_indices) ->
      get_closest_keypoint_index pt keypoints keypoint_indices = Raise IndexError).
Proof.
  intros readable. unfold get_closest_keypoint_index. split.
  - intros [Hne Hall]. destruct keypoint_indices as [| j0 l]; [contradiction |].
    change (index (j0 :: l) 0) with (Ok (A := Z) j0). rewrite bind_ret.
    destruct (closest_loop_total pt keypoints (j0 :: l) (None, j0) Hall) as [st' ->].
    rewrite bind_ret. eauto.
  - intros Hnot. destruct keypoint_indices as [| j0 l]; [reflexivity |].
    change (index (j0 :: l) 0) with (Ok (A := Z) j0). rewrite bind_ret.
    rewrite closest_loop_raises; [reflexivity |].
    intros Hall. apply Hnot. split; [discriminate | exact Hall].
Qed.

Lemma get_closest_keypoint_index_returns_witness :
  (exists k, get_closest_keypoint_index (inject_Z 120, inject_Z 400)
               example_keypoints [0; 2; 12; 13] = Ok k)
  /\ get_closest_keypoint_index (inject_Z 120, inject_Z 400)
       example_keypoints [0; 14] = Raise IndexError.
Proof.
  split.
  - apply (proj1 (get_closest_keypoint_index_returns (inject_Z 120, inject_Z 400)
                    example_keypoints [0; 2; 12; 13])).
    split; [discriminate |].
    repeat (constructor; [simpl; lia |]). constructor.
  - apply (proj2 (get_closest_keypoint_index_returns (inject_Z 120, inject_Z 400)
                    example_keypoints [0; 14])).
    intros [_ Hall]. inversion Hall as [| ? ? _ Hl]. subst.
    inversion Hl as [| ? ? H14 _]. subst. simpl in H14. lia.
Defined.

(** X3.  The two unit conversions are inverse to each other on the same
    reference: with a reference of non-zero size in meters and in pixels, a
    pixel distance converted to meters and back is the distance one started
    from, and so is a distance in meters converted to pixels and back.  With a
    reference of zero pixels the conversion to meters raises
    [ZeroDivisionError], with one of zero meters the conversion to pixels does. *)
Theorem conversions_round_trip (reference_meters reference_pixels : Q) :
  (~ (reference_meters == 0)%Q -> ~ (reference_pixels == 0)%Q ->
   forall d : Q,
     (exists m p, convert_pixel_distance_to_meters d reference_meters reference_pixels = Ok m
                  /\ convert_meters_to_pixel_distance m reference_meters reference_pixels = Ok p
                  /\ (p == d)%Q)
     /\ (exists p m, convert_meters_to_pixel_distance d reference_meters reference_pixels = Ok p
                     /\ convert_pixel_distance_to_meters p reference_meters reference_pixels = Ok m
                     /\ (m == d)%Q))
  /\ ((reference_pixels == 0)%Q ->
      forall d, convert_pixel_distance_to_meters d reference_meters reference_pixels
                = Raise ZeroDivisionError)
  /\ ((reference_meters == 0)%Q ->
      forall d, convert_meters_to_pixel_distance d reference_meters reference_pixels
                = Raise ZeroDivisionError).
Proof.
  unfold convert_pixel_distance_to_meters, convert_meters_to_pixel_distance.
  split; [| split].
  - intros Hm Hp d. split.
    + eexists. eexists. rewrite !py_div_Ok by assumption.
      split; [reflexivity |]. split; [reflexivity |]. field. split; assumption.
    + eexists. eexists. rewrite !py_div_Ok by assumption.
      split; [reflexivity |]. split; [reflexivity |]. field. split; assumption.
  - intros Hp d. unfold py_div.
    apply Qeq_bool_iff in Hp. rewrite Hp. reflexivity.
  - intros Hm d. unfold py_div.
    apply Qeq_bool_iff in Hm. rewrite Hm. reflexivity.
Qed.

Lemma conversions_round_trip_witness :
  (exists m p, convert_pixel_distance_to_meters (30 # 1) (188 # 100) (94 # 1) = Ok m
               /\ convert_meters_to_pixel_distance m (188 # 100) (94 # 1) = Ok p
               /\ (p == 30 # 1)%Q)
  /\ convert_pixel_distance_to_meters (30 # 1) (188 # 100) 0 = Raise ZeroDivisionError.
Proof.
  split.
  - apply (proj1 (proj1 (conversions_round_trip (188 # 100) (94 # 1))
                    ltac:(intros H; vm_compute in H; discriminate)
                    ltac:(intros H; vm_compute in H; discriminate) (30 # 1))).
  - apply (proj1 (proj2 (conversions_round_trip (188 # 100) 0)) ltac:(reflexivity)).
Defined.

(** X26.  The module defines [get_center_of_bbox] twice and the second
    definition replaces the first.  On a box of four numbers the two agree, so
    that the replacement changes no result.  They differ on the lists that are
    not boxes: the first raises [ValueError] on each of them, the second raises
    [IndexError] on a list that is too short and, on a list that is too long,
    returns the centre of its first four numbers. *)
Theorem get_center_of_bbox_redefined (l : list Q) :
  (forall x1 y1 x2 y2,
      l = [x1; y1; x2; y2] ->
      get_center_of_bbox_first l = Ok (get_center_of_bbox (x1, y1, x2, y2))
      /\ get_center_of_bbox_second l = Ok (get_center_of_bbox (x1, y1, x2, y2)))
  /\ ((length l < 4)%nat ->
      get_center_of_bbox_first l = Raise ValueError
      /\ get_center_of_bbox_second l = Raise IndexError)
  /\ ((4 < length l)%nat ->
      get_center_of_bbox_first l = Raise ValueError
      /\ get_center_of_bbox_second l = get_center_of_bbox_second (firstn 4 l)).
Proof.
  split; [| split].
  - intros x1 y1 x2 y2 ->. split; reflexivity.
  - intros Hlen.
    destruct l as [| a [| b [| c [| d l]]]]; simpl in Hlen; try lia;
      split; reflexivity.
  - intros Hlen.
    destruct l as [| a [| b [| c [| d [| e l]]]]]; simpl in Hlen; try lia.
    split; reflexivity.
Qed.

Lemma get_center_of_bbox_redefined_witness :
  get_center_of_bbox_first [90 # 1; 100 # 1; 110 # 1; 200 # 1]
  = Ok (get_center_of_bbox (box 90 100 110 200))
  /\ get_center_of_bbox_second [90 # 1; 100 # 1; 110 # 1; 200 # 1]
     = Ok (get_center_of_bbox (box 90 100 110 200)).
Proof.
  apply (proj1 (get_center_of_bbox_redefined [90 # 1; 100 # 1; 110 # 1; 200 # 1])
           (90 # 1) (100 # 1) (110 # 1) (200 # 1)).
  reflexivity.
Defined.

(* ================================================================== *)
(** * The mini court and the conversion of the detections *)
(* ================================================================== *)

Lemma py_div_zero (a b : Q) : (b == 0)%Q -> py_div a b = Raise ZeroDivisionError.
Proof. intros H. unfold py_div. apply Qeq_bool_iff in H. rewrite H. reflexivity. Qed.

(** X4.  [MiniCourt(frame)] depends on the frame through its width only.  When
    [constants.DOUBLE_LINE_WIDTH] is not zero the constructor returns for every
    width: the canvas is the 250 by 500 rectangle that ends 50 pixels from the
    right and starts 50 pixels from the top, the court drawing is 210 pixels
    wide, there are 28 key point coordinates, the start point is key point 0,
    and the key points 0 to 3 are the corners of a rectangle with horizontal and
    vertical sides that spans the width of the drawing.  When the constant is
    zero the constructor raises [ZeroDivisionError]. *)
Theorem MiniCourt_layout (c : constants) (frame_width : Z) :
  (~ (DOUBLE_LINE_WIDTH c == 0)%Q ->
   exists mc,
     MiniCourt c frame_width = Ok mc
     /\ (start_x mc, start_y mc, end_x mc, end_y mc)
        = (frame_width - 300, 50, frame_width - 50, 550)
     /\ get_width_of_mini_court mc = 210
     /\ get_start_point_of_mini_court mc = (frame_width - 280, 70)
     /\ length (get_court_drawing_keypoints mc) = 28%nat
     /\ keypoint_at (get_court_drawing_keypoints mc) 0
        = Some (inject_Z (fst (get_start_point_of_mini_court mc)),
                inject_Z (snd (get_start_point_of_mini_court mc)))
     /\ keypoint_at (get_court_drawing_keypoints mc) 1
        = Some (inject_Z (frame_width - 70), inject_Z 70)
     /\ exists x2 x3 y,
          keypoint_at (get_court_drawing_keypoints mc) 2 = Some (x2, y)
          /\ keypoint_at (get_court_drawing_keypoints mc) 3 = Some (x3, y)
          /\ (x2 == inject_Z (frame_width - 280))%Q
          /\ (x3 == inject_Z (frame_width - 70))%Q
          /\ (y == inject_Z 70
                   + HALF_COURT_LINE_HEIGHT c * 2 * inject_Z 210 / DOUBLE_LINE_WIDTH c)%Q)
  /\ ((DOUBLE_LINE_WIDTH c == 0)%Q -> MiniCourt c frame_width = Raise ZeroDivisionError).
Proof.
  split.
  - intros Hw. unfold MiniCourt, set_court_drawing_key_points, meters_to_pixels,
      convert_meters_to_pixel_distance.
    rewrite !py_div_Ok by exact Hw. cbn [Py.bind].
    eexists. split; [reflexivity |].
    unfold canvas_end_x, canvas_end_y, canvas_start_x, canvas_start_y,
      get_width_of_mini_court, get_start_point_of_mini_court,
      get_court_drawing_keypoints, keypoint_at.
    cbn [start_x start_y end_x end_y court_drawing_width court_start_x court_start_y
         drawing_key_points fst snd length nth_error Nat.mul Nat.add].
    replace (frame_width - 50 - 20 - (frame_width - 50 - 250 + 20)) with 210 by lia.
    replace (frame_width - 50 - 250) with (frame_width - 300) by lia.
    replace (50 + 500 - 500) with 50 by lia.
    replace (50 + 500) with 550 by lia.
    replace (frame_width - 300 + 20) with (frame_width - 280) by lia.
    replace (50 + 20) with 70 by lia.
    replace (frame_width - 50 - 20) with (frame_width - 70) by lia.
    repeat (split; [reflexivity |]).
    eexists. eexists. eexists.
    split; [reflexivity |]. split; [reflexivity |].
    split; [reflexivity |]. split; [| reflexivity].
    rewrite <- inject_Z_plus. replace (frame_width - 280 + 210) with (frame_width - 70) by lia.
    reflexivity.
  - intros Hw. unfold MiniCourt, set_court_drawing_key_points, meters_to_pixels,
      convert_meters_to_pixel_distance.
    rewrite py_div_zero by exact Hw. reflexivity.
Qed.

Lemma MiniCourt_layout_witness :
  exists mc,
     MiniCourt court_constants 1920 = Ok mc
     /\ (start_x mc, start_y mc, end_x mc, end_y mc) = (1920 - 300, 50, 1920 - 50, 550)
     /\ get_width_of_mini_court mc = 210
     /\ get_start_point_of_mini_court mc = (1920 - 280, 70)
     /\ length (get_court_drawing_keypoints mc) = 28%nat
     /\ keypoint_at (get_court_drawing_keypoints mc) 0
        = Some (inject_Z (fst (get_start_point_of_mini_court mc)),
                inject_Z (snd (get_start_point_of_mini_court mc)))
     /\ keypoint_at (get_court_drawing_keypoints mc) 1
        = Some (inject_Z (1920 - 70), inject_Z 70)
     /\ exists x2 x3 y,
          keypoint_at (get_court_drawing_keypoints mc) 2 = Some (x2, y)
          /\ keypoint_at (get_court_drawing_keypoints mc) 3 = Some (x3, y)
          /\ (x2 == inject_Z (1920 - 280))%Q
          /\ (x3 == inject_Z (1920 - 70))%Q
          /\ (y == inject_Z 70
                   + HALF_COURT_LINE_HEIGHT court_constants * 2 * inject_Z 210
                     / DOUBLE_LINE_WIDTH court_constants)%Q.
Proof.
  apply (proj1 (MiniCourt_layout court_constants 1920)).
  intros H. vm_compute in H. discriminate.
Defined.

Lemma Qabs_mirror (p k : Q) : (Qabs (2 * k - p - k) == Qabs (p - k))%Q.
Proof.
  setoid_replace (2 * k - p - k)%Q with (- (p - k))%Q by ring.
  apply Qabs_opp.
Qed.

(** X5.  [get_mini_court_coordinates] measures the offset of the object from
    the closest keypoint with [measure_xy_distance], which returns absolute
    values: the direction of the offset is lost.  An object and its mirror
    image about the keypoint are sent to the same point of the mini court, and
    with positive reference heights, a positive [DOUBLE_LINE_WIDTH] and a court
    drawing of non-negative width that point is never to the left of nor above
    the keypoint of the mini court. *)
Theorem get_mini_court_coordinates_loses_direction
    (c : constants) (mc : mini_court)
    (player_height_in_meters player_height_in_pixels px py kx ky : Q)
    (closest_key_point_index : Z) (p : point) :
  get_mini_court_coordinates c mc
    (VFloat player_height_in_meters) (VTuple px py) (VTuple kx ky)
    (VInt closest_key_point_index) (VFloat player_height_in_pixels) = Ok p ->
  (exists p',
      get_mini_court_coordinates c mc
        (VFloat player_height_in_meters) (VTuple (2 * kx - px) (2 * ky - py)) (VTuple kx ky)
        (VInt closest_key_point_index) (VFloat player_height_in_pixels) = Ok p'
      /\ (fst p' == fst p)%Q /\ (snd p' == snd p)%Q)
  /\ ((0 < player_height_in_meters)%Q -> (0 < player_height_in_pixels)%Q ->
      (0 < DOUBLE_LINE_WIDTH c)%Q -> 0 <= court_drawing_width mc ->
      exists mx my,
        index (drawing_key_points mc) (closest_key_point_index * 2) = Ok mx
        /\ index (drawing_key_points mc) (closest_key_point_index * 2 + 1) = Ok my
        /\ (mx <= fst p)%Q /\ (my <= snd p)%Q).
Proof.
  unfold get_mini_court_coordinates, measure_xy_distance, pixel_distance_to_meters,
    convert_pixel_distance_to_meters, convert_meters_to_pixels, meters_to_pixels,
    convert_meters_to_pixel_distance, subscript, number, list_index.
  change (index [px; py] 0) with (Ok (A := Q) px).
  change (index [px; py] 1) with (Ok (A := Q) py).
  change (index [kx; ky] 0) with (Ok (A := Q) kx).
  change (index [kx; ky] 1) with (Ok (A := Q) ky).
  change (index [(2 * kx - px)%Q; (2 * ky - py)%Q] 0) with (Ok (A := Q) (2 * kx - px)%Q).
  change (index [(2 * kx - px)%Q; (2 * ky - py)%Q] 1) with (Ok (A := Q) (2 * ky - py)%Q).
  rewrite !bind_ret. cbv beta iota.
  unfold py_div.
  destruct (Qeq_bool player_height_in_pixels 0) eqn:Ep; [discriminate |].
  rewrite !bind_ret.
  destruct (Qeq_bool (DOUBLE_LINE_WIDTH c) 0) eqn:Ew; [discriminate |].
  rewrite !bind_ret.
  destruct (index (drawing_key_points mc) (closest_key_point_index * 2)) as [mx | e];
    [| discriminate].
  destruct (index (drawing_key_points mc) (closest_key_point_index * 2 + 1)) as [my | e];
    [| discriminate].
  rewrite !bind_ret. intros H.
  apply (f_equal (fun r => match r with Ok q => q | Raise _ => p end)) in H.
  cbv beta iota in H. subst p.
  cbn [fst snd]. split.
  - eexists. split; [reflexivity |]. cbn [fst snd].
    rewrite !Qabs_mirror. split; reflexivity.
  - intros Hm Hp Hw Hd. exists mx, my. split; [reflexivity |]. split; [reflexivity |].
    assert (Hpos : forall d : Q,
               (0 <= Qabs d * player_height_in_meters / player_height_in_pixels
                     * inject_Z (court_drawing_width mc) / DOUBLE_LINE_WIDTH c)%Q).
    { intros d. apply Qle_shift_div_l; [exact Hw |].
      rewrite Qmult_0_l. apply Qmult_le_0_compat.
      - apply Qle_shift_div_l; [exact Hp |]. rewrite Qmult_0_l.
        apply Qmult_le_0_compat; [apply Qabs_nonneg | apply Qlt_le_weak; exact Hm].
      - change 0%Q with (inject_Z 0). rewrite <- Zle_Qle. exact Hd. }
    split.
    + rewrite <- (Qplus_0_r mx) at 1. apply Qplus_le_r. apply Hpos.
    + rewrite <- (Qplus_0_r my) at 1. apply Qplus_le_r. apply Hpos.
Qed.

Lemma get_mini_court_coordinates_loses_direction_witness :
  exists p',
    get_mini_court_coordinates court_constants court_1920
      (VFloat (188 # 100)) (VTuple (2 * (100 # 1) - (130 # 1)) (2 * (200 # 1) - (180 # 1)))
      (VTuple (100 # 1) (200 # 1)) (VInt 0) (VFloat (94 # 1)) = Ok p'
    /\ (fst p' == 1640 + 30 * (188 # 100) / (94 # 1) * 210 / (1097 # 100))%Q
    /\ (snd p' == 70 + 20 * (188 # 100) / (94 # 1) * 210 / (1097 # 100))%Q.
Proof.
  destruct (proj1 (get_mini_court_coordinates_loses_direction court_constants court_1920
                     (188 # 100) (94 # 1) (130 # 1) (180 # 1) (100 # 1) (200 # 1) 0
                     (1640 + 30 * (188 # 100) / (94 # 1) * 210 / (1097 # 100),
                      70 + 20 * (188 # 100) / (94 # 1) * 210 / (1097 # 100))%Q
                     ltac:(vm_compute; reflexivity)))
    as [p' [H [Hx Hy]]].
  exists p'. split; [exact H |]. split; [exact Hx | exact Hy].
Defined.

Lemma enumerate_cons {A : Type} (x : A) (l : list A) :
  exists rest, enumerate (x :: l) = (0, x) :: rest.
Proof.
  pose proof (nth_error_enumerate (x :: l) 0) as H. simpl in H.
  destruct (enumerate (x :: l)) as [| y rest]; [discriminate |].
  simpl in H. inversion H. subst y. eauto.
Qed.

Lemma player_step_as_written (c : constants) (mc : mini_court)
    (player_boxes : list (dict bbox)) (kps : list Q) (frame_num : Z)
    (ball_position : point) (closest : Z) (st : dict point * list (dict point))
    (item : Z * bbox) :
  exists e,
    player_step c (get_mini_court_coordinates c mc) player_boxes kps
      frame_num ball_position closest st item = Raise e.
Proof.
  unfold player_step. destruct item as [player_id b].
  destruct (closest_key_point_of kps (get_foot_position b)) as [[i kp] | e];
    [| eexists; reflexivity].
  rewrite bind_ret.
  destruct (max_player_height_in_pixels player_boxes frame_num player_id) as [m | e];
    [| eexists; reflexivity].
  rewrite bind_ret.
  destruct (get (player_heights c) player_id) as [h | e]; [| eexists; reflexivity].
  rewrite bind_ret. exists TypeError. reflexivity.
Qed.

Lemma conversion_as_written_raises
    (c : constants) (mc : mini_court) (player_boxes ball_boxes : list (dict bbox))
    (original_court_key_points : list Q) :
  player_boxes <> [] ->
  exists e,
    convert_bounding_boxes_to_mini_court_coordinates c mc player_boxes ball_boxes
      original_court_key_points = Raise e.
Proof.
  unfold convert_bounding_boxes_to_mini_court_coordinates, convert_bounding_boxes_with.
  intros Hne. destruct player_boxes as [| d rest]; [contradiction |].
  destruct (enumerate_cons d rest) as [tl ->].
  cbn [for_each]. unfold frame_step at 1.
  destruct (index ball_boxes 0) as [bd | e]; [| eexists; reflexivity].
  rewrite bind_ret.
  destruct (get bd 1) as [b | e]; [| eexists; reflexivity].
  rewrite bind_ret.
  destruct d as [| item others]; [eexists; reflexivity |].
  destruct (min_by _ _ _) as [cl | e]; [| eexists; reflexivity].
  rewrite bind_ret.
  cbn [items for_each].
  match goal with
  | |- context [player_step _ _ ?pb ?kps ?f ?bp ?k ?st ?it] =>
      destruct (player_step_as_written c mc pb kps f bp k st it) as [e ->]
  end.
  eexists. reflexivity.
Qed.

(** X6.  [convert_bounding_boxes_to_mini_court_coordinates], with the mapper
    called as the method calls it, returns only for an empty list of frames,
    for which it returns two empty lists.  As soon as there is a frame it
    raises: the first frame stops on a missing ball, on an empty dictionary
    of players, on a keypoint or a box that cannot be read, on a player other
    than 1 and 2, or else on the first call of the mapper. *)
Theorem conversion_as_written_returns_only_for_no_frame
    (c : constants) (mc : mini_court) (player_boxes ball_boxes : list (dict bbox))
    (original_court_key_points : list Q) :
  (player_boxes = [] ->
   convert_bounding_boxes_to_mini_court_coordinates c mc player_boxes ball_boxes
     original_court_key_points = Ok ([], []))
  /\ (player_boxes <> [] ->
      exists e,
        convert_bounding_boxes_to_mini_court_coordinates c mc player_boxes ball_boxes
          original_court_key_points = Raise e).
Proof.
  split.
  - intros ->. reflexivity.
  - apply conversion_as_written_raises.
Qed.

Lemma conversion_as_written_returns_only_for_no_frame_witness :
  exists e,
    convert_bounding_boxes_to_mini_court_coordinates court_constants court_1920
      players_two_frames ball_two_frames example_keypoints = Raise e.
Proof.
  apply (proj2 (conversion_as_written_returns_only_for_no_frame court_constants court_1920
                  players_two_frames ball_two_frames example_keypoints)).
  discriminate.
Defined.

Lemma keys_set_new {A : Type} (d : dict A) (k : Z) (v : A) :
  ~ In k (keys d) -> keys (set d k v) = keys d ++ [k].
Proof.
  induction d as [| [k' v'] d IH]; intros Hk; [reflexivity |].
  simpl in *. destruct (k' =? k) eqn:E.
  - apply Z.eqb_eq in E. exfalso. apply Hk. left. exact E.
  - simpl. f_equal. apply IH. intros H. apply Hk. right. exact H.
Qed.

Section ConversionShape.
Variable c : constants.
Variable project : mapper.
Variable player_boxes ball_boxes : list (dict bbox).
Variable original_court_key_points : list Q.

Lemma player_step_shape (frame_num : Z) (ball_position : point) (closest : Z)
    (st st' : dict point * list (dict point)) (player_id : Z) (b : bbox) :
  player_step c project player_boxes original_court_key_points
    frame_num ball_position closest st (player_id, b) = Ok st' ->
  (exists p, fst st' = set (fst st) player_id p)
  /\ (if closest =? player_id
      then exists q, snd st' = snd st ++ [[(1, q)]]
      else snd st' = snd st).
Proof.
  unfold player_step. intros H.
  bind_inv H. destruct a as [idx kp].
  bind_inv H. bind_inv H. bind_inv H.
  destruct (closest =? player_id).
  - bind_inv H. destruct a2 as [idx' kp']. bind_inv H. bind_inv H.
    inversion H. subst st'. simpl. split; eauto.
  - inversion H. subst st'. simpl. split; eauto.
Qed.

Lemma player_loop_shape (frame_num : Z) (ball_position : point) (closest : Z)
    (l : list (Z * bbox)) (st st' : dict point * list (dict point)) :
  for_each (player_step c project player_boxes original_court_key_points
              frame_num ball_position closest) l st = Ok st' ->
  NoDup (keys (fst st) ++ map fst l) ->
  keys (fst st') = keys (fst st) ++ map fst l
  /\ exists balls,
       snd st' = snd st ++ balls
       /\ Forall ball_entry balls
       /\ length balls = count_occ Z.eq_dec (map fst l) closest.
Proof.
  revert st. induction l as [| [player_id b] l IH]; intros st H Hnd.
  - simpl in H. inversion H. subst st'. simpl. rewrite app_nil_r. split; [reflexivity |].
    exists []. rewrite app_nil_r. repeat split. constructor.
  - simpl in H. bind_inv H.
    apply player_step_shape in Ha. destruct Ha as [[p Hp] Hb].
    simpl in Hnd.
    assert (Hnew : ~ In player_id (keys (fst st))).
    { apply NoDup_remove_2 in Hnd. intros Hin. apply Hnd. apply in_or_app. left. exact Hin. }
    assert (Hkeys : keys (fst a) = keys (fst st) ++ [player_id]).
    { rewrite Hp. apply keys_set_new. exact Hnew. }
    destruct (IH a H) as [Hk [balls [Hs [Hall Hlen]]]].
    { rewrite Hkeys, <- app_assoc. exact Hnd. }
    split.
    + rewrite Hk, Hkeys, <- app_assoc. reflexivity.
    + simpl. destruct (Z.eq_dec player_id closest) as [-> | Hne].
      * rewrite Z.eqb_refl in Hb. destruct Hb as [q Hq].
        exists ([(1, q)] :: balls). split; [| split].
        -- rewrite Hs, Hq, <- app_assoc. reflexivity.
        -- constructor; [exists q; reflexivity | exact Hall].
        -- simpl. rewrite Hlen. reflexivity.
      * assert (E : (closest =? player_id) = false) by (apply Z.eqb_neq; congruence).
        rewrite E in Hb. exists balls. split; [| split].
        -- rewrite Hs, Hb. reflexivity.
        -- exact Hall.
        -- exact Hlen.
Qed.

Lemma frame_step_shape (st st' : list (dict point) * list (dict point))
    (frame_num : Z) (player_bbox : dict bbox) :
  frame_step c project player_boxes ball_boxes original_court_key_points
    st (frame_num, player_bbox) = Ok st' ->
  NoDup (keys player_bbox) ->
  exists out ball,
    st' = (fst st ++ [out], snd st ++ [ball])
    /\ keys out = keys player_bbox
    /\ ball_entry ball.
Proof.
  unfold frame_step. intros H Hnd.
  bind_inv H. bind_inv H. bind_inv H. bind_inv H.
  destruct a2 as [out balls]. inversion H. subst st'. clear H.
  apply min_by_In in Ha1.
  apply player_loop_shape in Ha2; [| exact Hnd].
  destruct Ha2 as [Hk [extra [Hs [Hall Hlen]]]]. simpl in Hk, Hs.
  assert (Hone : count_occ Z.eq_dec (map fst (items player_bbox)) a1 = 1%nat).
  { apply NoDup_count_occ'; assumption. }
  rewrite Hone in Hlen.
  destruct extra as [| ball [| ? ?]]; try discriminate.
  inversion Hall. subst.
  exists out, ball. split; [reflexivity |]. split; assumption.
Qed.

Lemma frame_loop_shape (l : list (Z * dict bbox))
    (st st' : list (dict point) * list (dict point)) :
  for_each (frame_step c project player_boxes ball_boxes original_court_key_points)
    l st = Ok st' ->
  Forall (fun item => NoDup (keys (snd item))) l ->
  exists outs balls,
    st' = (fst st ++ outs, snd st ++ balls)
    /\ map keys outs = map (fun item => keys (snd item)) l
    /\ length balls = length l
    /\ Forall ball_entry balls.
Proof.
  revert st. induction l as [| [f d] l IH]; intros st H Hnd.
  - simpl in H. inversion H. subst st'. exists [], []. rewrite !app_nil_r.
    destruct st. repeat split. constructor.
  - simpl in H. bind_inv H. inversion Hnd as [| ? ? Hd Hl]. subst.
    apply frame_step_shape in Ha; [| exact Hd].
    destruct Ha as [out [ball [-> [Hk Hb]]]].
    destruct (IH _ H Hl) as [outs [balls [-> [Hks [Hlen Hall]]]]]. simpl.
    exists (out :: outs), (ball :: balls).
    rewrite <- !app_assoc. simpl. split; [reflexivity |]. split; [| split].
    + rewrite Hk, Hks. reflexivity.
    + rewrite Hlen. reflexivity.
    + constructor; assumption.
Qed.

End ConversionShape.

Lemma map_snd_enumerate {A : Type} (l : list A) : map snd (enumerate l) = l.
Proof.
  apply nth_error_ext. intros n.
  rewrite nth_error_map, nth_error_enumerate.
  destruct (nth_error l n); reflexivity.
Qed.

(** X7.  Whatever the mapper computes, a conversion that ends normally on
    frames whose dictionaries have distinct keys returns two lists aligned with
    the frames: the dictionary of players of each frame has the keys of the
    input frame in the same order, and the list of ball positions has one
    dictionary per frame, with the single key 1. *)
Theorem conversion_outputs_are_aligned
    (c : constants) (project : mapper) (player_boxes ball_boxes : list (dict bbox))
    (original_court_key_points : list Q)
    (output_player_boxes output_ball_boxes : list (dict point)) :
  convert_bounding_boxes_with c project player_boxes ball_boxes original_court_key_points
  = Ok (output_player_boxes, output_ball_boxes) ->
  Forall (fun d => NoDup (keys d)) player_boxes ->
  map keys output_player_boxes = map keys player_boxes
  /\ length output_ball_boxes = length player_boxes
  /\ Forall (fun d => keys d = [1]) output_ball_boxes.
Proof.
  unfold convert_bounding_boxes_with. intros H Hnd.
  apply frame_loop_shape in H.
  - destruct H as [outs [balls [Heq [Hk [Hlen Hall]]]]]. simpl in Heq.
    inversion Heq. subst. split; [| split].
    + rewrite Hk, <- (map_map snd keys), map_snd_enumerate. reflexivity.
    + rewrite Hlen, <- (length_map snd), map_snd_enumerate. reflexivity.
    + eapply Forall_impl; [| exact Hall]. intros d [q ->]. reflexivity.
  - apply (proj1 (Forall_map snd (fun d => NoDup (keys d)) (enumerate player_boxes))).
    rewrite map_snd_enumerate. exact Hnd.
Qed.

Lemma conversion_outputs_are_aligned_witness :
  exists ps bs,
    convert_bounding_boxes_with court_constants
      (get_mini_court_coordinates_by_name court_constants court_1920)
      players_two_frames ball_two_frames example_keypoints = Ok (ps, bs)
    /\ map keys ps = [[1; 2]; [1; 2]]
    /\ length bs = 2%nat.
Proof.
  destruct (convert_bounding_boxes_with court_constants
              (get_mini_court_coordinates_by_name court_constants court_1920)
              players_two_frames ball_two_frames example_keypoints)
    as [[ps bs] | e] eqn:E; [| vm_compute in E; discriminate].
  exists ps, bs. split; [reflexivity |].
  destruct (conversion_outputs_are_aligned court_constants
              (get_mini_court_coordinates_by_name court_constants court_1920)
              players_two_frames ball_two_frames example_keypoints ps bs E)
    as [Hk [Hl _]].
  - repeat constructor; simpl; intuition discriminate.
  - split; assumption.
Defined.

(** X8.  Whatever the mapper computes, a conversion that ends normally has
    found on every frame a ball box under the key 1 and at least one player,
    and, when there is a frame at all, a keypoint list with the 28 coordinates
    of the candidates 0, 2, 12 and 13. *)
Theorem conversion_needs_ball_players_and_keypoints
    (c : constants) (project : mapper) (player_boxes ball_boxes : list (dict bbox))
    (original_court_key_points : list Q) (out : list (dict point) * list (dict point)) :
  convert_bounding_boxes_with c project player_boxes ball_boxes original_court_key_points
  = Ok out ->
  (forall (f : nat) (d : dict bbox),
      nth_error player_boxes f = Some d ->
      d <> []
      /\ exists ball_dict ball_box,
           nth_error ball_boxes f = Some ball_dict /\ get ball_dict 1 = Ok ball_box)
  /\ (player_boxes <> [] -> (28 <= length original_court_key_points)%nat).
Proof.
  unfold convert_bounding_boxes_with. intros H.
  assert (Hframe : forall (f : nat) (d : dict bbox),
             nth_error player_boxes f = Some d ->
             exists ball_dict ball_box item,
               nth_error ball_boxes f = Some ball_dict /\ get ball_dict 1 = Ok ball_box
               /\ In item d
               /\ exists idx, get_closest_keypoint_index (get_foot_position (snd item))
                                original_court_key_points [0; 2; 12; 13] = Ok idx).
  { intros f d Hd.
    assert (Hin : In (Z.of_nat f, d) (enumerate player_boxes)).
    { apply In_enumerate. rewrite Nat2Z.id. split; [lia | exact Hd]. }
    destruct (for_each_Ok_body _ _ _ _ _ H Hin) as [s [s' Hs]].
    unfold frame_step in Hs. bind_inv Hs. bind_inv Hs. bind_inv Hs. bind_inv Hs.
    apply index_Ok_nth in Ha; [| lia]. rewrite Nat2Z.id in Ha.
    exists a, a0.
    destruct d as [| item d]; [discriminate |].
    exists item. split; [exact Ha |]. split; [exact Ha0 |]. split; [left; reflexivity |].
    destruct (for_each_Ok_body _ _ _ _ item Ha2 (or_introl eq_refl)) as [t [t' Ht]].
    unfold player_step in Ht. destruct item as [player_id b].
    bind_inv Ht. unfold closest_key_point_of in Ha3. bind_inv Ha3. eauto. }
  split.
  - intros f d Hd. destruct (Hframe f d Hd) as [bd [b [item [Hbd [Hb [Hin _]]]]]].
    split; [intros ->; contradiction | eauto].
  - intros Hne. destruct player_boxes as [| d rest]; [contradiction |].
    destruct (Hframe 0%nat d eq_refl) as [_ [_ [item [_ [_ [_ [idx Hidx]]]]]]].
    unfold get_closest_keypoint_index in Hidx.
    change (index [0; 2; 12; 13] 0) with (Ok (A := Z) 0) in Hidx.
    rewrite bind_ret in Hidx. bind_inv Hidx.
    destruct (Nat.lt_ge_cases (length original_court_key_points) 28) as [Hlt | Hge];
      [| exact Hge].
    rewrite closest_loop_raises in Ha; [discriminate |].
    intros Hall. inversion Hall as [| ? ? _ H2]. subst.
    inversion H2 as [| ? ? _ H12]. subst.
    inversion H12 as [| ? ? _ H13]. subst.
    inversion H13 as [| ? ? [_ Hb] _]. subst. lia.
Qed.

Lemma conversion_needs_ball_players_and_keypoints_witness :
  (28 <= length example_keypoints)%nat.
Proof.
  destruct (convert_bounding_boxes_with court_constants
              (get_mini_court_coordinates_by_name court_constants court_1920)
              players_two_frames ball_two_frames example_keypoints)
    as [out | e] eqn:E; [| vm_compute in E; discriminate].
  apply (proj2 (conversion_needs_ball_players_and_keypoints court_constants
                  (get_mini_court_coordinates_by_name court_constants court_1920)
                  players_two_frames ball_two_frames example_keypoints out E)).
  discriminate.
Defined.

(* ================================================================== *)
(** * The selection and the filtering of the players *)
(* ================================================================== *)

Lemma distances_loop_keys (kps : list Q) (l : list (Z * bbox))
    (acc out : list (Z * option root)) :
  for_each (distances_step kps) l acc = Ok out ->
  map fst out = map fst acc ++ map fst l.
Proof.
  revert acc. induction l as [| [id b] l IH]; intros acc H.
  - simpl in H. inversion H. rewrite app_nil_r. reflexivity.
  - simpl in H. bind_inv H. unfold distances_step in Ha. bind_inv Ha.
    inversion Ha. subst a. apply IH in H.
    rewrite H, map_app, <- app_assoc. reflexivity.
Qed.

(** What a selection that ends normally has computed. *)
Lemma choose_players_Ok (kps : list Q) (d : dict bbox) (chosen : list Z) :
  choose_players kps d = Ok chosen ->
  exists ds d0 d1 rest,
    for_each (distances_step kps) (items d) [] = Ok ds
    /\ map fst ds = keys d
    /\ sort_by (inf_ltb root_ltb) snd ds = d0 :: d1 :: rest
    /\ chosen = [fst d0; fst d1].
Proof.
  unfold choose_players. intros H. bind_inv H.
  pose proof (distances_loop_keys _ _ _ _ Ha) as Hk. simpl in Hk.
  destruct (sort_by (inf_ltb root_ltb) snd a) as [| d0 [| d1 rest]] eqn:Es;
    try discriminate.
  simpl in H. inversion H. subst chosen.
  exists a, d0, d1, rest. repeat split; assumption.
Qed.

Lemma choose_players_in_frame (kps : list Q) (d : dict bbox) (a b : Z) :
  choose_players kps d = Ok [a; b] ->
  In a (keys d) /\ In b (keys d) /\ (NoDup (keys d) -> a <> b).
Proof.
  intros H. apply choose_players_Ok in H.
  destruct H as [ds [d0 [d1 [rest [_ [Hk [Hs Hc]]]]]]].
  inversion Hc. subst a b. clear Hc.
  assert (Hperm : Permutation (map fst (d0 :: d1 :: rest)) (keys d)).
  { rewrite <- Hk, <- Hs. apply Permutation_map. apply sort_by_perm. }
  split; [| split].
  - apply (Permutation_in _ Hperm). left. reflexivity.
  - apply (Permutation_in _ Hperm). right. left. reflexivity.
  - intros Hnd Heq.
    apply (Permutation_NoDup (Permutation_sym Hperm)) in Hnd.
    simpl in Hnd. inversion Hnd as [| ? ? Hnot _]. apply Hnot. left. symmetry. exact Heq.
Qed.

Lemma choose_players_two (kps : list Q) (d : dict bbox) (chosen : list Z) :
  choose_players kps d = Ok chosen -> exists a b, chosen = [a; b].
Proof.
  intros H. apply choose_players_Ok in H.
  destruct H as [ds [d0 [d1 [rest [_ [_ [_ Hc]]]]]]]. eauto.
Qed.

Lemma choose_players_few (kps : list Q) (d : dict bbox) :
  (length d < 2)%nat -> choose_players kps d = Raise IndexError.
Proof.
  intros Hlt. unfold choose_players.
  destruct d as [| [id b] [| item rest]]; simpl in Hlt; [| | lia].
  - reflexivity.
  - simpl.
    destruct (min_distance_loop_result kps (get_center_of_bbox b)
                (range2 0 (Z.of_nat (length kps))) None) as [[m Hm] | Hm];
      rewrite Hm; reflexivity.
Qed.

Lemma get_filter_keep {A : Type} (p : Z * A -> bool) (d : dict A) (id : Z) :
  (forall v, p (id, v) = true) -> get (filter p d) id = get d id.
Proof.
  intros Hp. unfold get. induction d as [| [k v] d IH]; [reflexivity |].
  simpl. destruct (k =? id) eqn:E.
  - apply Z.eqb_eq in E. subst k. rewrite Hp. simpl. rewrite Z.eqb_refl. reflexivity.
  - destruct (p (k, v)); [simpl; rewrite E |]; exact IH.
Qed.

Lemma get_filter_drop {A : Type} (p : Z * A -> bool) (d : dict A) (id : Z) :
  (forall v, p (id, v) = false) -> get (filter p d) id = Raise KeyError.
Proof.
  intros Hp. apply not_In_keys_get. unfold keys. intros Hin.
  apply in_map_iff in Hin. destruct Hin as [[k v] [Hk Hin]]. simpl in Hk. subst k.
  apply filter_In in Hin. destruct Hin as [_ Hin]. rewrite Hp in Hin. discriminate.
Qed.

Lemma NoDup_keys_filter {A : Type} (p : Z * A -> bool) (d : dict A) :
  NoDup (keys d) -> NoDup (keys (filter p d)).
Proof.
  unfold keys. induction d as [| [k v] d IH]; intros Hnd; [constructor |].
  simpl in *. inversion Hnd as [| ? ? Hnot Hnd']. subst.
  destruct (p (k, v)); [| apply IH; exact Hnd'].
  simpl. constructor; [| apply IH; exact Hnd'].
  intros Hin. apply Hnot. apply in_map_iff in Hin. destruct Hin as [x [Hx Hin]].
  apply filter_In in Hin. apply in_map_iff. exists x. tauto.
Qed.

(** X9.  When [choose_and_filter_players] returns, the two players were chosen
    on the first frame, among its entries, and every frame is cut down to them:
    the result has one dictionary per frame, in which the two chosen identities
    have the box they had in the detections (or are missing as they were) and
    every other identity is missing; a frame with distinct keys keeps at most
    two entries. *)
Theorem choose_and_filter_players_spec
    (court_keypoints : list Q) (player_detections out : list (dict bbox)) :
  choose_and_filter_players court_keypoints player_detections = Ok out ->
  exists first a b,
    nth_error player_detections 0 = Some first
    /\ choose_players court_keypoints first = Ok [a; b]
    /\ In a (keys first) /\ In b (keys first)
    /\ length out = length player_detections
    /\ forall t d,
         nth_error player_detections t = Some d ->
         exists d',
           nth_error out t = Some d'
           /\ (forall id, id = a \/ id = b -> get d' id = get d id)
           /\ (forall id, id <> a -> id <> b -> get d' id = Raise KeyError)
           /\ (NoDup (keys d) -> NoDup (keys d') /\ (length d' <= 2)%nat).
Proof.
  unfold choose_and_filter_players. intros H. bind_inv H. bind_inv H.
  inversion H. subst out. clear H.
  apply index_Ok_nth in Ha; [| lia]. simpl in Ha.
  destruct (choose_players_two _ _ _ Ha0) as [x [y ->]].
  destruct (choose_players_in_frame _ _ _ _ Ha0) as [Hx [Hy _]].
  exists a, x, y. split; [exact Ha |]. split; [exact Ha0 |].
  split; [exact Hx |]. split; [exact Hy |].
  split; [apply length_map |].
  intros t d Hd. rewrite nth_error_map, Hd. simpl.
  eexists. split; [reflexivity |]. unfold items. split; [| split].
  - intros id Hid. apply get_filter_keep. intros v. simpl.
    destruct Hid as [-> | ->]; rewrite Z.eqb_refl; simpl;
      [reflexivity | apply orb_true_r].
  - intros id Hx' Hy'. apply get_filter_drop. intros v. simpl.
    assert (E1 : (id =? x) = false) by (apply Z.eqb_neq; exact Hx').
    assert (E2 : (id =? y) = false) by (apply Z.eqb_neq; exact Hy').
    rewrite E1, E2. reflexivity.
  - intros Hnd.
    assert (Hnd' : NoDup (keys (filter (fun item => existsb (Z.eqb (fst item)) [x; y]) d)))
      by (apply NoDup_keys_filter; exact Hnd).
    split; [exact Hnd' |].
    change 2%nat with (length [x; y]).
    unfold keys in Hnd'. rewrite <- (length_map fst).
    apply NoDup_incl_length; [exact Hnd' |].
    intros k Hk. apply in_map_iff in Hk. destruct Hk as [[k' v] [Hk Hin]].
    simpl in Hk. subst k'. apply filter_In in Hin. destruct Hin as [_ Hin].
    simpl in Hin. rewrite orb_false_r in Hin. apply orb_true_iff in Hin.
    destruct Hin as [E | E]; apply Z.eqb_eq in E; subst; simpl; auto.
Qed.

Lemma choose_and_filter_players_spec_witness :
  exists first a b,
    nth_error [three_people; [(5, box 900 0 920 40); (12, box 291 700 311 800)]] 0
    = Some first
    /\ choose_players example_keypoints first = Ok [a; b]
    /\ In a (keys first) /\ In b (keys first)
    /\ length [ [(7, box 90 100 110 200); (12, box 290 700 310 800)];
                [(12, box 291 700 311 800)] ]
       = length [three_people; [(5, box 900 0 920 40); (12, box 291 700 311 800)]]
    /\ forall t d,
         nth_error [three_people; [(5, box 900 0 920 40); (12, box 291 700 311 800)]] t
         = Some d ->
         exists d',
           nth_error [ [(7, box 90 100 110 200); (12, box 290 700 310 800)];
                       [(12, box 291 700 311 800)] ] t = Some d'
           /\ (forall id, id = a \/ id = b -> get d' id = get d id)
           /\ (forall id, id <> a -> id <> b -> get d' id = Raise KeyError)
           /\ (NoDup (keys d) -> NoDup (keys d') /\ (length d' <= 2)%nat).
Proof.
  apply (choose_and_filter_players_spec example_keypoints
           [three_people; [(5, box 900 0 920 40); (12, box 291 700 311 800)]]).
  vm_compute. reflexivity.
Defined.

(** X10.  [choose_and_filter_players] looks for the players on the first frame
    only.  It raises [IndexError] when there is no frame, and when the first
    frame has fewer than two detections, whatever the later frames hold. *)
Theorem choose_and_filter_players_needs_two_on_first_frame
    (court_keypoints : list Q) :
  choose_and_filter_players court_keypoints [] = Raise IndexError
  /\ forall (first : dict bbox) (later : list (dict bbox)),
       (length first < 2)%nat ->
       choose_and_filter_players court_keypoints (first :: later) = Raise IndexError.
Proof.
  split; [reflexivity |].
  intros first later Hlt. unfold choose_and_filter_players.
  change (index (first :: later) 0) with (Ok (A := dict bbox) first).
  rewrite bind_ret, choose_players_few by exact Hlt. reflexivity.
Qed.

Lemma choose_and_filter_players_needs_two_on_first_frame_witness :
  choose_and_filter_players example_keypoints
    [ [(7, box 90 100 110 200)]; three_people ] = Raise IndexError.
Proof.
  apply (proj2 (choose_and_filter_players_needs_two_on_first_frame example_keypoints)).
  simpl. lia.
Defined.

Lemma range2_odd (m : nat) :
  range2 0 (Z.of_nat (2 * m + 1))
  = map (fun k => 0 + 2 * Z.of_nat k) (seq 0 m) ++ [2 * Z.of_nat m].
Proof.
  unfold range2.
  replace ((Z.of_nat (2 * m + 1) - 0 + 1) / 2) with (Z.of_nat (m + 1)).
  - rewrite Nat2Z.id, seq_app, map_app. reflexivity.
  - replace (Z.of_nat (2 * m + 1) - 0 + 1) with (Z.of_nat (m + 1) * 2) by lia.
    rewrite Z.div_mul by lia. reflexivity.
Qed.

(** X11.  The court keypoints are read in pairs.  With a list of odd length
    the last pair cannot be read and [choose_players] raises [IndexError] as
    soon as the frame has a detection. *)
Theorem choose_players_odd_keypoints (court_keypoints : list Q) (player_dict : dict bbox) :
  Nat.Odd (length court_keypoints) ->
  player_dict <> [] ->
  choose_players court_keypoints player_dict = Raise IndexError.
Proof.
  intros [m Hm] Hne. destruct player_dict as [| [id b] rest]; [contradiction |].
  unfold choose_players. cbn [items for_each]. unfold distances_step at 1.
  rewrite Hm, range2_odd, for_each_app.
  destruct (min_distance_loop_result court_keypoints (get_center_of_bbox b)
              (map (fun k => 0 + 2 * Z.of_nat k) (seq 0 m)) None) as [[d Hd] | Hd];
    rewrite Hd; [| reflexivity].
  rewrite bind_ret. cbn [for_each]. unfold min_distance_step.
  destruct (index court_keypoints (2 * Z.of_nat m)) as [x | e] eqn:Ex;
    [| apply index_Raise in Ex; subst; reflexivity].
  rewrite bind_ret, index_out_of_bounds by lia. reflexivity.
Qed.

Lemma choose_players_odd_keypoints_witness :
  choose_players [100 # 1; 200 # 1; 500 # 1] three_people = Raise IndexError.
Proof.
  apply (choose_players_odd_keypoints [100 # 1; 200 # 1; 500 # 1] three_people).
  - exists 1%nat. reflexivity.
  - discriminate.
Defined.

Lemma distances_without_keypoints (l : list (Z * bbox)) (acc : list (Z * option root)) :
  for_each (distances_step []) l acc = Ok (acc ++ map (fun item => (fst item, None)) l).
Proof.
  revert acc. induction l as [| [id b] l IH]; intros acc.
  - simpl. rewrite app_nil_r. reflexivity.
  - simpl. rewrite IH, <- app_assoc. reflexivity.
Qed.

Lemma sort_by_all_infinite (l : list (Z * option root)) :
  Forall (fun d => snd d = None) l -> sort_by (inf_ltb root_ltb) snd l = l.
Proof.
  induction 1 as [| d l Hd Hl IH]; [reflexivity |].
  unfold sort_by in *. simpl. rewrite IH.
  destruct l as [| y l']; [reflexivity |].
  simpl. inversion Hl as [| ? ? Hy _]. subst. rewrite Hy. reflexivity.
Qed.

(** X12.  Without court keypoints every distance stays infinite, the sort
    leaves the detections in their order and [choose_players] returns the first
    two track identities of the frame. *)
Theorem choose_players_without_keypoints
    (a b : Z) (box_a box_b : bbox) (others : dict bbox) :
  choose_players [] ((a, box_a) :: (b, box_b) :: others) = Ok [a; b].
Proof.
  unfold choose_players, items.
  rewrite distances_without_keypoints, bind_ret. cbn [app].
  rewrite sort_by_all_infinite; [reflexivity |].
  apply Forall_forall. intros d Hd. apply in_map_iff in Hd.
  destruct Hd as [item [<- _]]. reflexivity.
Qed.

Lemma distances_step_any (kps : list Q) (acc acc' out : list (Z * option root))
    (item : Z * bbox) :
  distances_step kps acc item = Ok out ->
  exists m, distances_step kps acc' item = Ok (acc' ++ [(fst item, m)]).
Proof.
  unfold distances_step. destruct item as [id b]. intros H. bind_inv H.
  rewrite Ha, bind_ret. eauto.
Qed.

Lemma distances_loop_sub (kps : list Q) (l l' : list (Z * bbox))
    (acc out acc' : list (Z * option root)) :
  for_each (distances_step kps) l acc = Ok out ->
  incl l' l ->
  exists ds, for_each (distances_step kps) l' acc' = Ok ds.
Proof.
  intros H Hincl. revert acc'. induction l' as [| item l' IH]; intros acc'.
  - simpl. eauto.
  - simpl.
    destruct (for_each_Ok_body _ _ _ _ item H (Hincl item (or_introl eq_refl)))
      as [s [s' Hs]].
    destruct (distances_step_any kps s acc' s' item Hs) as [m ->].
    rewrite bind_ret. apply IH. intros x Hx. apply Hincl. right. exact Hx.
Qed.

Lemma filter_filter_same {A : Type} (p q : A -> bool) (l : list A) :
  (forall x, p x = true -> q x = true) -> filter q (filter p l) = filter p l.
Proof.
  intros Hpq. induction l as [| x l IH]; simpl; [reflexivity |].
  destruct (p x) eqn:E; [| exact IH]. simpl. rewrite (Hpq x E), IH. reflexivity.
Qed.

Lemma same_pair (x y a b k : Z) :
  a = x \/ a = y -> b = x \/ b = y -> a <> b ->
  existsb (Z.eqb k) [x; y] = true -> existsb (Z.eqb k) [a; b] = true.
Proof.
  simpl. rewrite !orb_false_r, !orb_true_iff, !Z.eqb_eq. lia.
Qed.

(** X27.  Filtering the filtered detections changes nothing: when
    [choose_and_filter_players] has returned and the first frame had distinct
    track identities, a second call on its result chooses the same two players
    and returns the same detections. *)
Theorem choose_and_filter_players_idempotent
    (court_keypoints : list Q) (player_detections out : list (dict bbox)) :
  choose_and_filter_players court_keypoints player_detections = Ok out ->
  (forall first, nth_error player_detections 0 = Some first -> NoDup (keys first)) ->
  choose_and_filter_players court_keypoints out = Ok out.
Proof.
  unfold choose_and_filter_players. intros H Hnd. bind_inv H. bind_inv H.
  inversion H. subst out. clear H.
  apply index_Ok_nth in Ha; [| lia]. simpl in Ha.
  specialize (Hnd a Ha).
  destruct (choose_players_two _ _ _ Ha0) as [x [y ->]].
  destruct (choose_players_in_frame _ _ _ _ Ha0) as [Hx [Hy Hxy]].
  specialize (Hxy Hnd).
  destruct player_detections as [| first rest]; [discriminate |].
  simpl in Ha. inversion Ha. subst first. clear Ha.
  set (keep := fun item : Z * bbox => existsb (Z.eqb (fst item)) [x; y]).
  cbn [map]. change (index (filter keep (items a) :: map (fun d => filter keep (items d)) rest) 0)
    with (Ok (A := dict bbox) (filter keep (items a))).
  rewrite bind_ret.
  (* the first frame, filtered *)
  set (first' := filter keep (items a)).
  assert (Hkeys' : forall k, In k (keys first') <-> k = x \/ k = y).
  { intros k. unfold first', keys, items. rewrite in_map_iff. split.
    - intros [[k' v] [Hk Hin]]. simpl in Hk. subst k'.
      apply filter_In in Hin. destruct Hin as [_ Hin]. unfold keep in Hin. simpl in Hin.
      rewrite orb_false_r in Hin. apply orb_true_iff in Hin.
      destruct Hin as [E | E]; apply Z.eqb_eq in E; auto.
    - intros Hk.
      assert (Hin : In k (keys a)) by (destruct Hk; subst; assumption).
      unfold keys in Hin. apply in_map_iff in Hin. destruct Hin as [[k' v] [Hk' Hin]].
      simpl in Hk'. subst k'. exists (k, v). split; [reflexivity |].
      apply filter_In. split; [exact Hin |]. unfold keep. simpl.
      destruct Hk as [-> | ->]; rewrite Z.eqb_refl; simpl;
        [reflexivity | apply orb_true_r]. }
  assert (Hnd' : NoDup (keys first')) by (apply NoDup_keys_filter; exact Hnd).
  (* the selection on the filtered first frame *)
  apply choose_players_Ok in Ha0.
  destruct Ha0 as [ds [d0 [d1 [more [Hds [_ [_ _]]]]]]].
  destruct (distances_loop_sub court_keypoints (items a) (items first') [] ds [] Hds)
    as [ds' Hds'].
  { intros item Hin. unfold first', items in Hin. apply filter_In in Hin. tauto. }
  pose proof (distances_loop_keys _ _ _ _ Hds') as Hk'. simpl in Hk'.
  assert (Hperm : Permutation (map fst (sort_by (inf_ltb root_ltb) snd ds')) (keys first')).
  { change (map fst (items first')) with (keys first') in Hk'.
    rewrite <- Hk'. apply Permutation_map. apply sort_by_perm. }
  assert (Hlen : (2 <= length (sort_by (inf_ltb root_ltb) snd ds'))%nat).
  { rewrite <- (length_map fst), (Permutation_length Hperm).
    change 2%nat with (length [x; y]). apply NoDup_incl_length.
    - repeat constructor; simpl; intuition.
    - intros k [<- | [<- | []]]; apply Hkeys'; auto. }
  unfold choose_players at 1. rewrite Hds', bind_ret.
  destruct (sort_by (inf_ltb root_ltb) snd ds') as [| e0 [| e1 tl]] eqn:Es;
    simpl in Hlen; try lia.
  change (index (e0 :: e1 :: tl) 0) with (Ok (A := Z * option root) e0).
  change (index (e0 :: e1 :: tl) 1) with (Ok (A := Z * option root) e1).
  rewrite !bind_ret.
  assert (H0 : fst e0 = x \/ fst e0 = y).
  { apply Hkeys'. apply (Permutation_in _ Hperm). left. reflexivity. }
  assert (H1 : fst e1 = x \/ fst e1 = y).
  { apply Hkeys'. apply (Permutation_in _ Hperm). right. left. reflexivity. }
  assert (Hne : fst e0 <> fst e1).
  { apply (Permutation_NoDup (Permutation_sym Hperm)) in Hnd'.
    simpl in Hnd'. inversion Hnd' as [| ? ? Hnot _]. intros Heq. apply Hnot.
    left. symmetry. exact Heq. }
  f_equal. cbn [map]. f_equal.
  - apply filter_filter_same. intros item.
    apply (same_pair x y (fst e0) (fst e1) (fst item)); assumption.
  - rewrite map_map. apply map_ext. intros d. unfold items.
    apply filter_filter_same. intros item.
    apply (same_pair x y (fst e0) (fst e1) (fst item)); assumption.
Qed.

Lemma choose_and_filter_players_idempotent_witness :
  choose_and_filter_players example_keypoints
    [ [(7, box 90 100 110 200); (12, box 290 700 310 800)]; [(12, box 291 700 311 800)] ]
  = Ok [ [(7, box 90 100 110 200); (12, box 290 700 310 800)]; [(12, box 291 700 311 800)] ].
Proof.
  apply (choose_and_filter_players_idempotent example_keypoints
           [three_people; [(5, box 900 0 920 40); (12, box 291 700 311 800)]]).
  - vm_compute. reflexivity.
  - intros first H. inversion H. subst first.
    repeat constructor; simpl; intuition discriminate.
Defined.

(* ================================================================== *)
(** * The ball: the ends of the interpolation and the range of the shots *)
(* ================================================================== *)

Section TrailingFacts.
Import Pandas.

Lemma known_from_none (s : series) (off : Z) :
  (forall j, (j < length s)%nat -> nth_error s j = Some None) -> known_from off s = [].
Proof.
  revert off. induction s as [| x s IH]; intros off Hnone; [reflexivity |].
  pose proof (Hnone O ltac:(simpl; lia)) as H0. simpl in H0. inversion H0. subst x.
  simpl. apply IH. intros j Hj. apply (Hnone (S j)). simpl. lia.
Qed.

(** The last known value comes last in the list of known values. *)
Lemma known_from_last (s : series) (off : Z) (a : nat) (va : Q) :
  nth_error s a = Some (Some va) ->
  (forall j, (a < j < length s)%nat -> nth_error s j = Some None) ->
  exists l, known_from off s = l ++ [(off + Z.of_nat a, va)]
            /\ Forall (fun x => fst x < off + Z.of_nat a) l.
Proof.
  revert off a. induction s as [| x s IH]; intros off a Ha Hnone.
  - destruct a; discriminate.
  - destruct a as [| a]; simpl in Ha.
    + inversion Ha. subst x. simpl. exists []. split; [| constructor].
      rewrite known_from_none, Z.add_0_r; [reflexivity |].
      intros j Hj. apply (Hnone (S j)). simpl. lia.
    + destruct (IH (off + 1) a Ha) as [l [Hl Hall]].
      { intros j Hj. apply (Hnone (S j)). simpl. lia. }
      replace (off + 1 + Z.of_nat a) with (off + Z.of_nat (S a)) in * by lia.
      destruct x as [w |]; simpl; rewrite Hl.
      * exists ((off, w) :: l). split; [reflexivity |].
        constructor; [simpl; lia | exact Hall].
      * exists l. split; [reflexivity | exact Hall].
Qed.

Lemma fill_trailing (s : series) (a t : nat) (va : Q) :
  nth_error s a = Some (Some va) ->
  (forall j, (a < j < length s)%nat -> nth_error s j = Some None) ->
  (a < t < length s)%nat ->
  nth_error (bfill (interpolate s)) t = Some (Some va).
Proof.
  intros Ha Hnone Ht. apply bfill_known.
  rewrite nth_error_interpolate, (Hnone t Ht).
  destruct (known_from_last s 0 a va Ha Hnone) as [l [Hl Hall]].
  unfold known. rewrite Hl. simpl in *.
  rewrite interp_at_skip by (try exact Hall; lia). reflexivity.
Qed.

Lemma interpolate_known (l : list Q) : interpolate (map Some l) = map Some l.
Proof.
  apply nth_error_ext. intros t. rewrite nth_error_interpolate.
  destruct (nth_error (map Some l) t) as [[v |] |] eqn:E; try reflexivity.
  rewrite nth_error_map in E. destruct (nth_error l t); discriminate.
Qed.

Lemma bfill_complete (l : list Q) : bfill (map Some l) = map Some l.
Proof. induction l as [| x l IH]; simpl; [| rewrite IH]; reflexivity. Qed.

End TrailingFacts.

Lemma nth_error_rows_of_frame_inv (a b c d : Pandas.series) (t : nat) (x : option bbox) :
  nth_error (rows_of_frame a b c d) t = Some x ->
  exists x1 x2 x3 x4,
    nth_error a t = Some x1 /\ nth_error b t = Some x2
    /\ nth_error c t = Some x3 /\ nth_error d t = Some x4
    /\ x = box_of_cells x1 x2 x3 x4.
Proof.
  revert b c d t. induction a as [| x1 a IH]; intros b c d t H.
  - destruct t; discriminate.
  - destruct b as [| x2 b]; [destruct t; discriminate |].
    destruct c as [| x3 c]; [destruct t; discriminate |].
    destruct d as [| x4 d]; [destruct t; discriminate |].
    destruct t as [| t]; simpl in H.
    + inversion H. exists x1, x2, x3, x4. repeat split.
    + simpl. apply IH. exact H.
Qed.

Lemma box_of_cells_Some (x1 x2 x3 x4 : option Q) (b : bbox) :
  box_of_cells x1 x2 x3 x4 = Some b ->
  x1 = Some (coord X1 b) /\ x2 = Some (coord Y1 b)
  /\ x3 = Some (coord X2 b) /\ x4 = Some (coord Y2 b).
Proof.
  destruct x1, x2, x3, x4; simpl; try discriminate.
  intros H. inversion H. repeat split.
Qed.

Lemma length_filled_column (ball_positions : list (dict bbox)) (ch : channel) :
  length (filled_column ball_positions ch) = length ball_positions.
Proof.
  unfold filled_column. rewrite length_bfill, length_interpolate, !length_map. reflexivity.
Qed.

(** What an interpolation that ends normally returns. *)
Lemma interpolate_ball_positions_Ok (ball_positions out : list (dict bbox)) :
  interpolate_ball_positions ball_positions = Ok out ->
  length out = length ball_positions
  /\ forall t d,
       nth_error out t = Some d ->
       exists b, d = [(1, b)]
                 /\ forall ch, nth_error (filled_column ball_positions ch) t
                               = Some (Some (coord ch b)).
Proof.
  unfold interpolate_ball_positions. intros H. bind_inv H.
  assert (Hcol : forall ch,
             Pandas.bfill (Pandas.interpolate (Pandas.column ch a))
             = filled_column ball_positions ch).
  { unfold Pandas.DataFrame in Ha. unfold filled_column.
    destruct (map (fun x => get_opt x 1) ball_positions) as [| r rows] eqn:Er.
    - inversion Ha. subst a. intros [| | |]; reflexivity.
    - destruct (forallb Pandas.is_none (r :: rows)); [discriminate |].
      inversion Ha. subst a. intros [| | |]; reflexivity. }
  change (Pandas.x1 a) with (Pandas.column X1 a) in H.
  change (Pandas.y1 a) with (Pandas.column Y1 a) in H.
  change (Pandas.x2 a) with (Pandas.column X2 a) in H.
  change (Pandas.y2 a) with (Pandas.column Y2 a) in H.
  rewrite !Hcol in H.
  destruct (comprehension_nth _ _ _ H) as [Hlen Hnth].
  assert (Hrows : length (rows_of_frame (filled_column ball_positions X1)
                            (filled_column ball_positions Y1)
                            (filled_column ball_positions X2)
                            (filled_column ball_positions Y2))
                  = length ball_positions).
  { rewrite length_rows_of_frame; rewrite ?length_filled_column; reflexivity. }
  split; [rewrite Hlen; exact Hrows |].
  intros t d Hd.
  destruct (nth_error (rows_of_frame (filled_column ball_positions X1)
                         (filled_column ball_positions Y1)
                         (filled_column ball_positions X2)
                         (filled_column ball_positions Y2)) t) as [x |] eqn:Ex.
  - destruct (Hnth t x Ex) as [y [Hy Hf]]. rewrite Hd in Hy. inversion Hy. subst y.
    destruct x as [b |]; [| discriminate]. inversion Hf. subst d.
    exists b. split; [reflexivity |].
    apply nth_error_rows_of_frame_inv in Ex.
    destruct Ex as [x1 [x2 [x3 [x4 [H1 [H2 [H3 [H4 Hb]]]]]]]].
    symmetry in Hb. apply box_of_cells_Some in Hb.
    destruct Hb as [-> [-> [-> ->]]]. intros [| | |]; assumption.
  - apply nth_error_None in Ex.
    assert (Hlt : (t < length out)%nat) by (apply nth_error_Some; congruence).
    lia.
Qed.

Lemma bbox_ext (b b' : bbox) : (forall ch, coord ch b = coord ch b') -> b = b'.
Proof.
  destruct b as [[[x1 y1] x2] y2], b' as [[[x1' y1'] x2'] y2']. intros H.
  pose proof (H X1) as H1. pose proof (H Y1) as H2.
  pose proof (H X2) as H3. pose proof (H Y2) as H4. simpl in *. congruence.
Qed.

(** X13.  On the frames that follow the last detection of the ball the
    interpolation repeats the box of that detection. *)
Theorem interpolate_ball_positions_after_the_last_detection
    (ball_positions out : list (dict bbox)) (a : nat) (last : bbox) :
  interpolate_ball_positions ball_positions = Ok out ->
  detection ball_positions a = Some last ->
  (forall j, (a < j)%nat -> detection ball_positions j = None) ->
  forall t, (a < t < length ball_positions)%nat -> nth_error out t = Some [(1, last)].
Proof.
  intros H Ha Hnone t Ht.
  destruct (interpolate_ball_positions_Ok _ _ H) as [Hlen Hcells].
  destruct (nth_error out t) as [d |] eqn:Ed;
    [| apply nth_error_None in Ed; lia].
  destruct (Hcells t d Ed) as [b [-> Hb]].
  f_equal. f_equal. f_equal. apply bbox_ext. intros ch.
  specialize (Hb ch). unfold filled_column in Hb.
  rewrite (fill_trailing _ a t (coord ch last)) in Hb.
  - inversion Hb. reflexivity.
  - rewrite column_cell by lia. rewrite Ha. reflexivity.
  - rewrite !length_map. intros j Hj. rewrite column_cell by lia.
    rewrite (Hnone j) by lia. reflexivity.
  - rewrite !length_map. exact Ht.
Qed.

Lemma interpolate_ball_positions_after_the_last_detection_witness :
  nth_error [ [(1, box 4 4 6 6)]; [(1, box 8 8 10 10)]; [(1, box 8 8 10 10)] ] 2
  = Some [(1, box 8 8 10 10)].
Proof.
  apply (interpolate_ball_positions_after_the_last_detection
           [ [(1, box 4 4 6 6)]; [(1, box 8 8 10 10)]; [] ]
           [ [(1, box 4 4 6 6)]; [(1, box 8 8 10 10)]; [(1, box 8 8 10 10)] ]
           1 (box 8 8 10 10)).
  - vm_compute. reflexivity.
  - reflexivity.
  - intros [| [| [| [| j]]]] Hj; try lia; reflexivity.
  - simpl. lia.
Defined.

Lemma rows_of_trajectory (l : list bbox) :
  rows_of_frame (map (fun b => Some (coord X1 b)) l) (map (fun b => Some (coord Y1 b)) l)
                (map (fun b => Some (coord X2 b)) l) (map (fun b => Some (coord Y2 b)) l)
  = map Some l.
Proof.
  induction l as [| [[[x1 y1] x2] y2] l IH]; simpl; [| rewrite IH]; reflexivity.
Qed.

Lemma interpolate_ball_positions_complete
    (ball_positions : list (dict bbox)) (trajectory : list bbox) :
  map (fun x => get_opt x 1) ball_positions = map Some trajectory ->
  interpolate_ball_positions ball_positions = Ok (map (fun b => [(1, b)]) trajectory).
Proof.
  intros Hrows. unfold interpolate_ball_positions. rewrite Hrows.
  destruct (DataFrame_of_trajectory trajectory) as [df [Hdf Hcol]].
  rewrite Hdf, bind_ret.
  change (Pandas.x1 df) with (Pandas.column X1 df).
  change (Pandas.y1 df) with (Pandas.column Y1 df).
  change (Pandas.x2 df) with (Pandas.column X2 df).
  change (Pandas.y2 df) with (Pandas.column Y2 df).
  rewrite !Hcol.
  assert (Hfill : forall ch,
             Pandas.bfill (Pandas.interpolate (map (fun b => Some (coord ch b)) trajectory))
             = map (fun b => Some (coord ch b)) trajectory).
  { intros ch. rewrite <- (map_map (coord ch) Some).
    rewrite interpolate_known, bfill_complete. reflexivity. }
  rewrite !Hfill, rows_of_trajectory.
  rewrite <- (map_map Some (fun x : option bbox =>
                              match x with Some b => [(1, b)] | None => [] end)).
  apply comprehension_map. intros x Hx. apply in_map_iff in Hx.
  destruct Hx as [b [<- _]]. reflexivity.
Qed.

(** X14.  A sequence in which the ball is detected on every frame is returned
    as it is, each frame cut down to the key 1; in particular the output of
    [interpolate_ball_positions] is left unchanged by a second pass. *)
Theorem interpolate_ball_positions_keeps_complete_detections :
  (forall (ball_positions : list (dict bbox)) (trajectory : list bbox),
      map (fun x => get_opt x 1) ball_positions = map Some trajectory ->
      interpolate_ball_positions ball_positions = Ok (map (fun b => [(1, b)]) trajectory))
  /\ (forall ball_positions out : list (dict bbox),
        interpolate_ball_positions ball_positions = Ok out ->
        interpolate_ball_positions out = Ok out).
Proof.
  split; [exact interpolate_ball_positions_complete |].
  intros bp out H.
  destruct (interpolate_ball_positions_Ok _ _ H) as [_ Hcells].
  assert (Hout : exists trajectory, out = map (fun b => [(1, b)]) trajectory).
  { assert (Hall : Forall (fun d => exists b, d = [(1, b)]) out).
    { apply Forall_forall. intros d Hd. apply In_nth_error in Hd.
      destruct Hd as [t Ht]. destruct (Hcells t d Ht) as [b [Hb _]]. eauto. }
    clear H Hcells. induction Hall as [| d out [b ->] _ [l ->]].
    - exists []. reflexivity.
    - exists (b :: l). reflexivity. }
  destruct Hout as [trajectory ->].
  apply interpolate_ball_positions_complete.
  rewrite map_map. reflexivity.
Qed.

Lemma interpolate_ball_positions_keeps_complete_detections_witness :
  interpolate_ball_positions
    [ [(1, box 0 0 2 2); (2, box 50 50 60 60)]; [(1, box 4 4 6 6)] ]
  = Ok [ [(1, box 0 0 2 2)]; [(1, box 4 4 6 6)] ].
Proof.
  apply (proj1 interpolate_ball_positions_keeps_complete_detections
           [ [(1, box 0 0 2 2); (2, box 50 50 60 60)]; [(1, box 4 4 6 6)] ]
           [box 0 0 2 2; box 4 4 6 6]).
  reflexivity.
Defined.

Lemma forallb_is_none_true {A : Type} (l : list (option A)) :
  (forall t, (t < length l)%nat -> nth_error l t = Some None) ->
  forallb Pandas.is_none l = true.
Proof.
  induction l as [| x l IH]; intros H; [reflexivity |].
  pose proof (H O ltac:(simpl; lia)) as H0. simpl in H0. inversion H0. subst x.
  simpl. apply IH. intros t Ht. apply (H (S t)). simpl. lia.
Qed.

Lemma DataFrame_without_detection (ball_positions : list (dict bbox)) :
  ball_positions <> [] ->
  (forall t, detection ball_positions t = None) ->
  Pandas.DataFrame (map (fun x => get_opt x 1) ball_positions) = Raise ValueError.
Proof.
  intros Hne Hnone. unfold Pandas.DataFrame.
  destruct (map (fun x => get_opt x 1) ball_positions) as [| r rows] eqn:Er.
  - destruct ball_positions; [contradiction | discriminate].
  - rewrite forallb_is_none_true; [reflexivity |].
    rewrite <- Er. rewrite length_map. intros t Ht.
    rewrite nth_error_detections by exact Ht. rewrite Hnone. reflexivity.
Qed.

(** X15.  Without any frame [interpolate_ball_positions] returns the empty
    list.  With frames of which none has a ball under the key 1 the table of
    the four coordinates cannot be built and the method raises [ValueError]. *)
Theorem interpolate_ball_positions_without_detection :
  interpolate_ball_positions [] = Ok []
  /\ forall ball_positions : list (dict bbox),
       ball_positions <> [] ->
       (forall t, detection ball_positions t = None) ->
       interpolate_ball_positions ball_positions = Raise ValueError.
Proof.
  split; [reflexivity |].
  intros bp Hne Hnone. unfold interpolate_ball_positions.
  rewrite DataFrame_without_detection by assumption. reflexivity.
Qed.

Lemma interpolate_ball_positions_without_detection_witness :
  interpolate_ball_positions [ []; [(2, box 4 4 6 6)]; [] ] = Raise ValueError.
Proof.
  apply (proj2 interpolate_ball_positions_without_detection).
  - discriminate.
  - intros [| [| [| [| t]]]]; reflexivity.
Defined.

Lemma length_rolling_mean (w : nat) (s : Pandas.series) :
  length (Pandas.rolling_mean w s) = length s.
Proof. unfold Pandas.rolling_mean. rewrite length_map, length_seq. reflexivity. Qed.

Lemma length_diff (s : Pandas.series) : length (Pandas.diff s) = length s.
Proof.
  destruct s as [| x s]; [reflexivity |]. simpl.
  rewrite length_map, length_combine. simpl. f_equal. lia.
Qed.

Lemma length_delta_y (rows : list (option bbox)) (df : Pandas.frame) :
  Pandas.DataFrame rows = Ok df -> length (delta_y_of df) = length rows.
Proof.
  unfold Pandas.DataFrame, delta_y_of, Pandas.div_scalar, Pandas.add. intros H.
  rewrite length_diff, length_rolling_mean, !length_map, length_combine.
  destruct rows as [| r rows]; [inversion H; reflexivity |].
  destruct (forallb Pandas.is_none (r :: rows)); [discriminate |].
  inversion H. simpl. rewrite !length_map. lia.
Qed.

(** The shot frames as the marks of the column [ball_hit]. *)
Lemma get_ball_shot_frames_marks (ball_positions : list (dict bbox)) (df : Pandas.frame) :
  Pandas.DataFrame (map (fun x => get_opt x 1) ball_positions) = Ok df ->
  get_ball_shot_frames ball_positions
  = Ok (map fst (filter (fun '(_, h) => h =? 1)
                   (enumerate (fold_left (mark (delta_y_of df))
                                 (range 1 (Z.of_nat (length ball_positions) - lookahead))
                                 (map (fun _ => 0) ball_positions))))).
Proof.
  intros Hdf. unfold get_ball_shot_frames. rewrite Hdf, bind_ret.
  rewrite !length_map, map_map.
  rewrite hit_loop_eq; [reflexivity |].
  intros i Hi. apply in_range in Hi.
  rewrite (length_delta_y _ _ Hdf), length_map. lia.
Qed.

(** X16.  [get_ball_shot_frames] returns on every sequence from which the
    table can be built: no frame at all, or a ball on one frame at least, with
    or without gaps.  The frames it returns are in increasing order and lie
    between 1 and [n - 31] for [n] frames: neither frame 0 nor one of the last
    30 frames is ever a shot, and a sequence of 31 frames or fewer has none.
    When there are frames and none has a ball the method raises
    [ValueError]. *)
Theorem get_ball_shot_frames_range (ball_positions : list (dict bbox)) :
  (ball_positions = [] \/ (exists t b, detection ball_positions t = Some b) ->
   exists frames,
     get_ball_shot_frames ball_positions = Ok frames
     /\ StronglySorted Z.lt (0 :: frames)
     /\ (forall i, In i frames -> 1 <= i <= Z.of_nat (length ball_positions) - 31)
     /\ ((length ball_positions <= 31)%nat -> frames = []))
  /\ (ball_positions <> [] -> (forall t, detection ball_positions t = None) ->
      get_ball_shot_frames ball_positions = Raise ValueError).
Proof.
  split.
  - intros Hbuilt.
    assert (Hdf : exists df,
               Pandas.DataFrame (map (fun x => get_opt x 1) ball_positions) = Ok df).
    { destruct Hbuilt as [-> | [t [b Hd]]]; [eexists; reflexivity |].
      unfold Pandas.DataFrame.
      destruct (map (fun x => get_opt x 1) ball_positions) as [| r rows] eqn:Er;
        [eexists; reflexivity |].
      assert (Hsome : forallb Pandas.is_none (r :: rows) = false).
      { apply forallb_is_none_false. exists t, b. rewrite <- Er.
        rewrite nth_error_detections by (eapply detection_lt; exact Hd).
        rewrite Hd. reflexivity. }
      rewrite Hsome. eexists. reflexivity. }
    destruct Hdf as [df Hdf].
    rewrite (get_ball_shot_frames_marks _ _ Hdf).
    set (ball_hit := fold_left (mark (delta_y_of df))
                       (range 1 (Z.of_nat (length ball_positions) - lookahead))
                       (map (fun _ => 0) ball_positions)).
    set (frames := map fst (filter (fun '(_, h) => h =? 1) (enumerate ball_hit))).
    assert (Hrange : forall i, In i frames ->
                       1 <= i <= Z.of_nat (length ball_positions) - 31).
    { intros i Hi. unfold frames in Hi. apply hit_frames in Hi.
      destruct Hi as [Hi Hn]. unfold ball_hit in Hn. apply fold_mark_hit in Hn.
      destruct Hn as [Hn | [_ [j [Hj [Hk _]]]]].
      - rewrite nth_error_map in Hn.
        destruct (nth_error ball_positions (Z.to_nat i)); discriminate.
      - apply in_range in Hj. unfold lookahead in Hj. lia. }
    exists frames. split; [reflexivity |]. split; [| split].
    + constructor.
      * unfold frames. apply filter_fst_sorted. rewrite map_fst_enumerate.
        apply range_sorted.
      * apply Forall_forall. intros i Hi. apply Hrange in Hi. lia.
    + exact Hrange.
    + intros Hshort. destruct frames as [| i rest]; [reflexivity |].
      specialize (Hrange i (or_introl eq_refl)). lia.
  - intros Hne Hnone. unfold get_ball_shot_frames.
    rewrite DataFrame_without_detection by assumption. reflexivity.
Qed.

Lemma get_ball_shot_frames_range_witness :
  exists frames,
    get_ball_shot_frames [ [(1, box 0 0 2 2)]; []; [(1, box 4 4 6 6)] ] = Ok frames
    /\ StronglySorted Z.lt (0 :: frames)
    /\ (forall i, In i frames -> 1 <= i <= 3 - 31)
    /\ ((3 <= 31)%nat -> frames = []).
Proof.
  apply (proj1 (get_ball_shot_frames_range [ [(1, box 0 0 2 2)]; []; [(1, box 4 4 6 6)] ])).
  right. exists 0%nat, (box 0 0 2 2). reflexivity.
Defined.

(* ================================================================== *)
(** * The rows of the statistics *)
(* ================================================================== *)

Section RowFacts.
Import Main.
Local Open Scope Z_scope.

Lemma nth_error_snapshots (shots done : list shot) (j : nat) (r : snapshot) :
  nth_error (snapshots done shots) j = Some r ->
  (j < length shots)%nat /\ snd r = tally (done ++ firstn (S j) shots).
Proof.
  revert done j. induction shots as [| s shots IH]; intros done j H.
  - destruct j; discriminate.
  - destruct j as [| j]; simpl in H.
    + inversion H. simpl. split; [lia | reflexivity].
    + apply IH in H. destruct H as [Hj Hr]. split; [simpl; lia |].
      rewrite Hr, <- app_assoc. reflexivity.
Qed.

Lemma length_snapshots (done shots : list shot) :
  length (snapshots done shots) = length shots.
Proof.
  revert done. induction shots as [| s shots IH]; intros done; simpl;
    [| rewrite IH]; reflexivity.
Qed.

Lemma shot_counts_add_up (shots : list shot) :
  Forall (fun s => (player_shot_ball s = 1 \/ player_shot_ball s = 2)
                   /\ opponent_player_id s = 3 - player_shot_ball s) shots ->
  shot_count 1 shots + shot_count 2 shots = Z.of_nat (length shots).
Proof.
  unfold shot_count. induction 1 as [| s shots [[Hs | Hs] _] _ IH]; [reflexivity | |];
    cbn [filter]; rewrite Hs.
  - change (1 =? 1) with true. change (1 =? 2) with false.
    cbn [length]. rewrite !Nat2Z.inj_succ. lia.
  - change (2 =? 1) with false. change (2 =? 2) with true.
    cbn [length]. rewrite !Nat2Z.inj_succ. lia.
Qed.

(** X17.  Every pair of consecutive shot frames adds one row to the
    statistics and one shot to one of the two players.  A run that ends
    normally leaves the initial row followed by one row for each shot frame but
    the last, numbered by these frames, and the two numbers of shots of the
    [k]-th row add up to [k]: the last shot frame opens no row and its shot is
    never counted. *)
Theorem one_row_per_shot_interval
    (c : constants) (width : Z) (players ball : list (dict position))
    (ball_shot_frames : list Z) (rows : list snapshot) :
  player_stats_data c width players ball ball_shot_frames = Ok rows ->
  length rows = Nat.max 1 (length ball_shot_frames)
  /\ map fst rows = 0 :: removelast ball_shot_frames
  /\ forall k row,
       nth_error rows k = Some row ->
       number_of_shots (player_1 (snd row)) + number_of_shots (player_2 (snd row))
       = Z.of_nat k.
Proof.
  intros H. apply player_stats_data_rows in H.
  destruct H as [shots [Hmeas [Hvalid ->]]].
  pose proof (measured_frames _ _ _ _ _ _ Hmeas) as Hframes.
  destruct Hmeas as [Hlen _]. split; [| split].
  - cbn [length]. rewrite length_snapshots, Hlen. lia.
  - simpl. rewrite map_fst_snapshots, Hframes, Hlen. f_equal.
    rewrite removelast_firstn_len. f_equal. lia.
  - intros [| j] row Hrow; simpl in Hrow.
    + inversion Hrow. reflexivity.
    + apply nth_error_snapshots in Hrow. destruct Hrow as [Hj ->].
      cbn [app tally player_1 player_2 tally_player number_of_shots].
      rewrite shot_counts_add_up.
      * rewrite length_firstn. lia.
      * apply Forall_forall. intros s Hs. apply In_firstn in Hs.
        eapply Forall_forall in Hvalid; [exact Hvalid | exact Hs].
Qed.

Lemma one_row_per_shot_interval_witness :
  length scenario_rows = Nat.max 1 (length [10; 58])
  /\ map fst scenario_rows = 0 :: removelast [10; 58]
  /\ forall k row,
       nth_error scenario_rows k = Some row ->
       number_of_shots (player_1 (snd row)) + number_of_shots (player_2 (snd row))
       = Z.of_nat k.
Proof.
  apply (one_row_per_shot_interval court_constants 210 (scenario_players 1 2)
           scenario_ball [10; 58] scenario_rows).
  vm_compute. reflexivity.
Defined.

(** X18.  A shot frame that is its own successor gives a shot of no duration:
    [measure_shot] never returns on it, and when the ball position of the frame
    can be read and the distance computed the exception is the
    [ZeroDivisionError] of the division by a time of zero seconds, or that of
    the conversion to meters on a mini court of width zero. *)
Theorem measure_shot_of_no_duration
    (c : constants) (width : Z) (players ball : list (dict position)) (frame : Z) :
  (exists e, measure_shot c width players ball frame frame = Raise e)
  /\ forall p d,
       ball_at ball frame = Ok p -> measure_distance p p = Ok d ->
       measure_shot c width players ball frame frame = Raise ZeroDivisionError.
Proof.
  assert (Hspeed : forall d, speed_kmh c width d (Z_to_float (frame - frame) / 24)
                             = Raise ZeroDivisionError).
  { intros d. unfold speed_kmh, mini_court_meters, convert_pixel_distance_to_meters,
      scalar_div. rewrite Z.sub_diag.
    destruct (PrimFloat.eqb (Z_to_float width) 0); [reflexivity |].
    rewrite bind_ret. reflexivity. }
  split.
  - unfold measure_shot.
    destruct (ball_at ball frame) as [p | e]; [| eexists; reflexivity].
    rewrite !bind_ret.
    destruct (measure_distance p p) as [d | e]; [| eexists; reflexivity].
    rewrite bind_ret, Hspeed. eexists. reflexivity.
  - intros p d Hp Hd. unfold measure_shot.
    rewrite Hp, !bind_ret, Hd, bind_ret, Hspeed. reflexivity.
Qed.

Lemma measure_shot_of_no_duration_witness :
  measure_shot court_constants 210 (scenario_players 1 2) scenario_ball 10 10
  = Raise ZeroDivisionError.
Proof.
  apply (proj2 (measure_shot_of_no_duration court_constants 210 (scenario_players 1 2)
                  scenario_ball 10) (100, 100)%float 0%float).
  - vm_compute. reflexivity.
  - vm_compute. reflexivity.
Defined.

End RowFacts.

(* ================================================================== *)
(** * The detection layer *)
(* ================================================================== *)

Lemma get_opt_set {A : Type} (d : dict A) (k k' : Z) (v : A) :
  get_opt (set d k v) k' = if k' =? k then Some v else get_opt d k'.
Proof.
  induction d as [| [j w] d IH]; simpl.
  - rewrite (Z.eqb_sym k k'). reflexivity.
  - destruct (j =? k) eqn:E; simpl; rewrite ?IH;
      destruct (k' =? k) eqn:E1; destruct (j =? k') eqn:E2;
      try destruct (k =? k') eqn:E3; try reflexivity; exfalso;
      rewrite ?Z.eqb_eq, ?Z.eqb_neq in *; lia.
Qed.

Lemma keys_set_old {A : Type} (d : dict A) (k : Z) (v : A) :
  In k (keys d) -> keys (set d k v) = keys d.
Proof.
  induction d as [| [j w] d IH]; simpl; intros Hin; [contradiction |].
  destruct (j =? k) eqn:E; simpl.
  - apply Z.eqb_eq in E. subst j. reflexivity.
  - f_equal. apply IH. destruct Hin as [Hj | Hin]; [| exact Hin].
    apply Z.eqb_neq in E. contradiction.
Qed.

Lemma NoDup_keys_set {A : Type} (d : dict A) (k : Z) (v : A) :
  NoDup (keys d) -> NoDup (keys (set d k v)).
Proof.
  intros Hnd. destruct (in_dec Z.eq_dec k (keys d)) as [Hin | Hnot].
  - rewrite keys_set_old by exact Hin. exact Hnd.
  - rewrite keys_set_new by exact Hnot.
    apply NoDup_app; [exact Hnd | repeat constructor; intros [] |].
    intros x Hx [Hk | []]. subst x. contradiction.
Qed.

Lemma find_append {A : Type} (p : A -> bool) (l1 l2 : list A) :
  find p (l1 ++ l2) = match find p l1 with Some x => Some x | None => find p l2 end.
Proof.
  induction l1 as [| x l1 IH]; simpl; [reflexivity |].
  destruct (p x); [reflexivity | exact IH].
Qed.

Section PlayerDetect.
Import Detect PlayerTracker.

Lemma box_step_Done (id_name_dict : dict String.string) (acc acc' : dict bbox)
    (box : yolo_box) :
  box_step id_name_dict acc box = Done acc' ->
  box_id box <> None
  /\ (exists name, class_name id_name_dict (cls box) = Done name)
  /\ (NoDup (keys acc) -> NoDup (keys acc'))
  /\ forall k, get_opt acc' k
               = if person_with id_name_dict k box then Some (xyxy box) else get_opt acc k.
Proof.
  unfold box_step, person_with. destruct (box_id box) as [i |]; [| discriminate].
  destruct (class_name id_name_dict (cls box)) as [name | s]; [| discriminate].
  destruct (String.eqb name "person") eqn:E; intros H; inversion H; subst acc'; clear H.
  - split; [discriminate |]. split; [eauto |]. split; [apply NoDup_keys_set |].
    intros k. rewrite get_opt_set, andb_true_r, (Z.eqb_sym k). reflexivity.
  - split; [discriminate |]. split; [eauto |]. split; [auto |].
    intros k. rewrite andb_false_r. reflexivity.
Qed.

Lemma box_loop_Done (id_name_dict : dict String.string) (l : list yolo_box)
    (acc out : dict bbox) :
  each (box_step id_name_dict) l acc = Done out ->
  Forall (fun box => box_id box <> None
                     /\ exists name, class_name id_name_dict (cls box) = Done name) l
  /\ (NoDup (keys acc) -> NoDup (keys out))
  /\ forall k, get_opt out k
               = match find (person_with id_name_dict k) (rev l) with
                 | Some box => Some (xyxy box)
                 | None => get_opt acc k
                 end.
Proof.
  revert acc. induction l as [| box l IH]; intros acc H; simpl in H.
  - inversion H. subst out. split; [constructor |]. split; [auto |]. reflexivity.
  - destruct (box_step id_name_dict acc box) as [acc' |] eqn:E; [| discriminate].
    apply box_step_Done in E. destruct E as [Hid [Hname [Hnd Hget]]].
    destruct (IH _ H) as [Hall [Hnd' Hget']].
    split; [constructor; [split; assumption | exact Hall] |].
    split; [auto |].
    intros k. rewrite Hget'. simpl. rewrite find_append.
    destruct (find (person_with id_name_dict k) (rev l)); [reflexivity |].
    simpl. rewrite Hget. destruct (person_with id_name_dict k box); reflexivity.
Qed.

(** X19.  When [PlayerTracker.detect_frame] returns, every box of the frame,
    person or not, had a track identity and a class with a name.
    The dictionary holds exactly the track identities of the persons, each
    once, with the box of the last detection of the frame that carries the
    identity. *)
Theorem player_dict_of_spec (results : yolo_results) (player_dict : dict bbox) :
  player_dict_of results = Done player_dict ->
  Forall (fun box => box_id box <> None
                     /\ exists name, class_name (names results) (cls box) = Done name)
         (boxes results)
  /\ NoDup (keys player_dict)
  /\ forall track_id,
       get player_dict track_id
       = match find (person_with (names results) track_id) (rev (boxes results)) with
         | Some box => Ok (xyxy box)
         | None => Raise KeyError
         end.
Proof.
  unfold player_dict_of. intros H. apply box_loop_Done in H.
  destruct H as [Hall [Hnd Hget]]. split; [exact Hall |].
  split; [apply Hnd; constructor |].
  intros k. unfold get. rewrite Hget.
  destruct (find _ _); reflexivity.
Qed.

End PlayerDetect.

Lemma player_dict_of_spec_witness :
  get [(1, box 92 100 112 200); (2, box 290 700 310 800)] 1 = Ok (box 92 100 112 200)
  /\ get [(1, box 92 100 112 200); (2, box 290 700 310 800)] 3 = Raise KeyError.
Proof.
  destruct (player_dict_of_spec results_two_persons
              [(1, box 92 100 112 200); (2, box 290 700 310 800)]
              ltac:(vm_compute; reflexivity)) as [_ [_ Hget]].
  split; [rewrite (Hget 1) | rewrite (Hget 3)]; reflexivity.
Defined.

Section BallDetect.
Import Detect BallTracker.

Lemma ball_fold (l : list yolo_box) (acc : dict bbox) :
  (acc = [] \/ exists b, acc = [(1, b)]) ->
  fold_left (fun ball_dict box => set ball_dict 1 (xyxy box)) l acc
  = match rev l with
    | [] => acc
    | box :: _ => [(1, xyxy box)]
    end.
Proof.
  revert acc. induction l as [| box l IH]; intros acc Hacc; [reflexivity |].
  simpl. rewrite IH.
  - destruct (rev l) as [| last rest]; [| reflexivity].
    destruct Hacc as [-> | [b ->]]; reflexivity.
  - right. destruct Hacc as [-> | [b ->]]; eexists; reflexivity.
Qed.

(** X20.  [BallTracker.detect_frame] keeps one ball per frame: no entry when
    the model returns no box, and otherwise the last box that the model
    returns, under the key 1, whatever the number of boxes; the detection
    changes neither the tracker nor the stubs. *)
Theorem ball_detect_frame_keeps_the_last_box
    (image tracker : Type) (predict : image -> yolo_results) (frame : image)
    (w : world tracker) :
  detect_frame image tracker predict frame w
  = (Done match rev (boxes (predict frame)) with
          | [] => []
          | box :: _ => [(1, xyxy box)]
          end, w).
Proof.
  unfold detect_frame, ret, ball_dict_of. rewrite ball_fold; [reflexivity |].
  left. reflexivity.
Qed.

End BallDetect.

Section StubFacts.
Import Detect.

Lemma read_write (fs : files) (path : String.string) (content : list (dict bbox)) :
  read (write fs path content) path = Some content.
Proof.
  induction fs as [| [p old] fs IH]; simpl.
  - rewrite String.eqb_refl. reflexivity.
  - destruct (String.eqb p path) eqn:E; simpl; rewrite E; [reflexivity | exact IH].
Qed.

Lemma detect_each_Done {tracker image : Type} (detect_frame : image -> io tracker (dict bbox))
    (frames : list image) (acc out : list (dict bbox)) (w w' : world tracker) :
  detect_each detect_frame frames acc w = (Done out, w') ->
  length out = (length acc + length frames)%nat.
Proof.
  revert acc w. induction frames as [| frame frames IH]; intros acc w H; simpl in H.
  - unfold ret in H. inversion H. subst. simpl. lia.
  - unfold bind in H. destruct (detect_frame frame w) as [[d | s] w1]; [| discriminate].
    apply IH in H. rewrite H, length_app. simpl. lia.
Qed.

Lemma detect_frames_with_round_trip {tracker image : Type}
    (detect_frame : image -> io tracker (dict bbox))
    (frames : list image) (read_from_stub : bool) (path : String.string)
    (w w' : world tracker) (detections : list (dict bbox)) :
  detect_frames_with detect_frame frames read_from_stub (Some path) w
  = (Done detections, w') ->
  read (disk w') path = Some detections
  /\ (read_from_stub = false -> length detections = length frames).
Proof.
  unfold detect_frames_with. destruct read_from_stub.
  - unfold load. destruct (read (disk w) path) as [content |] eqn:E; [| discriminate].
    intros H. inversion H. subst. split; [exact E | discriminate].
  - unfold bind at 1. destruct (detect_each detect_frame frames [] w) as [[dets | s] w1] eqn:E;
      [| discriminate].
    unfold bind, dump, ret. intros H. inversion H. subst. simpl.
    split; [apply read_write |]. intros _. apply detect_each_Done in E. exact E.
Qed.

(** X21.  [detect_frames] of the two trackers writes what it has detected into
    the stub and reads it back as it is.  A call that detects and is given a
    stub path returns one dictionary per frame; after it, a call that reads the
    same stub, by either tracker and on any list of frames, returns the same
    detections and changes nothing: the frames it is given are not looked at
    and the model is not run, so that the result need not have the length of
    the video. *)
Theorem detect_frames_stub_round_trip
    (image tracker : Type) (track : tracker -> image -> yolo_results * tracker)
    (predict : image -> yolo_results)
    (frames : list image) (path : String.string) (w w' : world tracker)
    (detections : list (dict bbox)) :
  PlayerTracker.detect_frames image tracker track frames false (Some path) w
  = (Done detections, w')
  \/ BallTracker.detect_frames image tracker predict frames false (Some path) w
     = (Done detections, w') ->
  length detections = length frames
  /\ forall other_frames : list image,
       PlayerTracker.detect_frames image tracker track other_frames true (Some path) w'
       = (Done detections, w')
       /\ BallTracker.detect_frames image tracker predict other_frames true (Some path) w'
          = (Done detections, w').
Proof.
  unfold PlayerTracker.detect_frames, BallTracker.detect_frames.
  intros H.
  assert (Hread : read (disk w') path = Some detections
                  /\ length detections = length frames).
  { destruct H as [H | H]; apply detect_frames_with_round_trip in H;
      destruct H as [Hr Hl]; split; auto. }
  destruct Hread as [Hr Hl]. split; [exact Hl |].
  intros other. unfold detect_frames_with, load. rewrite Hr. split; reflexivity.
Qed.

End StubFacts.

Lemma detect_frames_stub_round_trip_witness :
  length [example_player_dict; example_player_dict] = length [tt; tt]
  /\ forall other_frames : list unit,
       PlayerTracker.detect_frames unit unit example_track other_frames true
         (Some "players.pkl"%string) world_with_stub
       = (Detect.Done [example_player_dict; example_player_dict], world_with_stub)
       /\ BallTracker.detect_frames unit unit example_predict other_frames true
            (Some "players.pkl"%string) world_with_stub
          = (Detect.Done [example_player_dict; example_player_dict], world_with_stub).
Proof.
  apply (detect_frames_stub_round_trip unit unit example_track example_predict
           [tt; tt] "players.pkl"%string empty_world world_with_stub
           [example_player_dict; example_player_dict]).
  left. vm_compute. reflexivity.
Defined.

(* ================================================================== *)
(** * The drawing layer *)
(* ================================================================== *)

Section CanvasFacts.
Import Canvas.

Lemma length_update (st : store) (f : frame) (g : canvas -> canvas) :
  length (update st f g) = length st.
Proof.
  revert f. induction st as [| cv st IH]; intros f; [reflexivity |].
  destruct f; simpl; [| rewrite IH]; reflexivity.
Qed.

Lemma nth_error_update (st : store) (f h : frame) (g : canvas -> canvas) :
  nth_error (update st f g) h
  = if Nat.eqb h f then option_map g (nth_error st f) else nth_error st h.
Proof.
  revert f h. induction st as [| cv st IH]; intros f h.
  - simpl. destruct (Nat.eqb h f); destruct f, h; reflexivity.
  - destruct f as [| f]; destruct h as [| h]; simpl; try reflexivity.
    apply IH.
Qed.

Lemma paint_all_app (f : frame) (a b : list command) (st : store) :
  paint_all f (a ++ b) st = paint_all f b (paint_all f a st).
Proof. unfold paint_all. apply fold_left_app. Qed.

Lemma length_paint_all (f : frame) (cmds : list command) (st : store) :
  length (paint_all f cmds st) = length st.
Proof.
  unfold paint_all. revert st. induction cmds as [| cmd cmds IH]; intros st; [reflexivity |].
  simpl. rewrite IH. apply length_update.
Qed.

Lemma nth_error_paint_all (f h : frame) (cmds : list command) (st : store) :
  nth_error (paint_all f cmds st) h
  = if Nat.eqb h f then option_map (fun cv => cv ++ cmds) (nth_error st f)
    else nth_error st h.
Proof.
  unfold paint_all. revert st. induction cmds as [| cmd cmds IH]; intros st; simpl.
  - destruct (Nat.eqb h f) eqn:E; [| reflexivity].
    apply Nat.eqb_eq in E. subst h.
    destruct (nth_error st f); simpl; [rewrite app_nil_r |]; reflexivity.
  - rewrite IH. unfold paint. rewrite !nth_error_update, Nat.eqb_refl.
    destruct (Nat.eqb h f); [| reflexivity].
    destruct (nth_error st f); simpl; [rewrite <- app_assoc |]; reflexivity.
Qed.

Lemma length_paint_frames (l : list (frame * list command)) (st : store) :
  length (paint_frames l st) = length st.
Proof.
  unfold paint_frames. revert st. induction l as [| pair l IH]; intros st; [reflexivity |].
  simpl. rewrite IH. apply length_paint_all.
Qed.

Lemma paint_frames_other (l : list (frame * list command)) (st : store) (h : frame) :
  ~ In h (map fst l) -> nth_error (paint_frames l st) h = nth_error st h.
Proof.
  unfold paint_frames. revert st. induction l as [| [f cmds] l IH]; intros st Hh;
    [reflexivity |].
  simpl in *. rewrite IH by tauto. rewrite nth_error_paint_all.
  destruct (Nat.eqb h f) eqn:E; [| reflexivity].
  apply Nat.eqb_eq in E. subst h. tauto.
Qed.

Lemma paint_frames_one (l : list (frame * list command)) (st : store)
    (f : frame) (cmds : list command) :
  NoDup (map fst l) -> In (f, cmds) l ->
  nth_error (paint_frames l st) f = option_map (fun cv => cv ++ cmds) (nth_error st f).
Proof.
  revert st. induction l as [| [g cmds'] l IH]; intros st Hnd Hin; [contradiction |].
  simpl in Hnd. inversion Hnd as [| ? ? Hnot Hnd']. subst.
  unfold paint_frames in *. simpl. destruct Hin as [Heq | Hin].
  - inversion Heq. subst g cmds'.
    fold (paint_frames l (paint_all f cmds st)).
    rewrite paint_frames_other by exact Hnot.
    rewrite nth_error_paint_all, Nat.eqb_refl. reflexivity.
  - rewrite IH by assumption. rewrite nth_error_paint_all.
    destruct (Nat.eqb f g) eqn:E; [| reflexivity].
    apply Nat.eqb_eq in E. subst g. exfalso. apply Hnot.
    apply in_map_iff. exists (f, cmds). split; [reflexivity | exact Hin].
Qed.

Lemma draw_items (prefix : String.string) (color : colour) (fr : frame)
    (l : list (Z * bbox)) (st : store) :
  fold_left (draw_bbox prefix color fr) l st
  = paint_all fr (flat_map (bbox_commands prefix color) l) st.
Proof.
  revert st. induction l as [| item l IH]; intros st; [reflexivity |].
  simpl. rewrite IH, paint_all_app. reflexivity.
Qed.

Lemma draw_bboxes_loop (prefix : String.string) (color : colour)
    (l : list (frame * dict bbox)) (acc : list frame) (st : store) :
  fold_left
    (fun acc pair =>
       let '(output_video_frames, st) := acc in
       let '(fr, player_dict) := pair in
       (output_video_frames ++ [fr],
        fold_left (draw_bbox prefix color fr) (items player_dict) st))
    l (acc, st)
  = (acc ++ map fst l,
     paint_frames (map (fun pair => (fst pair,
                                     flat_map (bbox_commands prefix color) (items (snd pair))))
                       l) st).
Proof.
  revert acc st. induction l as [| [fr d] l IH]; intros acc st.
  - simpl. rewrite app_nil_r. reflexivity.
  - simpl. rewrite IH, draw_items, <- app_assoc. reflexivity.
Qed.

Lemma map_fst_combine {A B : Type} (a : list A) (b : list B) :
  map fst (combine a b) = firstn (length b) a.
Proof.
  revert b. induction a as [| x a IH]; intros b.
  - destruct b; reflexivity.
  - destruct b as [| y b]; [reflexivity |]. simpl. rewrite IH. reflexivity.
Qed.

Lemma nth_error_combine {A B : Type} (a : list A) (b : list B) (t : nat) (x : A) (y : B) :
  nth_error a t = Some x -> nth_error b t = Some y ->
  nth_error (combine a b) t = Some (x, y).
Proof.
  revert b t. induction a as [| x' a IH]; intros b t Ha Hb.
  - destruct t; discriminate.
  - destruct b as [| y' b]; [destruct t; discriminate |].
    destruct t as [| t]; simpl in *; [congruence | apply IH; assumption].
Qed.

(** X23.  [draw_bboxes] of the two trackers draws in place and follows the
    shorter of its two lists.  The frames it returns are the arrays it was
    given, cut to the number of detections: the frames beyond the detections
    are left out of the result.  No array is created; an array that is not
    returned is unchanged; when the frames are distinct arrays, the array of
    frame [t] has received, after what it held, a text and a rectangle for
    each entry of the detections of frame [t], in the order of the
    dictionary. *)
Theorem draw_bboxes_draws_in_place
    (prefix : String.string) (color : colour)
    (video_frames : list frame) (detections : list (dict bbox)) (st : store) :
  fst (draw_bboxes_with prefix color video_frames detections st)
  = firstn (length detections) video_frames
  /\ length (snd (draw_bboxes_with prefix color video_frames detections st)) = length st
  /\ (forall f,
        ~ In f (firstn (length detections) video_frames) ->
        nth_error (snd (draw_bboxes_with prefix color video_frames detections st)) f
        = nth_error st f)
  /\ (NoDup video_frames ->
      forall t f d,
        nth_error video_frames t = Some f -> nth_error detections t = Some d ->
        nth_error (snd (draw_bboxes_with prefix color video_frames detections st)) f
        = option_map (fun cv => cv ++ flat_map (bbox_commands prefix color) (items d))
                     (nth_error st f)).
Proof.
  unfold draw_bboxes_with, zip. rewrite draw_bboxes_loop. cbn [fst snd app].
  split; [apply map_fst_combine |].
  split; [apply length_paint_frames |].
  split.
  - intros f Hf. apply paint_frames_other.
    rewrite map_map. cbn [fst]. rewrite map_fst_combine. exact Hf.
  - intros Hnd t f d Hf Hd.
    apply (paint_frames_one _ st f (flat_map (bbox_commands prefix color) (items d))).
    + rewrite map_map. cbn [fst]. rewrite map_fst_combine.
      rewrite <- (firstn_skipn (length detections) video_frames) in Hnd.
      apply NoDup_app_remove_r in Hnd. exact Hnd.
    + apply in_map_iff. exists (f, d). split; [reflexivity |].
      eapply nth_error_In. apply nth_error_combine; eassumption.
Qed.

Lemma draw_bboxes_draws_in_place_witness :
  nth_error (snd (PlayerTrackerDrawing.draw_bboxes [0%nat; 1%nat; 2%nat]
                    [example_player_dict; []] [[]; []; []])) 0
  = option_map (fun cv => cv ++ flat_map (bbox_commands "Player ID: "%string (0, 0, 255))
                                   (items example_player_dict))
               (nth_error [[]; []; []] 0).
Proof.
  apply (proj2 (proj2 (proj2 (draw_bboxes_draws_in_place "Player ID: "%string (0, 0, 255)
                                [0%nat; 1%nat; 2%nat] [example_player_dict; []]
                                [[]; []; []])))
           ltac:(repeat constructor; simpl; intuition discriminate)
           0%nat 0%nat example_player_dict eq_refl eq_refl).
Defined.

Section PointsFacts.
Import MiniCourtDrawing.
Variable postions : list (dict point).
Variable color : colour.

(** The loop of [draw_points_on_mini_court] on frames numbered from [s]. *)
Let loop_from (s : nat) (frames : list frame) (st : store) : result unit * store :=
  draw_points_loop postions color (combine (map Z.of_nat (seq s (length frames))) frames) st.

Lemma length_draw_points (fr : frame) (l : list (Z * point)) (st : store) :
  length (fold_left (draw_point color fr) l st) = length st.
Proof.
  revert st. induction l as [| [k [x y]] l IH]; intros st; [reflexivity |].
  simpl. rewrite IH. apply length_update.
Qed.

Lemma points_step_Ok (s : nat) (fr : frame) (st : store) :
  (s < length postions)%nat ->
  exists st', points_step postions color st (Z.of_nat s, fr) = Ok st'
              /\ length st' = length st.
Proof.
  intros Hs. unfold points_step.
  destruct (index_in_bounds postions (Z.of_nat s)) as [d Hd]; [lia |].
  rewrite Hd, bind_ret. eexists. split; [reflexivity | apply length_draw_points].
Qed.

Lemma points_step_Raise (s : nat) (fr : frame) (st : store) :
  (length postions <= s)%nat ->
  points_step postions color st (Z.of_nat s, fr) = Raise IndexError.
Proof.
  intros Hs. unfold points_step. rewrite index_out_of_bounds by lia. reflexivity.
Qed.

Lemma loop_from_enough (frames : list frame) (s : nat) (st : store) :
  (s + length frames <= length postions)%nat ->
  exists st', loop_from s frames st = (Ok tt, st') /\ length st' = length st.
Proof.
  unfold loop_from. revert s st. induction frames as [| fr frames IH]; intros s st Hs.
  - simpl. eauto.
  - cbn [length] in Hs. cbn [length seq map combine draw_points_loop].
    destruct (points_step_Ok s fr st ltac:(lia)) as [st1 [H1 Hl1]].
    rewrite H1. destruct (IH (S s) st1 ltac:(lia)) as [st' [H Hl]].
    exists st'. split; [exact H | congruence].
Qed.

Lemma loop_from_short (frames : list frame) (s : nat) (st : store) :
  (s <= length postions < s + length frames)%nat ->
  loop_from s frames st
  = (Raise IndexError, snd (loop_from s (firstn (length postions - s) frames) st)).
Proof.
  unfold loop_from. revert s st. induction frames as [| fr frames IH]; intros s st Hs.
  - simpl in Hs. lia.
  - cbn [length] in Hs. destruct (Nat.eq_dec s (length postions)) as [-> | Hne].
    + rewrite Nat.sub_diag. cbn [firstn length seq map combine draw_points_loop snd].
      rewrite points_step_Raise by lia. reflexivity.
    + replace (length postions - s)%nat with (S (length postions - S s)) by lia.
      cbn [firstn length seq map combine draw_points_loop].
      destruct (points_step_Ok s fr st ltac:(lia)) as [st1 [H1 _]].
      rewrite H1. apply IH. lia.
Qed.

Lemma enumerate_from_zero (frames : list frame) :
  enumerate frames = combine (map Z.of_nat (seq 0 (length frames))) frames.
Proof. unfold enumerate, range. rewrite Z.sub_0_r, Nat2Z.id. reflexivity. Qed.

(** X24.  [draw_points_on_mini_court] reads the positions of every frame by
    its number.  With as many positions as frames, or more, it returns the list
    of frames it was given.  With fewer it raises [IndexError], after it has
    drawn on the frames that have positions: the arrays are then as the call
    on these frames alone leaves them.  It creates no array. *)
Theorem draw_points_on_mini_court_needs_positions (frames : list frame) (st : store) :
  ((length frames <= length postions)%nat ->
   fst (draw_points_on_mini_court frames postions color st) = Ok frames)
  /\ ((length postions < length frames)%nat ->
      draw_points_on_mini_court frames postions color st
      = (Raise IndexError,
         snd (draw_points_on_mini_court (firstn (length postions) frames)
                postions color st)))
  /\ length (snd (draw_points_on_mini_court frames postions color st)) = length st.
Proof.
  unfold draw_points_on_mini_court. rewrite !enumerate_from_zero.
  fold (loop_from 0 frames st).
  fold (loop_from 0 (firstn (length postions) frames) st).
  assert (Hprefix : forall l, (length l <= length postions)%nat ->
                      exists st', loop_from 0 l st = (Ok tt, st') /\ length st' = length st).
  { intros l Hl. apply loop_from_enough. simpl. exact Hl. }
  split; [| split].
  - intros Hle. destruct (Hprefix frames Hle) as [st' [-> _]]. reflexivity.
  - intros Hlt. rewrite (loop_from_short frames 0 st) by lia.
    rewrite Nat.sub_0_r.
    destruct (Hprefix (firstn (length postions) frames)) as [st' [-> _]];
      [rewrite length_firstn; lia | reflexivity].
  - destruct (Nat.le_gt_cases (length frames) (length postions)) as [Hle | Hlt].
    + destruct (Hprefix frames Hle) as [st' [-> Hl]]. exact Hl.
    + rewrite (loop_from_short frames 0 st) by lia. rewrite Nat.sub_0_r.
      destruct (Hprefix (firstn (length postions) frames)) as [st' [-> Hl]];
        [rewrite length_firstn; lia | exact Hl].
Qed.

End PointsFacts.

Lemma draw_points_on_mini_court_needs_positions_witness :
  MiniCourtDrawing.draw_points_on_mini_court [0%nat; 1%nat]
    [[(1, (100 # 1, 200 # 1))]] (0, 255, 0) [[]; []]
  = (Raise IndexError,
     snd (MiniCourtDrawing.draw_points_on_mini_court
            (firstn (length [[(1, (100 # 1, 200 # 1))]]) [0%nat; 1%nat])
            [[(1, (100 # 1, 200 # 1))]] (0, 255, 0) [[]; []])).
Proof.
  apply (proj1 (proj2 (draw_points_on_mini_court_needs_positions
                         [[(1, (100 # 1, 200 # 1))]] (0, 255, 0) [0%nat; 1%nat] [[]; []]))).
  simpl. lia.
Defined.

Section CourtFacts.
Import MiniCourtDrawing.
Variable mc : mini_court.

Lemma paint_all_snoc (f : frame) (cmds : list command) (cmd : command) (st : store) :
  paint f cmd (paint_all f cmds st) = paint_all f (cmds ++ [cmd]) st.
Proof. rewrite paint_all_app. reflexivity. Qed.

Lemma key_point_loop (fr : frame) (l : list Z) (st : store) :
  Forall (fun i => 0 <= i /\ i + 1 < Z.of_nat (length (drawing_key_points mc))) l ->
  exists cmds,
    length cmds = length l
    /\ for_each (key_point_step mc fr) l st = Ok (paint_all fr cmds st).
Proof.
  revert st. induction l as [| i l IH]; intros st Hall.
  - exists []. split; reflexivity.
  - inversion Hall as [| ? ? Hi Hl]. subst. cbn [for_each]. unfold key_point_step at 1.
    destruct (index_in_bounds (drawing_key_points mc) i) as [kx ->]; [lia |].
    destruct (index_in_bounds (drawing_key_points mc) (i + 1)) as [ky ->]; [lia |].
    rewrite !bind_ret.
    destruct (IH (paint fr (Circle (Qtrunc kx, Qtrunc ky) 5 (0, 0, 255) (-1)) st) Hl)
      as [cmds [Hlen ->]].
    exists (Circle (Qtrunc kx, Qtrunc ky) 5 (0, 0, 255) (-1) :: cmds).
    split; [simpl; congruence | reflexivity].
Qed.

Lemma line_loop (fr : frame) (l : list (Z * Z)) (st : store) :
  Forall (fun line => 0 <= fst line /\ 0 <= snd line
                      /\ fst line * 2 + 1 < Z.of_nat (length (drawing_key_points mc))
                      /\ snd line * 2 + 1 < Z.of_nat (length (drawing_key_points mc))) l ->
  exists cmds,
    length cmds = length l
    /\ for_each (line_step mc fr) l st = Ok (paint_all fr cmds st).
Proof.
  revert st. induction l as [| line l IH]; intros st Hall.
  - exists []. split; reflexivity.
  - inversion Hall as [| ? ? Hi Hl]. subst. cbn [for_each]. unfold line_step at 1.
    destruct (index_in_bounds (drawing_key_points mc) (fst line * 2)) as [sx ->]; [lia |].
    destruct (index_in_bounds (drawing_key_points mc) (fst line * 2 + 1)) as [sy ->]; [lia |].
    destruct (index_in_bounds (drawing_key_points mc) (snd line * 2)) as [ex ->]; [lia |].
    destruct (index_in_bounds (drawing_key_points mc) (snd line * 2 + 1)) as [ey ->]; [lia |].
    rewrite !bind_ret.
    destruct (IH (paint fr (Line (Qtrunc sx, Qtrunc sy) (Qtrunc ex, Qtrunc ey) (0, 0, 0) 2) st)
                Hl) as [cmds [Hlen ->]].
    exists (Line (Qtrunc sx, Qtrunc sy) (Qtrunc ex, Qtrunc ey) (0, 0, 0) 2 :: cmds).
    split; [simpl; congruence | reflexivity].
Qed.

End CourtFacts.

Lemma as_int_inject_Z (z : Z) : as_int (inject_Z z) = Ok z.
Proof.
  unfold as_int, Qtrunc. simpl. rewrite Z.quot_1_r.
  rewrite (proj2 (Qeq_bool_iff _ _)) by reflexivity. reflexivity.
Qed.

(** What [draw_court] needs of a mini court, and what the constructor gives. *)
Lemma MiniCourt_key_points (c : constants) (frame_width : Z) (mc : mini_court) :
  MiniCourt c frame_width = Ok mc ->
  length (drawing_key_points mc) = 28%nat
  /\ lines mc = court_lines
  /\ (start_x mc, start_y mc, end_x mc, end_y mc)
     = (frame_width - 300, 50, frame_width - 50, 550)
  /\ exists x0 x2,
       index (drawing_key_points mc) 0 = Ok (inject_Z x0)
       /\ index (drawing_key_points mc) 2 = Ok (inject_Z x2).
Proof.
  unfold MiniCourt, set_court_drawing_key_points, meters_to_pixels,
    convert_meters_to_pixel_distance, py_div.
  destruct (Qeq_bool (DOUBLE_LINE_WIDTH c) 0); [discriminate |].
  cbn [Py.bind]. intros H. inversion H. subst mc. clear H.
  cbn [drawing_key_points lines start_x start_y end_x end_y length].
  unfold canvas_end_x, canvas_end_y, canvas_start_x, canvas_start_y.
  split; [reflexivity |]. split; [reflexivity |].
  split; [apply f_equal2; [apply f_equal2; [apply f_equal2 |] |]; lia |].
  eexists. eexists. split; reflexivity.
Qed.

Lemma draw_court_on_court (c : constants) (frame_width : Z) (mc : mini_court)
    (fr : frame) (st : store) :
  MiniCourt c frame_width = Ok mc ->
  exists cmds,
    length cmds = 24%nat
    /\ MiniCourtDrawing.draw_court mc fr st = Ok (fr, paint_all fr cmds st).
Proof.
  intros Hmc. apply MiniCourt_key_points in Hmc.
  destruct Hmc as [Hlen [Hlines [_ [x0 [x2 [H0 H2]]]]]].
  unfold MiniCourtDrawing.draw_court.
  destruct (key_point_loop mc fr (range2 0 (Z.of_nat (length (drawing_key_points mc)))) st)
    as [circles [Hc ->]].
  { rewrite Hlen. repeat (constructor; [simpl; lia |]). constructor. }
  rewrite bind_ret.
  destruct (line_loop mc fr (lines mc) (paint_all fr circles st)) as [segments [Hs ->]].
  { rewrite Hlines, Hlen. repeat (constructor; [simpl; lia |]). constructor. }
  rewrite bind_ret, H0, bind_ret.
  destruct (index_in_bounds (drawing_key_points mc) 1) as [k1 ->]; [lia |].
  destruct (index_in_bounds (drawing_key_points mc) 5) as [k5 ->]; [lia |].
  rewrite !bind_ret, H2, !bind_ret, !as_int_inject_Z, !bind_ret.
  rewrite <- paint_all_app, paint_all_snoc.
  eexists. split; [| reflexivity].
  rewrite !length_app, Hc, Hs, Hlen, Hlines. reflexivity.
Qed.

Lemma paint_all_last (st : store) (cv : canvas) (cmds : list command) :
  paint_all (length st) cmds (st ++ [cv]) = st ++ [cv ++ cmds].
Proof.
  apply nth_error_ext. intros h. rewrite nth_error_paint_all.
  destruct (Nat.eqb h (length st)) eqn:E.
  - apply Nat.eqb_eq in E. subst h.
    rewrite !nth_error_app2 by lia. rewrite Nat.sub_diag. reflexivity.
  - reflexivity || (apply Nat.eqb_neq in E;
      destruct (Nat.lt_ge_cases h (length st)) as [Hlt | Hge];
      [rewrite !nth_error_app1 by lia; reflexivity |
       rewrite !nth_error_app2 by lia;
       destruct (h - length st)%nat as [| k] eqn:Ek; [lia | destruct k; reflexivity]]).
Qed.

Lemma draw_mini_court_loop (c : constants) (frame_width : Z) (mc : mini_court)
    (frames : list frame) (acc : list frame) (st : store) :
  MiniCourt c frame_width = Ok mc ->
  exists news,
    for_each (MiniCourtDrawing.mini_court_step mc) frames (acc, st)
    = Ok (acc ++ seq (length st) (length frames), st ++ news)
    /\ length news = length frames
    /\ forall t f, nth_error frames t = Some f ->
         exists drawn,
           length drawn = 24%nat
           /\ nth_error news t
              = Some (nth f (st ++ firstn t news) []
                      ++ Blend (start_x mc, start_y mc) (end_x mc, end_y mc) (1 # 2) :: drawn).
Proof.
  intros Hmc. revert acc st. induction frames as [| f frames IH]; intros acc st.
  - exists []. rewrite !app_nil_r. split; [reflexivity |]. split; [reflexivity |].
    intros [| t] g Hg; discriminate.
  - cbn [for_each]. unfold MiniCourtDrawing.mini_court_step at 1.
    unfold MiniCourtDrawing.draw_background_rectangle, copy_with.
    destruct (draw_court_on_court c frame_width mc (length st)
                (st ++ [nth f st [] ++ [Blend (start_x mc, start_y mc)
                                              (end_x mc, end_y mc) (1 # 2)]]) Hmc)
      as [cmds [Hlen Hdraw]].
    rewrite Hdraw, !bind_ret, paint_all_last, <- app_assoc. cbn [app].
    match goal with |- context [(_, st ++ [?x])] => set (cv := x) end.
    destruct (IH (acc ++ [length st]) (st ++ [cv])) as [news [Hrun [Hn Hcells]]].
    exists (cv :: news). split; [| split].
    + etransitivity; [exact Hrun |].
      rewrite <- !app_assoc, length_app. cbn [length app seq].
      replace (length st + 1)%nat with (S (length st)) by lia. reflexivity.
    + simpl. congruence.
    + intros [| t] g Hg; simpl in Hg.
      * inversion Hg. subst g. exists cmds. split; [exact Hlen |].
        cbn [firstn nth_error]. rewrite app_nil_r. reflexivity.
      * destruct (Hcells t g Hg) as [drawn [Hd Hcell]].
        exists drawn. split; [exact Hd |].
        cbn [firstn nth_error]. rewrite Hcell, <- app_assoc. reflexivity.
Qed.

(** X25.  [draw_mini_court] does not draw on the frames it is given.  On a
    mini court that the constructor has built it never raises: for every frame
    it creates an array, the copy of the frame with the background rectangle
    mixed in, draws the court on the copy with 24 calls (a disc on each of the
    14 key points, the 9 lines and the net) and returns the copies in the
    order of the frames.  The arrays that existed are unchanged. *)
Theorem draw_mini_court_copies_the_frames
    (c : constants) (frame_width : Z) (mc : mini_court) (frames : list frame) (st : store) :
  MiniCourt c frame_width = Ok mc ->
  Forall (fun f => (f < length st)%nat) frames ->
  exists out st',
    MiniCourtDrawing.draw_mini_court mc frames st = Ok (out, st')
    /\ out = seq (length st) (length frames)
    /\ firstn (length st) st' = st
    /\ length st' = (length st + length frames)%nat
    /\ forall t f,
         nth_error frames t = Some f ->
         exists drawn,
           length drawn = 24%nat
           /\ nth_error st' (length st + t)
              = Some (nth f st []
                      ++ Blend (frame_width - 300, 50) (frame_width - 50, 550) (1 # 2)
                         :: drawn).
Proof.
  intros Hmc Hframes. unfold MiniCourtDrawing.draw_mini_court.
  destruct (draw_mini_court_loop c frame_width mc frames [] st Hmc)
    as [news [Hrun [Hlen Hcells]]].
  exists (seq (length st) (length frames)), (st ++ news).
  split; [exact Hrun |]. split; [reflexivity |].
  split; [rewrite firstn_app, Nat.sub_diag, firstn_all, app_nil_r; reflexivity |].
  split; [rewrite length_app, Hlen; reflexivity |].
  intros t f Hf. destruct (Hcells t f Hf) as [drawn [Hd Hcell]].
  exists drawn. split; [exact Hd |].
  rewrite nth_error_app2 by lia.
  replace (length st + t - length st)%nat with t by lia.
  rewrite Hcell. apply MiniCourt_key_points in Hmc.
  destruct Hmc as [_ [_ [Hbox _]]]. inversion Hbox as [[Hsx Hsy Hex Hey]].
  rewrite Hsx, Hsy, Hex, Hey.
  rewrite app_nth1; [reflexivity |].
  eapply Forall_forall in Hframes; [exact Hframes |]. eapply nth_error_In. exact Hf.
Qed.

Lemma draw_mini_court_copies_the_frames_witness :
  exists out st',
    MiniCourtDrawing.draw_mini_court court_1920 [0%nat; 1%nat] [[]; []] = Ok (out, st')
    /\ out = seq (length [@nil command; []]) (length [0%nat; 1%nat])
    /\ firstn (length [@nil command; []]) st' = [[]; []]
    /\ length st' = (length [@nil command; []] + length [0%nat; 1%nat])%nat
    /\ forall t f,
         nth_error [0%nat; 1%nat] t = Some f ->
         exists drawn,
           length drawn = 24%nat
           /\ nth_error st' (length [@nil command; []] + t)
              = Some (nth f [[]; []] []
                      ++ Blend (1920 - 300, 50) (1920 - 50, 550) (1 # 2) :: drawn).
Proof.
  apply (draw_mini_court_copies_the_frames court_constants 1920 court_1920
           [0%nat; 1%nat] [[]; []]).
  - vm_compute. reflexivity.
  - repeat constructor.
Defined.

End CanvasFacts.

(* ================================================================== *)
(** * The pipeline of [main] *)
(* ================================================================== *)

Section MainFacts.
Import Detect Pipeline.
Variable image : Type.
Variable tracker : Type.
Variable track : tracker -> image -> yolo_results * tracker.
Variable predict : image -> yolo_results.
Variable width : image -> Z.
Variable court_keypoints_of : image -> list Q.
Variable c : constants.

Lemma choose_and_filter_players_keeps_frames (kps : list Q) (dets out : list (dict bbox)) :
  choose_and_filter_players kps dets = Ok out -> out <> [].
Proof.
  unfold choose_and_filter_players. intros H. bind_inv H. bind_inv H.
  inversion H. destruct dets; [discriminate | discriminate].
Qed.

(** X22.  [main] as it is written produces no statistics.  On a video without
    frames it returns at once.  On every other video, whatever the two stubs
    hold, it raises before the statistics loop: when the stubs can be read and
    the detections interpolated, filtered and searched for shots, the
    conversion to the mini court raises on the first frame.  Up to there
    nothing has been detected nor written: the tracker and the stubs are as
    they were. *)
Theorem main_raises_on_every_video (video_frames : list image) (w : world tracker) :
  (video_frames = [] ->
   main_until_conversion image tracker track predict width court_keypoints_of c
     video_frames w = (Done None, w))
  /\ (video_frames <> [] ->
      exists s,
        main_until_conversion image tracker track predict width court_keypoints_of c
          video_frames w = (Failed s, w)).
Proof.
  split; [intros ->; reflexivity |].
  intros Hne. destruct video_frames as [| first_frame rest]; [contradiction |].
  unfold main_until_conversion, PlayerTracker.detect_frames, BallTracker.detect_frames,
    detect_frames_with, load, lift, bind.
  destruct (read (disk w) "tracker_stubs/player_detections.pkl"%string) as [players |];
    [| eexists; reflexivity].
  destruct (read (disk w) "tracker_stubs/ball_detections.pkl"%string) as [balls |];
    [| eexists; reflexivity].
  destruct (interpolate_ball_positions balls) as [ball_detections | e];
    [| eexists; reflexivity].
  destruct (choose_and_filter_players (court_keypoints_of first_frame) players)
    as [player_detections | e] eqn:Ep; [| eexists; reflexivity].
  destruct (MiniCourt c (width first_frame)) as [mini_court | e];
    [| eexists; reflexivity].
  destruct (get_ball_shot_frames ball_detections) as [ball_shot_frames | e];
    [| eexists; reflexivity].
  destruct (conversion_as_written_raises c mini_court player_detections ball_detections
              (court_keypoints_of first_frame)
              (choose_and_filter_players_keeps_frames _ _ _ Ep)) as [e ->].
  eexists. reflexivity.
Qed.

End MainFacts.

Lemma main_raises_on_every_video_witness :
  exists s,
    Pipeline.main_until_conversion unit unit example_track example_predict
      (fun _ => 1920) (fun _ => example_keypoints) court_constants [tt; tt]
      world_with_both_stubs
    = (Detect.Failed s, world_with_both_stubs)
    /\ s = Detect.Python TypeError.
Proof.
  destruct (proj2 (main_raises_on_every_video unit unit example_track example_predict
                     (fun _ => 1920) (fun _ => example_keypoints) court_constants
                     [tt; tt] world_with_both_stubs) ltac:(discriminate)) as [s Hs].
  exists s. split; [exact Hs |].
  vm_compute in Hs. inversion Hs. reflexivity.
Defined.

(* ================================================================== *)
(** * What the shot detector does not see *)
(* ================================================================== *)

Section Invariance.
Import Pandas.
Variable a : Q.
Hypothesis a_nonzero : ~ (a == 0)%Q.

Lemma Forall2_firstn {A B : Type} (R : A -> B -> Prop) (l : list A) (l' : list B) (n : nat) :
  Forall2 R l l' -> Forall2 R (firstn n l) (firstn n l').
Proof.
  intros H. revert n. induction H as [| x y l l' Hxy _ IH]; intros n.
  - rewrite !firstn_nil. constructor.
  - destruct n; simpl; constructor; auto.
Qed.

Lemma Forall2_skipn {A B : Type} (R : A -> B -> Prop) (l : list A) (l' : list B) (n : nat) :
  Forall2 R l l' -> Forall2 R (skipn n l) (skipn n l').
Proof.
  intros H. revert n. induction H as [| x y l l' Hxy Hall IH]; intros n.
  - rewrite !skipn_nil. constructor.
  - destruct n; simpl; [constructor; assumption | apply IH].
Qed.

Lemma Forall2_map_seq {B C : Type} (R : B -> C -> Prop) (f : nat -> B) (g : nat -> C)
    (l : list nat) :
  (forall t, R (f t) (g t)) -> Forall2 R (map f l) (map g l).
Proof. intros H. induction l; simpl; constructor; auto. Qed.

Lemma Forall2_combine {A B : Type} (R : A -> B -> Prop)
    (l1 l2 : list A) (l1' l2' : list B) :
  Forall2 R l1 l1' -> Forall2 R l2 l2' ->
  Forall2 (fun p p' => R (fst p) (fst p') /\ R (snd p) (snd p'))
          (combine l1 l2) (combine l1' l2').
Proof.
  intros H1. revert l2 l2'. induction H1 as [| x y l1 l1' Hxy _ IH]; intros l2 l2' H2.
  - constructor.
  - destruct H2 as [| u v l2 l2' Huv H2]; simpl; constructor; auto.
Qed.

Lemma Forall2_map2 {A B C D : Type} (R : A -> B -> Prop) (S : C -> D -> Prop)
    (f : A -> C) (g : B -> D) (l : list A) (l' : list B) :
  (forall x y, R x y -> S (f x) (g y)) ->
  Forall2 R l l' -> Forall2 S (map f l) (map g l').
Proof. intros H. induction 1; simpl; constructor; auto. Qed.

Lemma Forall2_nth_default {A B : Type} (R : A -> B -> Prop) (l : list A) (l' : list B)
    (d : A) (d' : B) (n : nat) :
  R d d' -> Forall2 R l l' -> R (nth n l d) (nth n l' d').
Proof.
  intros Hd H. revert n. induction H as [| x y l l' Hxy _ IH]; intros n.
  - destruct n; exact Hd.
  - destruct n; simpl; auto.
Qed.

(** ** The columns *)

Lemma div_scalar_affine (c k : Q) (s s' : series) :
  ~ (k == 0)%Q ->
  Forall2 (affine a c) s s' ->
  Forall2 (affine a (c / k)) (div_scalar s k) (div_scalar s' k).
Proof.
  intros Hk. unfold div_scalar. apply Forall2_map2.
  intros [q |] [q' |]; simpl; try tauto.
  intros H. rewrite H. field. exact Hk.
Qed.

Lemma valid_affine (c : Q) (s s' : series) :
  Forall2 (affine a c) s s' ->
  Forall2 (fun q q' => q' == a * q + c)%Q (valid s) (valid s').
Proof.
  induction 1 as [| x y s s' Hxy _ IH]; [constructor |].
  destruct x as [q |], y as [q' |]; simpl in *; try tauto.
  constructor; assumption.
Qed.

Lemma fold_Qplus_acc (l : list Q) (acc : Q) :
  (fold_left Qplus l acc == acc + fold_left Qplus l 0)%Q.
Proof.
  revert acc. induction l as [| x l IH]; intros acc; simpl.
  - ring.
  - rewrite (IH (acc + x)%Q), (IH (0 + x)%Q). ring.
Qed.

Lemma Qsum_affine (c : Q) (l l' : list Q) :
  Forall2 (fun q q' => q' == a * q + c)%Q l l' ->
  (Qsum l' == a * Qsum l + inject_Z (Z.of_nat (length l)) * c)%Q.
Proof.
  unfold Qsum. induction 1 as [| x y l l' Hxy _ IH].
  - simpl. ring.
  - cbn [fold_left length].
    rewrite (fold_Qplus_acc l' (0 + y)%Q), (fold_Qplus_acc l (0 + x)%Q), IH, Hxy.
    rewrite Nat2Z.inj_succ, <- Z.add_1_r, inject_Z_plus. ring.
Qed.

Lemma mean_affine (c : Q) (l l' : list Q) :
  Forall2 (fun q q' => q' == a * q + c)%Q l l' -> affine a c (mean l) (mean l').
Proof.
  intros H. pose proof (Forall2_length H) as Hlen.
  pose proof (Qsum_affine c l l' H) as Hsum.
  destruct H as [| x y l l' Hxy H]; [exact I |].
  unfold mean, affine. rewrite Hsum, <- Hlen. field.
  apply inject_Z_nonzero. simpl. lia.
Qed.

Lemma rolling_mean_affine (c : Q) (w : nat) (s s' : series) :
  Forall2 (affine a c) s s' ->
  Forall2 (affine a c) (rolling_mean w s) (rolling_mean w s').
Proof.
  intros H. unfold rolling_mean. rewrite <- (Forall2_length H).
  apply Forall2_map_seq. intros t. apply mean_affine, valid_affine.
  unfold window. apply Forall2_skipn, Forall2_firstn. exact H.
Qed.

Lemma diff_affine (c : Q) (s s' : series) :
  Forall2 (affine a c) s s' -> Forall2 (affine a 0) (diff s) (diff s').
Proof.
  intros H. destruct H as [| x y s s' Hxy H]; [constructor |].
  unfold diff. constructor; [exact I |].
  apply (Forall2_map2 (fun p p' => affine a c (fst p) (fst p') /\ affine a c (snd p) (snd p'))).
  - intros [u v] [u' v'] [Hu Hv]. simpl in *.
    destruct u as [q |], u' as [q' |]; simpl in *; try tauto;
      destruct v as [r |], v' as [r' |]; simpl in *; try tauto.
    rewrite Hu, Hv. ring.
  - apply Forall2_combine; [exact H | constructor; assumption].
Qed.

(** ** The signs of the changes *)

Lemma Qltb_iff (x y u v : Q) : ((x < y)%Q <-> (u < v)%Q) -> Qltb x y = Qltb u v.
Proof.
  intros H. apply eq_true_iff_eq. rewrite !Qltb_lt. exact H.
Qed.

Lemma signs_kept (x x' : option Q) :
  (0 < a)%Q -> affine a 0 x x' -> gt0 x' = gt0 x /\ lt0 x' = lt0 x.
Proof.
  intros Ha. destruct x as [q |], x' as [q' |]; simpl; try tauto.
  intros H. split; apply Qltb_iff; split; intros; nra.
Qed.

Lemma signs_swapped (x x' : option Q) :
  (a < 0)%Q -> affine a 0 x x' -> gt0 x' = lt0 x /\ lt0 x' = gt0 x.
Proof.
  intros Ha. destruct x as [q |], x' as [q' |]; simpl; try tauto.
  intros H. split; apply Qltb_iff; split; intros; nra.
Qed.

Lemma shot_at_affine (s s' : series) (i : Z) :
  Forall2 (affine a 0) s s' -> shot_at s' i = shot_at s i.
Proof.
  intros H.
  assert (Hcell : forall j, affine a 0 (cell s j) (cell s' j)).
  { intros j. unfold cell. apply Forall2_nth_default; [exact I | exact H]. }
  destruct (Q_dec a 0) as [[Hneg | Hpos] | Hzero]; [| | contradiction].
  - assert (Hg : forall j, gt0 (cell s' j) = lt0 (cell s j))
      by (intros j; apply (signs_swapped _ _ Hneg (Hcell j))).
    assert (Hl : forall j, lt0 (cell s' j) = gt0 (cell s j))
      by (intros j; apply (signs_swapped _ _ Hneg (Hcell j))).
    assert (Hf : forall j, follows s' i j = follows s i j).
    { intros j. unfold follows, reversal_down, reversal_up. rewrite !Hg, !Hl.
      apply orb_comm. }
    unfold shot_at, change_count_of, reversal_down, reversal_up.
    rewrite !Hg, !Hl, (filter_ext _ _ Hf). rewrite orb_comm. reflexivity.
  - assert (Hg : forall j, gt0 (cell s' j) = gt0 (cell s j))
      by (intros j; apply (signs_kept _ _ Hpos (Hcell j))).
    assert (Hl : forall j, lt0 (cell s' j) = lt0 (cell s j))
      by (intros j; apply (signs_kept _ _ Hpos (Hcell j))).
    assert (Hf : forall j, follows s' i j = follows s i j).
    { intros j. unfold follows, reversal_down, reversal_up. rewrite !Hg, !Hl.
      reflexivity. }
    unfold shot_at, change_count_of, reversal_down, reversal_up.
    rewrite !Hg, !Hl, (filter_ext _ _ Hf). reflexivity.
Qed.

Lemma fold_mark_affine (s s' : series) (l : list Z) (ball_hit : list Z) :
  Forall2 (affine a 0) s s' ->
  fold_left (mark s') l ball_hit = fold_left (mark s) l ball_hit.
Proof.
  intros H. revert ball_hit. induction l as [| i l IH]; intros ball_hit; [reflexivity |].
  simpl. rewrite IH. unfold mark. rewrite (shot_at_affine s s' i H). reflexivity.
Qed.

(** ** The two tables *)

Lemma add_columns (rows : list (option bbox)) :
  add (map (option_map (coord Y1)) rows) (map (option_map (coord Y2)) rows)
  = map (option_map (fun b => coord Y1 b + coord Y2 b)%Q) rows.
Proof.
  unfold add. induction rows as [| [b |] rows IH]; simpl; [| rewrite IH ..]; reflexivity.
Qed.

Lemma DataFrame_columns (rows : list (option bbox)) (df : frame) :
  DataFrame rows = Ok df ->
  add (y1 df) (y2 df) = map (option_map (fun b => coord Y1 b + coord Y2 b)%Q) rows.
Proof.
  unfold DataFrame. destruct rows as [| r rows].
  - intros H. inversion H. reflexivity.
  - destruct (forallb is_none (r :: rows)); [discriminate |].
    intros H. inversion H. cbn [y1 y2]. apply (add_columns (r :: rows)).
Qed.

Lemma same_vertical_motion_rows (c : Q) (bp bp' : list (dict bbox)) :
  same_vertical_motion a c bp bp' ->
  length bp' = length bp
  /\ forallb is_none (map (fun x => get_opt x 1) bp')
     = forallb is_none (map (fun x => get_opt x 1) bp)
  /\ Forall2 (affine a c)
       (map (option_map (fun b => coord Y1 b + coord Y2 b)%Q) (map (fun x => get_opt x 1) bp))
       (map (option_map (fun b => coord Y1 b + coord Y2 b)%Q) (map (fun x => get_opt x 1) bp')).
Proof.
  unfold same_vertical_motion. induction 1 as [| d d' bp bp' Hd _ [IHl [IHn IHa]]].
  - repeat split. constructor.
  - split; [simpl; congruence |]. split.
    + simpl. rewrite IHn.
      destruct (get_opt d 1), (get_opt d' 1); simpl in *; tauto.
    + simpl. constructor; assumption.
Qed.

(** X28.  [get_ball_shot_frames] looks at the sum [y1 + y2] of the ball box
    of each frame and, of the smoothed change of this sum, at the sign only.
    Two sequences with the same frames without ball, of which the second has
    the vertical motion of the first stretched by a non-zero factor and shifted
    (and, with a negative factor, turned upside down), whatever their
    horizontal coordinates, give the same result: the same shot frames, or the
    same exception.  The shot frames of a video and of its reflection in a
    horizontal line are the same. *)
Theorem get_ball_shot_frames_sees_direction_changes_only
    (c : Q) (ball_positions ball_positions' : list (dict bbox)) :
  same_vertical_motion a c ball_positions ball_positions' ->
  get_ball_shot_frames ball_positions' = get_ball_shot_frames ball_positions.
Proof.
  intros Hsame. destruct (same_vertical_motion_rows c _ _ Hsame) as [Hlen [Hnone Hsum]].
  destruct (DataFrame (map (fun x => get_opt x 1) ball_positions)) as [df | e] eqn:Edf.
  - assert (Edf' : exists df', DataFrame (map (fun x => get_opt x 1) ball_positions') = Ok df').
    { unfold DataFrame in *.
      destruct ball_positions as [| d bp], ball_positions' as [| d' bp'];
        try discriminate; [eexists; reflexivity |].
      cbn [map] in *. rewrite Hnone.
      destruct (forallb is_none (get_opt d 1 :: map (fun x => get_opt x 1) bp));
        [discriminate | eexists; reflexivity]. }
    destruct Edf' as [df' Edf'].
    rewrite (get_ball_shot_frames_marks _ _ Edf), (get_ball_shot_frames_marks _ _ Edf').
    rewrite Hlen. f_equal. f_equal. f_equal. f_equal.
    rewrite (fold_mark_affine (delta_y_of df) (delta_y_of df')).
    + f_equal. apply nth_error_ext. intros n. rewrite !nth_error_map.
      destruct (nth_error ball_positions' n) eqn:E'; destruct (nth_error ball_positions n) eqn:E;
        try reflexivity.
      * apply nth_error_None in E.
        assert (n < length ball_positions')%nat by (apply nth_error_Some; congruence). lia.
      * apply nth_error_None in E'.
        assert (n < length ball_positions)%nat by (apply nth_error_Some; congruence). lia.
    + unfold delta_y_of.
      rewrite (DataFrame_columns _ _ Edf), (DataFrame_columns _ _ Edf').
      apply (diff_affine (c / 2)), rolling_mean_affine, div_scalar_affine;
        [intros H; vm_compute in H; discriminate | exact Hsum].
  - unfold get_ball_shot_frames. rewrite Edf.
    unfold DataFrame in *.
    destruct ball_positions as [| d bp], ball_positions' as [| d' bp'];
      try discriminate.
    cbn [map] in *. rewrite Hnone.
    destruct (forallb is_none (get_opt d 1 :: map (fun x => get_opt x 1) bp));
      [| discriminate].
    inversion Edf. reflexivity.
Qed.

End Invariance.

Lemma mirror_same_vertical_motion (h : Q) (trajectory : list bbox) :
  same_vertical_motion (-1) (2 * h)
    (map (fun b => [(1, b)]) trajectory)
    (map (fun b => [(1, mirror h b)]) trajectory).
Proof.
  unfold same_vertical_motion.
  induction trajectory as [| [[[x1 y1] x2] y2] l IH]; simpl; constructor; [| exact IH].
  simpl. ring.
Qed.

Lemma get_ball_shot_frames_sees_direction_changes_only_witness :
  get_ball_shot_frames (map (fun b => [(1, mirror 1080 b)]) zigzag_trajectory)
  = get_ball_shot_frames zigzag_ball.
Proof.
  apply (get_ball_shot_frames_sees_direction_changes_only (-1)
           ltac:(intros H; vm_compute in H; discriminate) (2 * 1080)).
  apply mirror_same_vertical_motion.
Defined.
